(** * MentOS core: system-call dispatch, devfs and paging

    A shallow embedding of [mentos/src/system/syscall.c],
    [mentos/src/fs/devfs.c] and [mentos/src/mem/paging.c], with the
    properties of the natural-language specification stated and settled
    against it.

    Conventions.
    - A C [uint32_t] is a [Z] reduced with [u32]; an [int] that is stored in
      an unsigned location goes through [u32] as well.
    - A C function that may dereference NULL, hit a failed [assert] or call
      [kernel_panic] returns in [result]: [Ok], [Panic], [Fault] or [Hang].
    - Headers that are not among the sources ([errno.h], [fcntl.h],
      [dirent.h], [mem/paging.h], ...) supply constants; they are fixed
      where they are used, and no proof depends on more than their being
      different bits or numbers.  External functions (the page-frame
      allocator, the slab, [dirname], [bitmask_check], ...) are section
      variables; the few helpers that had to be given a body say so. *)

From Stdlib Require Import ZArith Lia Bool List String Ascii.
From stdpp Require Import base option list gmap strings sorting.

Local Open Scope Z_scope.

Set Default Proof Using "Type".

(* ===================================================================== *)
(** * Common definitions *)
(* ===================================================================== *)

Module Kernel.

(** Wrap-around of 32-bit unsigned arithmetic. *)
Definition u32 (z : Z) : Z := z mod 2 ^ 32.

(** Outcome of a kernel routine. *)
Inductive result (A : Type) : Type :=
| Ok (a : A)      (* normal return *)
| Panic           (* [kernel_panic] or a failed [assert] *)
| Fault           (* dereference of NULL or of memory the model does not cover *)
| Hang.           (* a loop that does not end *)

Arguments Ok {A} a.
Arguments Panic {A}.
Arguments Fault {A}.
Arguments Hang {A}.

#[export] Instance result_ret : MRet result := fun A a => Ok a.

#[export] Instance result_bind : MBind result := fun A B f m =>
  match m with
  | Ok a => f a
  | Panic => Panic
  | Fault => Fault
  | Hang => Hang
  end.

(** [deref p]: reading through a pointer that may be NULL. *)
Definition deref {A} (p : option A) : result A :=
  match p with
  | Some a => Ok a
  | None => Fault
  end.

(** [sys/errno.h] (absent from the sources): the usual numbering. *)
Definition EPERM : Z := 1.
Definition ENOENT : Z := 2.
Definition EACCES : Z := 13.
Definition EFAULT : Z := 14.
Definition EBUSY : Z := 16.
Definition EEXIST : Z := 17.
Definition ENOTDIR : Z := 20.
Definition EISDIR : Z := 21.
Definition ENFILE : Z := 23.
Definition ENOSYS : Z := 38.

Lemma bind_Ok {A B} (m : result A) (f : A -> result B) (b : B) :
  m ≫= f = Ok b -> exists a, m = Ok a /\ f a = Ok b.
Proof.
  destruct m as [a | | |]; simpl; intros H; try discriminate.
  exists a. split; [reflexivity | exact H].
Qed.

Lemma deref_Ok {A} (p : option A) (a : A) : deref p = Ok a -> p = Some a.
Proof. destruct p; simpl; intros H; inversion H; reflexivity. Qed.

Lemma u32_small z : 0 <= z < 2 ^ 32 -> u32 z = z.
Proof. intros H. unfold u32. apply Z.mod_small. exact H. Qed.

Lemma u32_range z : 0 <= u32 z < 2 ^ 32.
Proof. unfold u32. apply Z.mod_pos_bound. lia. Qed.

End Kernel.

Import Kernel.

(* ===================================================================== *)
(** * [system/syscall.c] *)
(* ===================================================================== *)

Module Syscall.

(** The registers of the interrupt frame that the dispatcher reads and
    writes. *)
Record pt_regs : Type := mk_regs {
  eax : Z; ebx : Z; ecx : Z; edx : Z; esi : Z; edi : Z
}.

Definition set_eax (f : pt_regs) (v : Z) : pt_regs :=
  {| eax := v; ebx := ebx f; ecx := ecx f; edx := edx f;
     esi := esi f; edi := edi f |}.

(** [sys_ni_syscall]: the "not implemented" system call. *)
Definition sys_ni_syscall : Z := - ENOSYS.

Section Dispatcher.

(** The rest of the kernel, as the dispatcher sees it. *)
Variable kstate : Type.
(** [SYSCALL_NUMBER] and the indices singled out by the handler
    ([system/syscall_types.h]). *)
Variable SYSCALL_NUMBER : Z.
Variables __NR_fork __NR_clone __NR_execve __NR_sigreturn __NR_mmap : Z.
(** [sys_call_table]: a slot is a function of five or six words returning
    an [int]; a slot never assigned by [syscall_init] is a null pointer. *)
Variable sys_call_table : Z -> option (list Z -> kstate -> Z * kstate).
(** The address of the frame itself, passed as [arg0] to fork-like calls. *)
Variable frame_address : pt_regs -> Z.
(** Reading the word [args[i]] of the user structure given to [mmap]. *)
Variable user_word : kstate -> Z -> Z -> Z.
Variable switch_fpu unswitch_fpu : kstate -> kstate.
Variable scheduler_run : pt_regs -> kstate -> pt_regs * kstate.

(** The value [ret] computed by [syscall_handler], before it is stored. *)
Definition syscall_ret (f : pt_regs) (k : kstate) : result (Z * kstate) :=
  let sc_index := eax f in
  if SYSCALL_NUMBER <=? sc_index then
    Ok (ENOSYS, k)
  else
    func ← deref (sys_call_table sc_index);
    let arg0 :=
      if (sc_index =? __NR_fork) || (sc_index =? __NR_clone)
         || (sc_index =? __NR_execve) || (sc_index =? __NR_sigreturn)
      then frame_address f else ebx f in
    if sc_index =? __NR_mmap then
      Ok (func (map (user_word k arg0) [0; 1; 2; 3; 4; 5]) k)
    else
      Ok (func [arg0; ecx f; edx f; esi f; edi f] k).

(** The frame right after [f->eax = ret], which is what the process sees
    as the result of the call. *)
Definition syscall_store (f : pt_regs) (k : kstate) : result (pt_regs * kstate) :=
  r ← syscall_ret f (switch_fpu k);
  Ok (set_eax f (u32 (fst r)), snd r).

Definition syscall_handler (f : pt_regs) (k : kstate) : result (pt_regs * kstate) :=
  r ← syscall_store f k;
  let r' := scheduler_run (fst r) (snd r) in
  Ok (fst r', unswitch_fpu (snd r')).

(** Both branches of [syscall_ret] are total once the slot is filled; the
    out-of-range branch does not consult the table at all. *)
Lemma syscall_ret_out_of_range f k :
  SYSCALL_NUMBER <= eax f -> syscall_ret f k = Ok (ENOSYS, k).
Proof.
  intros Hge. unfold syscall_ret.
  destruct (Z.leb_spec SYSCALL_NUMBER (eax f)) as [_ | Hlt]; [reflexivity | lia].
Qed.

(** C9 (defect in the code).  For an index outside the table
    the handler stores the positive number [ENOSYS] in [eax]; the negative
    errno [-ENOSYS], which [sys_ni_syscall] returns and which the claim
    expects, would be stored as the different word [u32 (- ENOSYS)]. *)
Theorem syscall_out_of_range_stores_positive_ENOSYS f k :
  SYSCALL_NUMBER <= eax f ->
  syscall_store f k = Ok (set_eax f ENOSYS, switch_fpu k)
  /\ eax (set_eax f ENOSYS) = 38
  /\ eax (set_eax f ENOSYS) <> u32 sys_ni_syscall.
Proof.
  intros Hge. split; [| split].
  - unfold syscall_store. rewrite syscall_ret_out_of_range by exact Hge.
    reflexivity.
  - reflexivity.
  - cbn. vm_compute. discriminate.
Qed.

End Dispatcher.

(** A table of three slots, all of them [sys_ni_syscall], to run the
    dispatcher on. *)
Definition demo_table (i : Z) : option (list Z -> unit -> Z * unit) :=
  if (0 <=? i) && (i <? 3) then Some (fun _ k => (sys_ni_syscall, k)) else None.

Definition demo_frame (n : Z) : pt_regs := mk_regs n 0 0 0 0 0.

Lemma syscall_out_of_range_witness :
  syscall_store unit 3 0 1 2 2 2 demo_table (fun _ => 0) (fun _ _ _ => 0)
    (fun k => k) (demo_frame 7) tt
  = Ok (set_eax (demo_frame 7) ENOSYS, tt)
  /\ eax (set_eax (demo_frame 7) ENOSYS) = 38
  /\ eax (set_eax (demo_frame 7) ENOSYS) <> u32 sys_ni_syscall.
Proof.
  apply (syscall_out_of_range_stores_positive_ENOSYS unit 3 0 1 2 2 2
           demo_table (fun _ => 0) (fun _ _ _ => 0) (fun k => k)
           (demo_frame 7) tt).
  simpl. lia.
Defined.

(** ** [syscall_init] *)

(** The names [__NR_*] of this file: the slots that [syscall_init]
    assigns, in the order of the assignments, and [__NR_clone], which the
    handler tests for. *)
Inductive sysname : Type :=
  | NR_exit | NR_fork | NR_read | NR_write | NR_open
  | NR_close | NR_waitpid | NR_creat | NR_unlink | NR_execve
  | NR_chdir | NR_time | NR_chmod | NR_lchown | NR_stat
  | NR_lseek | NR_getpid | NR_setuid | NR_getuid | NR_alarm
  | NR_fstat | NR_nice | NR_kill | NR_mkdir | NR_rmdir
  | NR_dup | NR_pipe | NR_brk | NR_setgid | NR_getgid
  | NR_signal | NR_geteuid | NR_getegid | NR_ioctl | NR_fcntl
  | NR_setpgid | NR_getppid | NR_setsid | NR_sigaction | NR_setreuid
  | NR_setregid | NR_symlink | NR_readlink | NR_reboot | NR_mmap
  | NR_munmap | NR_fchmod | NR_fchown | NR_setitimer | NR_getitimer
  | NR_uname | NR_sigreturn | NR_sigprocmask | NR_getpgid | NR_fchdir
  | NR_getdents | NR_getsid | NR_sched_setparam | NR_sched_getparam | NR_nanosleep
  | NR_chown | NR_getcwd | NR_waitperiod | NR_msgctl | NR_msgget
  | NR_msgrcv | NR_msgsnd | NR_semctl | NR_semget | NR_semop
  | NR_shmat | NR_shmctl | NR_shmdt | NR_shmget | NR_clone.

(** The assignments of [syscall_init], first to last; the function stored
    by the assignment of [__NR_x] is [sys_x]. *)
Definition syscall_init_order : list sysname :=
  [
    NR_exit; NR_fork; NR_read; NR_write; NR_open;
    NR_close; NR_waitpid; NR_creat; NR_unlink; NR_execve;
    NR_chdir; NR_time; NR_chmod; NR_lchown; NR_stat;
    NR_lseek; NR_getpid; NR_setuid; NR_getuid; NR_alarm;
    NR_fstat; NR_nice; NR_kill; NR_mkdir; NR_rmdir;
    NR_dup; NR_pipe; NR_brk; NR_setgid; NR_getgid;
    NR_signal; NR_geteuid; NR_getegid; NR_ioctl; NR_fcntl;
    NR_setpgid; NR_getppid; NR_setsid; NR_sigaction; NR_setreuid;
    NR_setregid; NR_symlink; NR_readlink; NR_reboot; NR_mmap;
    NR_munmap; NR_fchmod; NR_fchown; NR_setitimer; NR_getitimer;
    NR_uname; NR_sigreturn; NR_sigprocmask; NR_getpgid; NR_fchdir;
    NR_getdents; NR_getsid; NR_sched_setparam; NR_sched_getparam; NR_nanosleep;
    NR_chown; NR_getcwd; NR_waitperiod; NR_msgctl; NR_msgget;
    NR_msgrcv; NR_msgsnd; NR_semctl; NR_semget; NR_semop;
    NR_shmat; NR_shmctl; NR_shmdt; NR_shmget
  ].

Section Init.

Variable kstate : Type.
(** The value of each [__NR_*] macro ([system/syscall_types.h]) and the
    function [sys_*] of each name. *)
Variable number : sysname -> Z.
Variable sys : sysname -> list Z -> kstate -> Z * kstate.

(** [sys_call_table[__NR_x] = (SystemCall)sys_x]. *)
Definition assign (table : Z -> option (list Z -> kstate -> Z * kstate)) (n : sysname)
    : Z -> option (list Z -> kstate -> Z * kstate) :=
  fun i => if i =? number n then Some (sys n) else table i.

(** [syscall_init], as far as the table goes; its last statement installs
    the handler of the interrupt. *)
Definition syscall_init (table : Z -> option (list Z -> kstate -> Z * kstate))
    : Z -> option (list Z -> kstate -> Z * kstate) :=
  fold_left assign syscall_init_order table.

(** [sys_call_table] has static storage: every slot is a null pointer
    until [syscall_init] has run. *)
Definition sys_call_table : Z -> option (list Z -> kstate -> Z * kstate) :=
  syscall_init (fun _ => None).

Lemma assign_all_other l table i :
  Forall (fun n => number n <> i) l -> fold_left assign l table i = table i.
Proof.
  revert table. induction l as [| n l IH]; intros table Hl; [reflexivity |].
  apply Forall_cons in Hl as [Hn Hl]. simpl. rewrite IH by exact Hl.
  unfold assign. destruct (Z.eqb_spec i (number n)) as [Heq | _]; [| reflexivity].
  symmetry in Heq. contradiction.
Qed.

Lemma assign_all_member l table n :
  (forall a b, number a = number b -> a = b) ->
  n ∈ l -> fold_left assign l table (number n) = Some (sys n).
Proof.
  intros Hinj. induction l as [| m l IH] using rev_ind; intros Hn.
  - apply elem_of_nil in Hn. contradiction.
  - rewrite fold_left_app. simpl. unfold assign at 1.
    destruct (Z.eqb_spec (number n) (number m)) as [Heq | Hne].
    + apply Hinj in Heq. subst m. reflexivity.
    + apply elem_of_app in Hn as [Hin | Hlast]; [exact (IH Hin) |].
      apply list_elem_of_singleton in Hlast. subst m. contradiction.
Qed.

Lemma syscall_init_order_no_clone :
  Forall (fun n => n <> NR_clone) syscall_init_order.
Proof.
  unfold syscall_init_order.
  repeat (apply Forall_cons; split; [discriminate |]). constructor.
Qed.

(** The tests of the handler on the index, read on the names. *)
Lemma number_eqb_fork n :
  (forall a b, number a = number b -> a = b) ->
  (number n =? number NR_fork) = match n with NR_fork => true | _ => false end.
Proof.
  intros Hinj.
  destruct n; first [apply Z.eqb_refl | apply Z.eqb_neq; intros H; apply Hinj in H; discriminate].
Qed.

Lemma number_eqb_clone n :
  (forall a b, number a = number b -> a = b) ->
  (number n =? number NR_clone) = match n with NR_clone => true | _ => false end.
Proof.
  intros Hinj.
  destruct n; first [apply Z.eqb_refl | apply Z.eqb_neq; intros H; apply Hinj in H; discriminate].
Qed.

Lemma number_eqb_execve n :
  (forall a b, number a = number b -> a = b) ->
  (number n =? number NR_execve) = match n with NR_execve => true | _ => false end.
Proof.
  intros Hinj.
  destruct n; first [apply Z.eqb_refl | apply Z.eqb_neq; intros H; apply Hinj in H; discriminate].
Qed.

Lemma number_eqb_sigreturn n :
  (forall a b, number a = number b -> a = b) ->
  (number n =? number NR_sigreturn) = match n with NR_sigreturn => true | _ => false end.
Proof.
  intros Hinj.
  destruct n; first [apply Z.eqb_refl | apply Z.eqb_neq; intros H; apply Hinj in H; discriminate].
Qed.

Lemma number_eqb_mmap n :
  (forall a b, number a = number b -> a = b) ->
  (number n =? number NR_mmap) = match n with NR_mmap => true | _ => false end.
Proof.
  intros Hinj.
  destruct n; first [apply Z.eqb_refl | apply Z.eqb_neq; intros H; apply Hinj in H; discriminate].
Qed.

(** X23.  [syscall_init] fills the slots of 74 names and no other.  With
    the numbers of the names distinct, each function is found at its own
    number and a request for it reaches it: with six words read from the
    user structure at [ebx] for [mmap], with the address of the frame as
    first argument for [fork], [execve] and [sigreturn], with the five
    registers otherwise.  [__NR_clone], which the handler prepares the
    frame for, is not among the 74: a request for it, like one for any
    other index below [SYSCALL_NUMBER] that is not the number of an
    assigned name, does not come back with an error but calls through a
    null pointer. *)
Theorem syscall_init_leaves_holes SYSCALL_NUMBER frame_address user_word :
  (forall a b, number a = number b -> a = b) ->
  let ret := syscall_ret kstate SYSCALL_NUMBER (number NR_fork) (number NR_clone)
               (number NR_execve) (number NR_sigreturn) (number NR_mmap)
               sys_call_table frame_address user_word in
  (forall n f k,
     n ∈ syscall_init_order -> eax f = number n -> number n < SYSCALL_NUMBER ->
     sys_call_table (number n) = Some (sys n)
     /\ ret f k
        = Ok (sys n
                match n with
                | NR_mmap => map (user_word k (ebx f)) [0; 1; 2; 3; 4; 5]
                | NR_fork | NR_execve | NR_sigreturn =>
                    [frame_address f; ecx f; edx f; esi f; edi f]
                | _ => [ebx f; ecx f; edx f; esi f; edi f]
                end k))
  /\ (forall f k,
        Forall (fun n => number n <> eax f) syscall_init_order ->
        eax f < SYSCALL_NUMBER -> sys_call_table (eax f) = None /\ ret f k = Fault)
  /\ (forall f k,
        eax f = number NR_clone -> number NR_clone < SYSCALL_NUMBER ->
        sys_call_table (number NR_clone) = None /\ ret f k = Fault).
Proof.
  intros Hinj ret.
  assert (Hhole : forall f k,
            Forall (fun n => number n <> eax f) syscall_init_order ->
            eax f < SYSCALL_NUMBER -> sys_call_table (eax f) = None /\ ret f k = Fault).
  { intros f k Hnone Hlt.
    assert (Hslot : sys_call_table (eax f) = None)
      by (unfold sys_call_table, syscall_init; rewrite assign_all_other by exact Hnone;
          reflexivity).
    split; [exact Hslot |]. unfold ret, syscall_ret.
    destruct (Z.leb_spec SYSCALL_NUMBER (eax f)) as [Hge | _]; [lia |].
    rewrite Hslot. reflexivity. }
  split; [| split; [exact Hhole |]].
  - intros n f k Hn Heax Hlt.
    assert (Hslot : sys_call_table (number n) = Some (sys n))
      by (apply assign_all_member; assumption).
    split; [exact Hslot |]. unfold ret, syscall_ret. rewrite Heax.
    destruct (Z.leb_spec SYSCALL_NUMBER (number n)) as [Hge | _]; [lia |].
    rewrite Hslot. simpl.
    rewrite number_eqb_fork, number_eqb_clone, number_eqb_execve,
      number_eqb_sigreturn, number_eqb_mmap by exact Hinj.
    destruct n; try reflexivity.
    pose proof syscall_init_order_no_clone as Hno.
    rewrite Forall_forall in Hno. destruct (Hno _ Hn eq_refl).
  - intros f k Heax Hlt. rewrite <- Heax. apply Hhole; [| lia].
    rewrite Heax. eapply Forall_impl; [exact syscall_init_order_no_clone |].
    intros n Hn Heq. apply Hinj in Heq. contradiction.
Qed.

End Init.

(** The names numbered in the order of the assignments, [__NR_clone]
    last, to run the dispatcher on. *)
Definition order_number (n : sysname) : Z :=
  match n with
  | NR_exit => 0 | NR_fork => 1 | NR_read => 2 | NR_write => 3
  | NR_open => 4 | NR_close => 5 | NR_waitpid => 6 | NR_creat => 7
  | NR_unlink => 8 | NR_execve => 9 | NR_chdir => 10 | NR_time => 11
  | NR_chmod => 12 | NR_lchown => 13 | NR_stat => 14 | NR_lseek => 15
  | NR_getpid => 16 | NR_setuid => 17 | NR_getuid => 18 | NR_alarm => 19
  | NR_fstat => 20 | NR_nice => 21 | NR_kill => 22 | NR_mkdir => 23
  | NR_rmdir => 24 | NR_dup => 25 | NR_pipe => 26 | NR_brk => 27
  | NR_setgid => 28 | NR_getgid => 29 | NR_signal => 30 | NR_geteuid => 31
  | NR_getegid => 32 | NR_ioctl => 33 | NR_fcntl => 34 | NR_setpgid => 35
  | NR_getppid => 36 | NR_setsid => 37 | NR_sigaction => 38 | NR_setreuid => 39
  | NR_setregid => 40 | NR_symlink => 41 | NR_readlink => 42 | NR_reboot => 43
  | NR_mmap => 44 | NR_munmap => 45 | NR_fchmod => 46 | NR_fchown => 47
  | NR_setitimer => 48 | NR_getitimer => 49 | NR_uname => 50 | NR_sigreturn => 51
  | NR_sigprocmask => 52 | NR_getpgid => 53 | NR_fchdir => 54 | NR_getdents => 55
  | NR_getsid => 56 | NR_sched_setparam => 57 | NR_sched_getparam => 58 | NR_nanosleep => 59
  | NR_chown => 60 | NR_getcwd => 61 | NR_waitperiod => 62 | NR_msgctl => 63
  | NR_msgget => 64 | NR_msgrcv => 65 | NR_msgsnd => 66 | NR_semctl => 67
  | NR_semget => 68 | NR_semop => 69 | NR_shmat => 70 | NR_shmctl => 71
  | NR_shmdt => 72 | NR_shmget => 73 | NR_clone => 74
  end.

Lemma order_number_nth n :
  nth_error (syscall_init_order ++ [NR_clone]) (Z.to_nat (order_number n)) = Some n.
Proof. destruct n; reflexivity. Qed.

Lemma order_number_inj a b : order_number a = order_number b -> a = b.
Proof.
  intros Heq. pose proof (order_number_nth a) as Ha.
  rewrite Heq, order_number_nth in Ha. congruence.
Qed.

(** Each function answers with the number of its name. *)
Definition answer_number (n : sysname) (args : list Z) (k : unit) : Z * unit :=
  (order_number n, k).

Lemma syscall_init_leaves_holes_witness :
  syscall_ret unit 80 (order_number NR_fork) (order_number NR_clone)
    (order_number NR_execve) (order_number NR_sigreturn) (order_number NR_mmap)
    (sys_call_table unit order_number answer_number) (fun _ => 0) (fun _ _ _ => 0)
    (demo_frame (order_number NR_getpid)) tt
  = Ok (order_number NR_getpid, tt)
  /\ syscall_ret unit 80 (order_number NR_fork) (order_number NR_clone)
       (order_number NR_execve) (order_number NR_sigreturn) (order_number NR_mmap)
       (sys_call_table unit order_number answer_number) (fun _ => 0) (fun _ _ _ => 0)
       (demo_frame (order_number NR_clone)) tt
     = Fault
  /\ syscall_ret unit 80 (order_number NR_fork) (order_number NR_clone)
       (order_number NR_execve) (order_number NR_sigreturn) (order_number NR_mmap)
       (sys_call_table unit order_number answer_number) (fun _ => 0) (fun _ _ _ => 0)
       (demo_frame 77) tt
     = Fault.
Proof.
  destruct (syscall_init_leaves_holes unit order_number answer_number 80
              (fun _ => 0) (fun _ _ _ => 0) order_number_inj)
    as (Hfilled & Hhole & Hclone).
  split; [| split].
  - apply (Hfilled NR_getpid (demo_frame (order_number NR_getpid)) tt);
      [| reflexivity | reflexivity].
    unfold syscall_init_order. rewrite !elem_of_cons. tauto.
  - apply (Hclone (demo_frame (order_number NR_clone)) tt); reflexivity.
  - apply (Hhole (demo_frame 77) tt); [| reflexivity].
    unfold syscall_init_order.
    repeat (apply Forall_cons; split; [discriminate |]). constructor.
Defined.

End Syscall.

(* ===================================================================== *)
(** * [fs/devfs.c] *)
(* ===================================================================== *)

Module Devfs.

(** Maximum length of name in DEVFS. *)
Definition DEVFS_NAME_MAX : nat := 255.
(** Maximum number of files in DEVFS. *)
Definition DEVFS_MAX_FILES : Z := 1024.
(** The magic number used to check if the devfs file is valid. *)
Definition DEVFS_MAGIC_NUMBER : Z := 191. (* 0xBF *)

(** [dirent.h], [fcntl.h] and [sys/stat.h] (absent from the sources). *)
Definition DT_DIR : Z := 4.
Definition DT_REG : Z := 8.
Definition DT_LNK : Z := 10.
Definition O_WRONLY : Z := 1.
Definition O_RDWR : Z := 2.
Definition O_CREAT : Z := 64.        (* 0100 *)
Definition O_EXCL : Z := 128.        (* 0200 *)
Definition O_DIRECTORY : Z := 65536. (* 0200000 *)
Definition S_IRUSR : Z := 256.
Definition S_IRGRP : Z := 32.
Definition S_IROTH : Z := 4.

Record stat_t : Type := mk_stat {
  st_dev : Z; st_ino : Z; st_mode : Z; st_uid : Z; st_gid : Z;
  st_size : Z; st_atime : Z; st_mtime : Z; st_ctime : Z
}.

(** The fields of a [vfs_file_t] that devfs fills in.  Its two operation
    tables always point to [devfs_sys_operations] and
    [devfs_fs_operations], its [device] to the node's [dir_entry]. *)
Record vfs_file_t : Type := mk_vfs_file {
  vf_name : string; vf_ino : Z; vf_uid : Z; vf_gid : Z; vf_mask : Z;
  vf_length : Z; vf_flags : Z
}.

(** A [dirent_t] record as [devfs_getdents] writes it. *)
Record dirent_t : Type := mk_dirent {
  d_ino : Z; d_off : Z; d_reclen : Z; d_type : Z; d_name : string
}.

(** The driver's tables of function pointers; a null pointer is [None].
    A driver function is modelled by the value it returns. *)
Record vfs_file_operations_t : Type := mk_fops {
  read_f : option (vfs_file_t -> Z -> Z -> Z);
  write_f : option (vfs_file_t -> Z -> Z -> Z);
  lseek_f : option (vfs_file_t -> Z -> Z -> Z);
  stat_f : option (vfs_file_t -> stat_t -> Z * stat_t);
  ioctl_f : option (vfs_file_t -> Z -> Z -> Z);
  getdents_f : option (vfs_file_t -> Z -> Z -> Z)
}.

Record vfs_sys_operations_t : Type := mk_sops {
  sys_stat_f : option (string -> stat_t -> Z * stat_t)
}.

Record devfs_dir_entry_t : Type := mk_dir_entry {
  sys_operations : option vfs_sys_operations_t;
  fs_operations : option vfs_file_operations_t;
  data : option Z;
  de_name : string
}.

(** Information concerning a file.  [files] holds the addresses of the
    [vfs_file_t] objects linked onto the node, first to last. *)
Record devfs_file_t : Type := mk_devfs_file {
  magic : Z;
  inode : Z;
  flags : Z;
  mask : Z;
  name : string;
  uid : Z;
  gid : Z;
  atime : Z;
  mtime : Z;
  ctime : Z;
  dir_entry : devfs_dir_entry_t;
  files : list Z
}.

(** The details regarding the filesystem: the global [fs]. *)
Record devfs_t : Type := mk_devfs {
  nfiles : Z;
  fs_files : list devfs_file_t
}.

(** What the devfs functions read and write: the global [fs], the objects
    of [vfs_file_cache] by address, and [errno]. *)
Record devfs_state : Type := mk_state {
  fs : devfs_t;
  vfs_heap : gmap Z vfs_file_t;
  errno : Z
}.

Definition set_errno (e : Z) (st : devfs_state) : devfs_state :=
  {| fs := fs st; vfs_heap := vfs_heap st; errno := e |}.

Definition set_fs (f : devfs_t) (st : devfs_state) : devfs_state :=
  {| fs := f; vfs_heap := vfs_heap st; errno := errno st |}.

Definition set_atime (t : Z) (f : devfs_file_t) : devfs_file_t :=
  {| magic := magic f; inode := inode f; flags := flags f; mask := mask f;
     name := name f; uid := uid f; gid := gid f;
     atime := t; mtime := mtime f; ctime := ctime f;
     dir_entry := dir_entry f; files := files f |}.

Definition set_files (l : list Z) (f : devfs_file_t) : devfs_file_t :=
  {| magic := magic f; inode := inode f; flags := flags f; mask := mask f;
     name := name f; uid := uid f; gid := gid f;
     atime := atime f; mtime := mtime f; ctime := ctime f;
     dir_entry := dir_entry f; files := l |}.

Definition set_mask (m : Z) (f : devfs_file_t) : devfs_file_t :=
  {| magic := magic f; inode := inode f; flags := flags f; mask := m;
     name := name f; uid := uid f; gid := gid f;
     atime := atime f; mtime := mtime f; ctime := ctime f;
     dir_entry := dir_entry f; files := files f |}.

(** Checks if the file is a valid DEVFS file. *)
Definition devfs_check_file (f : devfs_file_t) : bool :=
  magic f =? DEVFS_MAGIC_NUMBER.

(** Returns the DEVFS file associated with the given list entry. *)
Definition devfs_get_file (entry : devfs_file_t) : option devfs_file_t :=
  if devfs_check_file entry then Some entry else None.

(** The loop shared by [devfs_find_entry_path] and
    [devfs_find_entry_inode]: the first valid node satisfying [p], with its
    position in the list (which stands for its address). *)
Fixpoint devfs_find_from (p : devfs_file_t -> bool) (i : nat)
    (l : list devfs_file_t) : option (nat * devfs_file_t) :=
  match l with
  | [] => None
  | entry :: rest =>
      match devfs_get_file entry with
      | Some f => if p f then Some (i, f) else devfs_find_from p (S i) rest
      | None => devfs_find_from p (S i) rest
      end
  end.

(** Finds the DEVFS file at the given path. *)
Definition devfs_find_entry_path (d : devfs_t) (path : string)
    : option (nat * devfs_file_t) :=
  devfs_find_from (fun f => String.eqb (name f) path) 0%nat (fs_files d).

(** Finds the DEVFS file with the given inode ([int] against [uint32_t]). *)
Definition devfs_find_entry_inode (d : devfs_t) (ino : Z)
    : option (nat * devfs_file_t) :=
  devfs_find_from (fun f => u32 (inode f) =? u32 ino) 0%nat (fs_files d).

(** Finds a free inode. *)
Definition devfs_get_free_inode (d : devfs_t) : Z :=
  match List.find (fun i => negb (bool_decide (is_Some (devfs_find_entry_inode d i))))
                  (seqZ 1 (DEVFS_MAX_FILES - 1)) with
  | Some i => i
  | None => -1
  end.

(** Destroyes the given DEVFS file (given by position). *)
Definition devfs_destroy_file (i : nat) (d : devfs_t) : devfs_t :=
  {| nfiles := u32 (nfiles d - 1); fs_files := delete i (fs_files d) |}.

(** [strcmp(a, b) != 0]. *)
Definition str_differs (a b : string) : bool := negb (String.eqb a b).

(** The string that starts [n] characters into [s] ([s + n] in C). *)
Fixpoint string_drop (n : nat) (s : string) : string :=
  match n, s with
  | O, _ => s
  | S n', String _ s' => string_drop n' s'
  | S _, EmptyString => EmptyString
  end.

(** [*(s + n) == '/']. *)
Definition char_is_slash (s : string) (n : nat) : bool :=
  match String.get n s with
  | Some c => Ascii.eqb c "/"%char
  | None => false
  end.

(** The contents [devfs_create_file_struct] gives to a new [vfs_file_t]. *)
Definition vfs_file_of (f : devfs_file_t) : vfs_file_t :=
  {| vf_name := name f; vf_ino := inode f; vf_uid := 0; vf_gid := 0;
     vf_mask := Z.lor S_IRUSR (Z.lor S_IRGRP S_IROTH);
     vf_length := 0; vf_flags := flags f |}.

Section Operations.

(** [bitmask_check] of [sys/bitops.h], which is not among the sources. *)
Variable bitmask_check : Z -> Z -> bool.
(** [dirname] and [basename] of [libgen.h]; [dirname] returns 0 when it
    fails. *)
Variable dirname : string -> option string.
Variable basename : string -> string.
(** [kmem_cache_alloc(vfs_file_cache, GFP_KERNEL)]: the address of the new
    object, or NULL. *)
Variable vfs_file_alloc : gmap Z vfs_file_t -> option Z.
(** Whether [kmem_cache_alloc(fs.devfs_file_cache, GFP_KERNEL)] succeeds. *)
Variable devfs_file_alloc : devfs_t -> bool.
(** [sizeof(dirent_t)]. *)
Variable sizeof_dirent : Z.

(** Creates a new DEVFS file; [now] is what [sys_time(NULL)] returns.
    The result is NULL when the slab has no object left.  [strcpy] copies
    [path] and its terminator into [name], an array of [DEVFS_NAME_MAX]
    bytes, without a test of the length.  A path of [DEVFS_NAME_MAX]
    characters or more is written past the array, over [uid], [gid] and
    what lies behind them, which nothing sets again; what the object and
    its neighbours hold then depends on the layout of the memory, which
    is not covered: the call ends in [Fault]. *)
Definition devfs_create_file (path : string) (fl : Z) (now : Z) (d : devfs_t)
    : result (option (nat * devfs_file_t * devfs_t)) :=
  if devfs_file_alloc d then
    if (String.length path <? DEVFS_NAME_MAX)%nat then
      let f := {| magic := DEVFS_MAGIC_NUMBER;
                  inode := devfs_get_free_inode d;
                  flags := fl; mask := 0; name := path; uid := 0; gid := 0;
                  atime := now; mtime := now; ctime := now;
                  dir_entry := {| sys_operations := None; fs_operations := None;
                                  data := None; de_name := basename path |};
                  files := [] |} in
      Ok (Some (length (fs_files d), f,
                {| nfiles := u32 (nfiles d + 1); fs_files := fs_files d ++ [f] |}))
    else Fault
  else Ok None.

(** Creates a VFS file, from a DEVFS file. *)
Definition devfs_create_file_struct (f : devfs_file_t) (h : gmap Z vfs_file_t)
    : option (Z * gmap Z vfs_file_t) :=
  match vfs_file_alloc h with
  | None => None
  | Some p => Some (p, <[p := vfs_file_of f]> h)
  end.

(** The tail shared by the three successful paths of [devfs_open]: create
    the [vfs_file_t], update the access time when [upd] is set, link the
    new object at the end of the node's [files]. *)
Definition devfs_open_node (i : nat) (f : devfs_file_t) (upd : bool) (now : Z)
    (st : devfs_state) : option Z * devfs_state :=
  match devfs_create_file_struct f (vfs_heap st) with
  | None => (None, set_errno ENFILE st)
  | Some (p, h) =>
      let f1 := if upd then set_atime now f else f in
      let f2 := set_files (files f1 ++ [p]) f1 in
      (Some p,
       {| fs := {| nfiles := nfiles (fs st);
                   fs_files := <[i := f2]> (fs_files (fs st)) |};
          vfs_heap := h; errno := errno st |})
  end.

(** Open the file at the given path; the result is the address of the new
    [vfs_file_t], or NULL. *)
Definition devfs_open (path : string) (fl : Z) (mode : Z) (now : Z)
    (st : devfs_state) : result (option Z * devfs_state) :=
  match dirname path with
  | None => Ok (None, st)
  | Some parent_path =>
      let parent_check : option Z :=
        if str_differs parent_path "." && str_differs parent_path "/" then
          match devfs_find_entry_path (fs st) parent_path with
          | None => Some ENOENT
          | Some (_, parent_file) =>
              if negb (bitmask_check (flags parent_file) DT_DIR)
              then Some ENOTDIR else None
          end
        else None in
      match parent_check with
      | Some e => Ok (None, set_errno e st)
      | None =>
          match devfs_find_entry_path (fs st) path with
          | Some (i, devfs_file) =>
              if bitmask_check fl (Z.lor O_CREAT O_EXCL) then
                Ok (None, set_errno EEXIST st)
              else if bitmask_check fl O_DIRECTORY then
                if negb (bitmask_check (flags devfs_file) DT_DIR) then
                  Ok (None, set_errno ENOTDIR st)
                else if bitmask_check fl O_RDWR || bitmask_check fl O_WRONLY then
                  Ok (None, set_errno EISDIR st)
                else Ok (devfs_open_node i devfs_file true now st)
              else Ok (devfs_open_node i devfs_file true now st)
          | None =>
              if bitmask_check fl O_CREAT then
                r ← devfs_create_file path DT_REG now (fs st);
                match r with
                | None => Ok (None, set_errno ENFILE st)
                | Some (i, devfs_file, d) =>
                    Ok (devfs_open_node i devfs_file false now (set_fs d st))
                end
              else Ok (None, set_errno ENOENT st)
          end
      end
  end.

(** Closes the given file: unlink it from the node that holds it and free
    it. *)
Definition devfs_close (file : Z) (st : devfs_state) : Z * devfs_state :=
  (0,
   {| fs := {| nfiles := nfiles (fs st);
               fs_files :=
                 map (fun f => set_files (List.filter (fun p => negb (p =? file)) (files f)) f)
                     (fs_files (fs st)) |};
      vfs_heap := delete file (vfs_heap st); errno := errno st |}).

(** Deletes the file at the given path.  Past the first test the function
    reads [devfs_file->flags] and [devfs_file->files] through the pointer
    that [devfs_find_entry_path] returned. *)
Definition devfs_unlink (path : string) (d : devfs_t) : result (Z * devfs_t) :=
  if String.eqb path "." || String.eqb path ".." then Ok (- EPERM, d)
  else
    let devfs_file := devfs_find_entry_path d path in
    if bool_decide (is_Some devfs_file) then Ok (- EEXIST, d)
    else
      f ← deref devfs_file;
      if Z.land (flags (snd f)) DT_REG =? 0 then
        if negb (Z.land (flags (snd f)) DT_DIR =? 0) then Ok (- EISDIR, d)
        else Ok (- EACCES, d)
      else if negb (bool_decide (files (snd f) = [])) then Ok (- EACCES, d)
      else Ok (0, devfs_destroy_file (fst f) d).

(** Reads from the file identified by the file descriptor. *)
Definition devfs_read (d : devfs_t) (file : option vfs_file_t) (offset nbyte : Z) : Z :=
  match file with
  | Some vf =>
      match devfs_find_entry_inode d (vf_ino vf) with
      | Some (_, devfs_file) =>
          match fs_operations (dir_entry devfs_file) with
          | Some ops =>
              match read_f ops with
              | Some fn => fn vf offset nbyte
              | None => - ENOSYS
              end
          | None => - ENOSYS
          end
      | None => - ENOSYS
      end
  | None => - ENOSYS
  end.



(** Saves the information concerning the file ([__devfs_stat]); both
    pointers may be NULL. *)
Definition __devfs_stat (file : option devfs_file_t) (stat : option stat_t)
    : Z * option stat_t :=
  match file with
  | None => (- EFAULT, stat)
  | Some f =>
      match stat with
      | None => (- EFAULT, stat)
      | Some s =>
          let mode : option Z :=
            if negb (Z.land (flags f) DT_DIR =? 0) then Some 16384      (* 0040000 *)
            else if negb (Z.land (flags f) DT_REG =? 0) then Some 32768 (* 0100000 *)
            else if negb (Z.land (flags f) DT_LNK =? 0) then Some 40960 (* 0120000 *)
            else None in
          match mode with
          | None => (- ENOENT, stat)
          | Some m =>
              (0, Some {| st_dev := 0; st_ino := inode f;
                          st_mode := Z.lor m (mask f);
                          st_uid := uid f; st_gid := gid f; st_size := 0;
                          st_atime := atime f; st_mtime := mtime f;
                          st_ctime := ctime f |})
          end
      end
  end.



(** The [list_for_each_decl] loop of [devfs_getdents]: [len], [written] and
    [iterated] are the locals [len], [written_size] and [iterated_size];
    [out] collects the records written through [dirp]. *)
Fixpoint devfs_getdents_loop (dname : string) (doff count : Z)
    (l : list devfs_file_t) (len : nat) (written iterated : Z)
    (out : list dirent_t) : Z * list dirent_t :=
  match l with
  | [] => (written, out)
  | it :: rest =>
      match devfs_get_file it with
      | None => devfs_getdents_loop dname doff count rest len written iterated out
      | Some entry =>
          if String.eqb dname (name entry) then
            devfs_getdents_loop dname doff count rest len written iterated out
          else
            match dirname (name entry) with
            | None =>
                devfs_getdents_loop dname doff count rest len written iterated out
            | Some parent_path =>
                if str_differs dname parent_path then
                  devfs_getdents_loop dname doff count rest len written iterated out
                else
                  let iterated := iterated + sizeof_dirent in
                  if iterated <=? doff then
                    devfs_getdents_loop dname doff count rest len written iterated out
                  else
                    let len := if char_is_slash (name entry) len then S len else len in
                    let out := out ++ [ {| d_ino := inode entry;
                                           d_off := sizeof_dirent;
                                           d_reclen := sizeof_dirent;
                                           d_type := flags entry;
                                           d_name := string_drop len (name entry) |} ] in
                    let written := written + sizeof_dirent in
                    if count <=? written then (written, out)
                    else devfs_getdents_loop dname doff count rest len written iterated out
            end
      end
  end.

(** Reads contents of the directories to a dirent buffer.  [dirp] tells
    whether the buffer pointer is non-null; the second component is what
    the buffer receives. *)
Definition devfs_getdents (d : devfs_t) (file : option vfs_file_t) (dirp : bool)
    (doff count : Z) : Z * list dirent_t :=
  match file with
  | None => (-1, [])
  | Some vf =>
      if negb dirp then (-1, [])
      else if count <? sizeof_dirent then (-1, [])
      else if bool_decide (fs_files d = []) then (0, [])
      else
        match devfs_find_entry_inode d (vf_ino vf) with
        | None => (- ENOENT, [])
        | Some (_, direntry) =>
            if Z.land (flags direntry) DT_DIR =? 0 then (- ENOTDIR, [])
            else
              devfs_getdents_loop (name direntry) doff count (fs_files d)
                (String.length (name direntry)) 0 0 []
        end
  end.

(** Removes an entry from [/dev] (driver-facing). *)
Definition devfs_destroy_entry (nm : string) (d : devfs_t) : Z * devfs_t :=
  match devfs_find_entry_path d nm with
  | None => (- ENOENT, d)
  | Some (i, devfs_file) =>
      if negb (bool_decide (files devfs_file = [])) then (- EBUSY, d)
      else (0, devfs_destroy_file i d)
  end.


(** The loop of [devfs_check_if_empty]. *)
Fixpoint devfs_check_if_empty_loop (path : string) (l : list devfs_file_t) : Z :=
  match l with
  | [] => 0
  | it :: rest =>
      match devfs_get_file it with
      | None => devfs_check_if_empty_loop path rest
      | Some devfs_file =>
          if String.eqb path (name devfs_file) then devfs_check_if_empty_loop path rest
          else
            match dirname (name devfs_file) with
            | None => devfs_check_if_empty_loop path rest
            | Some filedir =>
                if String.eqb path filedir then 1
                else devfs_check_if_empty_loop path rest
            end
      end
  end.

(** Checks if the DEVFS directory at the given path is empty: 0 if empty,
    1 if not. *)
Definition devfs_check_if_empty (d : devfs_t) (path : string) : Z :=
  devfs_check_if_empty_loop path (fs_files d).

(** Retrieves information concerning the file at the given path; both
    pointers may be NULL. *)
Definition devfs_stat (d : devfs_t) (path : option string) (stat : option stat_t)
    : Z * option stat_t :=
  match path, stat with
  | Some p, Some s =>
      match devfs_find_entry_path d p with
      | Some (_, devfs_file) =>
          match sys_operations (dir_entry devfs_file) with
          | Some ops =>
              match sys_stat_f ops with
              | Some fn => let r := fn p s in (fst r, Some (snd r))
              | None => __devfs_stat (Some devfs_file) stat
              end
          | None => __devfs_stat (Some devfs_file) stat
          end
      | None => (-1, stat)
      end
  | _, _ => (-1, stat)
  end.


(** Finds the direntry inside [/dev]: the position of the node that holds
    it, or NULL. *)
Definition devfs_dir_entry_get (nm : string) (d : devfs_t) : option nat :=
  match devfs_find_entry_path d nm with
  | None => None
  | Some (i, _) => Some i
  end.

(** Creates a new entry inside [/dev]; the pointer returned is that of the
    [dir_entry] of the node at the position given. *)
Definition devfs_create_entry (nm : string) (now : Z) (st : devfs_state)
    : result (option nat * devfs_state) :=
  if bool_decide (is_Some (devfs_find_entry_path (fs st) nm)) then
    Ok (None, set_errno EEXIST st)
  else
    r ← devfs_create_file nm DT_REG now (fs st);
    match r with
    | None => Ok (None, set_errno ENFILE st)
    | Some (i, _, d) => Ok (Some i, set_fs d st)
    end.

(** Sets the mask of the node that holds [entry] ([container_of]); the
    entry is given by the position of that node. *)
Definition devfs_entry_set_mask (entry : nat) (m : Z) (d : devfs_t) : result (Z * devfs_t) :=
  devfs_file ← deref (fs_files d !! entry);
  Ok (0, {| nfiles := nfiles d;
            fs_files := <[entry := set_mask m devfs_file]> (fs_files d) |}).

(** ** Properties of the devfs operations *)


(** The two readings of [bitmask_check] that the missing header allows
    agree on these two facts, which are all the proofs use. *)
Definition bitmask_check_sound : Prop :=
  (forall v m, m <> 0 -> Z.land v m = m -> bitmask_check v m = true)
  /\ (forall v m, m <> 0 -> Z.land v m = 0 -> bitmask_check v m = false).

(** The parent directory of [path] passes the validation at the head of
    [devfs_open]. *)
Definition parent_accepted (d : devfs_t) (path : string) : Prop :=
  exists parent, dirname path = Some parent
    /\ (parent = "." \/ parent = "/"
        \/ exists j pf, devfs_find_entry_path d parent = Some (j, pf)
                        /\ Z.land (flags pf) DT_DIR = DT_DIR).

Lemma str_differs_false a b : str_differs a b = false <-> a = b.
Proof.
  unfold str_differs. rewrite negb_false_iff. apply String.eqb_eq.
Qed.

Lemma devfs_getdents_loop_lower dname doff count l :
  0 <= sizeof_dirent ->
  forall len written iterated out,
    written <= fst (devfs_getdents_loop dname doff count l len written iterated out).
Proof.
  intros Hsz. induction l as [| it rest IH]; intros len written iterated out.
  - simpl. lia.
  - simpl. destruct (devfs_get_file it) as [entry |]; [| apply IH].
    destruct (String.eqb dname (name entry)); [apply IH |].
    destruct (dirname (name entry)) as [parent |]; [| apply IH].
    destruct (str_differs dname parent); [apply IH |].
    destruct (iterated + sizeof_dirent <=? doff); [apply IH |].
    destruct (count <=? written + sizeof_dirent).
    + simpl. lia.
    + etransitivity; [| apply IH]. lia.
Qed.

Lemma devfs_find_from_lookup p l : forall k i f,
  devfs_find_from p k l = Some (i, f) ->
  (k <= i)%nat /\ l !! (i - k)%nat = Some f.
Proof.
  induction l as [| entry rest IH]; intros k i f Hfind; simpl in Hfind.
  - discriminate.
  - unfold devfs_get_file in Hfind.
    destruct (devfs_check_file entry).
    + destruct (p entry).
      * inversion Hfind; subst. split; [lia |].
        replace (i - i)%nat with 0%nat by lia. reflexivity.
      * apply IH in Hfind as [Hle Hlk]. split; [lia |].
        replace (i - k)%nat with (S (i - S k)) by lia. exact Hlk.
    + apply IH in Hfind as [Hle Hlk]. split; [lia |].
      replace (i - k)%nat with (S (i - S k)) by lia. exact Hlk.
Qed.

Lemma devfs_find_entry_path_lookup d path i f :
  devfs_find_entry_path d path = Some (i, f) -> fs_files d !! i = Some f.
Proof.
  intros Hfind. apply devfs_find_from_lookup in Hfind as [_ Hlk].
  replace (i - 0)%nat with i in Hlk by lia. exact Hlk.
Qed.

(** The validation of the parent directory lets an accepted path through. *)
Lemma devfs_open_parent_accepted path fl mode now st :
  bitmask_check_sound -> parent_accepted (fs st) path ->
  devfs_open path fl mode now st =
    match devfs_find_entry_path (fs st) path with
    | Some (i, devfs_file) =>
        if bitmask_check fl (Z.lor O_CREAT O_EXCL) then Ok (None, set_errno EEXIST st)
        else if bitmask_check fl O_DIRECTORY then
          if negb (bitmask_check (flags devfs_file) DT_DIR) then
            Ok (None, set_errno ENOTDIR st)
          else if bitmask_check fl O_RDWR || bitmask_check fl O_WRONLY then
            Ok (None, set_errno EISDIR st)
          else Ok (devfs_open_node i devfs_file true now st)
        else Ok (devfs_open_node i devfs_file true now st)
    | None =>
        if bitmask_check fl O_CREAT then
          r ← devfs_create_file path DT_REG now (fs st);
          match r with
          | None => Ok (None, set_errno ENFILE st)
          | Some (i, devfs_file, d) =>
              Ok (devfs_open_node i devfs_file false now (set_fs d st))
          end
        else Ok (None, set_errno ENOENT st)
    end.
Proof.
  intros [Hall _] (parent & Hdir & Hparent).
  unfold devfs_open. rewrite Hdir.
  destruct Hparent as [-> | [-> | (j & pf & Hfind & Hisdir)]]; try reflexivity.
  destruct (str_differs parent "." && str_differs parent "/"); [| reflexivity].
  rewrite Hfind. rewrite (Hall (flags pf) DT_DIR) by (done || exact Hisdir).
  reflexivity.
Qed.

(** C7 (amended).  For a path that names an existing node and whose parent
    directory [devfs_open] accepts: with [O_CREAT] and [O_EXCL] both set
    the call fails with [EEXIST].  With neither of them set: with
    [O_DIRECTORY] on a node that is not a directory it fails with
    [ENOTDIR]; with [O_DIRECTORY] and write access on a directory it fails
    with [EISDIR]; and when [O_DIRECTORY] is set on a directory without
    write access, or [O_DIRECTORY] is not set and the node is not a
    directory or no write access is asked, it fails with [ENFILE] if no
    [vfs_file_t] can be allocated and otherwise returns a fresh
    [vfs_file_t], linked last on the node's list of open files, and sets
    the node's [atime]. *)
Theorem devfs_open_existing path fl mode now st i f :
  bitmask_check_sound ->
  (forall h p, vfs_file_alloc h = Some p -> h !! p = None) ->
  parent_accepted (fs st) path ->
  devfs_find_entry_path (fs st) path = Some (i, f) ->
  (Z.land fl (Z.lor O_CREAT O_EXCL) = Z.lor O_CREAT O_EXCL ->
     devfs_open path fl mode now st = Ok (None, set_errno EEXIST st))
  /\ (Z.land fl (Z.lor O_CREAT O_EXCL) = 0 ->
      Z.land fl O_DIRECTORY = O_DIRECTORY ->
      Z.land (flags f) DT_DIR = 0 ->
      devfs_open path fl mode now st = Ok (None, set_errno ENOTDIR st))
  /\ (Z.land fl (Z.lor O_CREAT O_EXCL) = 0 ->
      Z.land fl O_DIRECTORY = O_DIRECTORY ->
      Z.land (flags f) DT_DIR = DT_DIR ->
      Z.land fl O_RDWR = O_RDWR \/ Z.land fl O_WRONLY = O_WRONLY ->
      devfs_open path fl mode now st = Ok (None, set_errno EISDIR st))
  /\ (Z.land fl (Z.lor O_CREAT O_EXCL) = 0 ->
      (Z.land fl O_DIRECTORY = O_DIRECTORY /\ Z.land (flags f) DT_DIR = DT_DIR
       /\ Z.land fl O_RDWR = 0 /\ Z.land fl O_WRONLY = 0)
      \/ (Z.land fl O_DIRECTORY = 0
          /\ (Z.land (flags f) DT_DIR = 0
              \/ (Z.land fl O_RDWR = 0 /\ Z.land fl O_WRONLY = 0))) ->
      match vfs_file_alloc (vfs_heap st) with
      | None => devfs_open path fl mode now st = Ok (None, set_errno ENFILE st)
      | Some p =>
          vfs_heap st !! p = None
          /\ fs_files (fs st) !! i = Some f
          /\ devfs_open path fl mode now st =
               Ok (Some p,
                   {| fs := {| nfiles := nfiles (fs st);
                               fs_files :=
                                 <[i := set_files (files f ++ [p]) (set_atime now f)]>
                                   (fs_files (fs st)) |};
                      vfs_heap := <[p := vfs_file_of f]> (vfs_heap st);
                      errno := errno st |})
      end).
Proof.
  intros Hsound Hfresh Hparent Hfind.
  pose proof Hsound as [Hall Hnone].
  rewrite (devfs_open_parent_accepted path fl mode now st Hsound Hparent), Hfind.
  repeat split.
  - intros Hboth. rewrite (Hall fl (Z.lor O_CREAT O_EXCL)) by (done || exact Hboth).
    reflexivity.
  - intros Hno Hdir Hnodir.
    rewrite (Hnone fl (Z.lor O_CREAT O_EXCL)) by (done || exact Hno).
    rewrite (Hall fl O_DIRECTORY) by (done || exact Hdir).
    rewrite (Hnone (flags f) DT_DIR) by (done || exact Hnodir). reflexivity.
  - intros Hno Hdir Hisdir Hwrite.
    rewrite (Hnone fl (Z.lor O_CREAT O_EXCL)) by (done || exact Hno).
    rewrite (Hall fl O_DIRECTORY) by (done || exact Hdir).
    rewrite (Hall (flags f) DT_DIR) by (done || exact Hisdir). simpl.
    destruct Hwrite as [Hw | Hw].
    + rewrite (Hall fl O_RDWR) by (done || exact Hw). reflexivity.
    + rewrite (Hall fl O_WRONLY) by (done || exact Hw).
      rewrite orb_true_r. reflexivity.
  - intros Hno Hcase.
    rewrite (Hnone fl (Z.lor O_CREAT O_EXCL)) by (done || exact Hno).
    assert (Hnode :
      match vfs_file_alloc (vfs_heap st) with
      | None => Ok (devfs_open_node i f true now st) = Ok (None, set_errno ENFILE st)
      | Some p =>
          vfs_heap st !! p = None
          /\ fs_files (fs st) !! i = Some f
          /\ Ok (devfs_open_node i f true now st) =
               Ok (Some p,
                   {| fs := {| nfiles := nfiles (fs st);
                               fs_files :=
                                 <[i := set_files (files f ++ [p]) (set_atime now f)]>
                                   (fs_files (fs st)) |};
                      vfs_heap := <[p := vfs_file_of f]> (vfs_heap st);
                      errno := errno st |})
      end).
    { unfold devfs_open_node, devfs_create_file_struct.
      destruct (vfs_file_alloc (vfs_heap st)) as [p |] eqn:Halloc; [| reflexivity].
      split; [exact (Hfresh _ _ Halloc) |].
      split; [exact (devfs_find_entry_path_lookup _ _ _ _ Hfind) | reflexivity]. }
    destruct Hcase as [(Hdir & Hisdir & Hrw & Hwo) | (Hnodirflag & _)].
    + rewrite (Hall fl O_DIRECTORY) by (done || exact Hdir).
      rewrite (Hall (flags f) DT_DIR) by (done || exact Hisdir).
      rewrite (Hnone fl O_RDWR) by (done || exact Hrw).
      rewrite (Hnone fl O_WRONLY) by (done || exact Hwo). simpl. exact Hnode.
    + rewrite (Hnone fl O_DIRECTORY) by (done || exact Hnodirflag). exact Hnode.
Qed.

(** C3 (defect in the code).  Past the two reserved names,
    [devfs_unlink] answers [-EEXIST] for every path that names a node,
    whatever its type and open handles, and leaves the node in place; for a
    path that names no node it reads through the null pointer. *)
Theorem devfs_unlink_inverted_test path d :
  path <> "."%string -> path <> ".."%string ->
  (forall i f, devfs_find_entry_path d path = Some (i, f) ->
     devfs_unlink path d = Ok (- EEXIST, d))
  /\ (devfs_find_entry_path d path = None -> devfs_unlink path d = Fault).
Proof.
  intros Hdot Hdotdot.
  assert (Hres : (String.eqb path "." || String.eqb path "..") = false).
  { apply orb_false_intro; apply String.eqb_neq; assumption. }
  split.
  - intros i f Hfind. unfold devfs_unlink. rewrite Hres, Hfind.
    rewrite bool_decide_eq_true_2 by eauto. reflexivity.
  - intros Hfind. unfold devfs_unlink. rewrite Hres, Hfind.
    rewrite bool_decide_eq_false_2 by (intros [x Hx]; discriminate).
    reflexivity.
Qed.

(** The first test of [devfs_unlink] is as the claim has it. *)
Lemma devfs_unlink_reserved path d :
  path = "."%string \/ path = ".."%string -> devfs_unlink path d = Ok (- EPERM, d).
Proof.
  intros [-> | ->]; reflexivity.
Qed.

(** C10.  With an empty global list, [devfs_getdents] returns 0 for every
    non-null handle and buffer of at least one record, whether or not the
    handle's inode resolves and whatever the node's type; and no call on
    an empty list returns [-ENOENT] or [-ENOTDIR]. *)
Theorem devfs_getdents_empty_list d :
  fs_files d = [] ->
  (forall vf doff count, sizeof_dirent <= count ->
     devfs_getdents d (Some vf) true doff count = (0, []))
  /\ (forall file dirp doff count,
        fst (devfs_getdents d file dirp doff count) <> - ENOENT
        /\ fst (devfs_getdents d file dirp doff count) <> - ENOTDIR).
Proof.
  intros Hempty. split.
  - intros vf doff count Hcount. unfold devfs_getdents. simpl.
    destruct (Z.ltb_spec count sizeof_dirent) as [Hlt | _]; [lia |].
    rewrite bool_decide_eq_true_2 by exact Hempty. reflexivity.
  - intros file dirp doff count. unfold devfs_getdents.
    destruct file as [vf |]; [| split; discriminate].
    destruct dirp; simpl; [| split; discriminate].
    destruct (count <? sizeof_dirent); [split; discriminate |].
    rewrite bool_decide_eq_true_2 by exact Hempty.
    split; discriminate.
Qed.



(** ** The list of nodes: searching, appending, replacing, removing *)

Lemma devfs_find_from_shift p l : forall k,
  devfs_find_from p (S k) l = prod_map S id <$> devfs_find_from p k l.
Proof.
  induction l as [| entry rest IH]; intros k; simpl; [reflexivity |].
  destruct (devfs_get_file entry) as [f |]; [| apply IH].
  destruct (p f); [reflexivity | apply IH].
Qed.

Lemma devfs_find_from_app p l1 l2 : forall k,
  devfs_find_from p k (l1 ++ l2) =
    match devfs_find_from p k l1 with
    | Some r => Some r
    | None => devfs_find_from p (k + length l1) l2
    end.
Proof.
  induction l1 as [| entry rest IH]; intros k; simpl.
  - rewrite Nat.add_0_r. reflexivity.
  - rewrite Nat.add_succ_r, <- Nat.add_succ_l.
    destruct (devfs_get_file entry) as [f |]; [| apply IH].
    destruct (p f); [reflexivity | apply IH].
Qed.

Lemma devfs_find_from_None p l : forall k,
  devfs_find_from p k l = None <->
  Forall (fun f => devfs_check_file f = true -> p f = false) l.
Proof.
  induction l as [| entry rest IH]; intros k; simpl.
  - split; [constructor | reflexivity].
  - unfold devfs_get_file. rewrite Forall_cons.
    destruct (devfs_check_file entry) eqn:Hchk.
    + destruct (p entry) eqn:Hp.
      * split; [discriminate | intros [H _]; specialize (H eq_refl); discriminate].
      * rewrite IH. split; [intros H; split; [reflexivity | exact H] | intros [_ H]; exact H].
    + rewrite IH. split; [intros H; split; [discriminate | exact H] | intros [_ H]; exact H].
Qed.

Lemma devfs_find_from_Some p l : forall k i f,
  devfs_find_from p k l = Some (i, f) ->
  devfs_check_file f = true /\ p f = true
  /\ forall j g, (j < i - k)%nat -> l !! j = Some g ->
       devfs_check_file g = true -> p g = false.
Proof.
  induction l as [| entry rest IH]; intros k i f Hfind; simpl in Hfind; [discriminate |].
  unfold devfs_get_file in Hfind.
  destruct (devfs_check_file entry) eqn:Hchk.
  - destruct (p entry) eqn:Hp.
    + inversion Hfind; subst. split; [exact Hchk |]. split; [exact Hp |].
      intros j g Hj. lia.
    + pose proof (devfs_find_from_lookup _ _ _ _ _ Hfind) as [Hle _].
      destruct (IH _ _ _ Hfind) as (Hc & Hpf & Hbefore).
      split; [exact Hc |]. split; [exact Hpf |].
      intros [| j] g Hj Hg Hcg.
      * inversion Hg; subst. exact Hp.
      * apply (Hbefore j g); [lia | exact Hg | exact Hcg].
  - pose proof (devfs_find_from_lookup _ _ _ _ _ Hfind) as [Hle _].
    destruct (IH _ _ _ Hfind) as (Hc & Hpf & Hbefore).
    split; [exact Hc |]. split; [exact Hpf |].
    intros [| j] g Hj Hg Hcg.
    + inversion Hg; subst. congruence.
    + apply (Hbefore j g); [lia | exact Hg | exact Hcg].
Qed.

(** Replacing a node by one of the same magic number that the search
    treats alike moves no result of the search. *)
Lemma devfs_find_from_insert p l : forall i f f' k,
  l !! i = Some f -> magic f' = magic f -> p f' = p f ->
  devfs_find_from p k (<[i := f']> l) =
    match devfs_find_from p k l with
    | Some (j, g) => Some (j, if decide (j = (k + i)%nat) then f' else g)
    | None => None
    end.
Proof.
  induction l as [| entry rest IH]; intros i f f' k Hi Hmagic Hp; [discriminate |].
  destruct i as [| i]; simpl in *.
  - inversion Hi; subst. unfold devfs_get_file, devfs_check_file. rewrite Hmagic.
    destruct (magic f =? DEVFS_MAGIC_NUMBER).
    + rewrite Hp. destruct (p f).
      * rewrite decide_True by lia. reflexivity.
      * destruct (devfs_find_from p (S k) rest) as [[j g] |] eqn:Hrest; [| reflexivity].
        apply devfs_find_from_lookup in Hrest as [Hle _].
        rewrite decide_False by lia. reflexivity.
    + destruct (devfs_find_from p (S k) rest) as [[j g] |] eqn:Hrest; [| reflexivity].
      apply devfs_find_from_lookup in Hrest as [Hle _].
      rewrite decide_False by lia. reflexivity.
  - rewrite (IH i f f' (S k) Hi Hmagic Hp).
    replace (S k + i)%nat with (k + S i)%nat by lia.
    destruct (devfs_get_file entry) as [e |] eqn:He; [| reflexivity].
    destruct (p e); [| reflexivity].
    rewrite decide_False by lia. reflexivity.
Qed.

(** Removing a node that the search passes over changes no result of the
    search, positions apart. *)
Lemma devfs_find_from_delete p l : forall i f k,
  l !! i = Some f -> (devfs_check_file f = true -> p f = false) ->
  snd <$> devfs_find_from p k (delete i l) = snd <$> devfs_find_from p k l.
Proof.
  induction l as [| entry rest IH]; intros i f k Hi Hskip; [discriminate |].
  destruct i as [| i]; simpl in *.
  - inversion Hi; subst. unfold devfs_get_file.
    destruct (devfs_check_file f) eqn:Hchk.
    + rewrite (Hskip eq_refl). rewrite devfs_find_from_shift.
      destruct (devfs_find_from p k rest) as [[j g] |]; reflexivity.
    + rewrite devfs_find_from_shift.
      destruct (devfs_find_from p k rest) as [[j g] |]; reflexivity.
  - destruct (devfs_get_file entry) as [e |]; [| apply (IH i f); assumption].
    destruct (p e); [reflexivity | apply (IH i f); assumption].
Qed.

(** The first element of a run of integers that satisfies a test. *)
Lemma find_seqZ_least (P : Z -> bool) n : forall m,
  match List.find P (seqZ m (Z.of_nat n)) with
  | Some x => m <= x < m + Z.of_nat n /\ P x = true
              /\ forall j, m <= j < x -> P j = false
  | None => forall j, m <= j < m + Z.of_nat n -> P j = false
  end.
Proof.
  induction n as [| n IH]; intros m.
  - simpl. intros j Hj. lia.
  - rewrite seqZ_cons by lia.
    replace (Z.pred (Z.of_nat (S n))) with (Z.of_nat n) by lia.
    simpl List.find. destruct (P m) eqn:Hm.
    + split; [lia |]. split; [exact Hm |]. intros j Hj. lia.
    + specialize (IH (Z.succ m)).
      destruct (List.find P (seqZ (Z.succ m) (Z.of_nat n))) as [x |].
      * destruct IH as (Hx & Hpx & Hbefore). split; [lia |]. split; [exact Hpx |].
        intros j Hj. destruct (Z.eq_dec j m) as [-> | Hne]; [exact Hm |].
        apply Hbefore. lia.
      * intros j Hj. destruct (Z.eq_dec j m) as [-> | Hne]; [exact Hm |].
        apply IH. lia.
Qed.

(** X1.  [devfs_get_free_inode] returns the least inode from 1 to
    [DEVFS_MAX_FILES - 1] that no valid node carries; it returns -1 exactly
    when every one of them is taken. *)
Theorem devfs_get_free_inode_least d :
  (devfs_get_free_inode d = -1
   /\ forall j, 1 <= j < DEVFS_MAX_FILES -> is_Some (devfs_find_entry_inode d j))
  \/ (1 <= devfs_get_free_inode d < DEVFS_MAX_FILES
      /\ devfs_find_entry_inode d (devfs_get_free_inode d) = None
      /\ forall j, 1 <= j < devfs_get_free_inode d ->
           is_Some (devfs_find_entry_inode d j)).
Proof.
  unfold devfs_get_free_inode.
  pose proof (find_seqZ_least
                (fun i => negb (bool_decide (is_Some (devfs_find_entry_inode d i))))
                (Z.to_nat (DEVFS_MAX_FILES - 1)) 1) as Hleast.
  rewrite Z2Nat.id in Hleast by (unfold DEVFS_MAX_FILES; lia).
  assert (Htaken : forall j,
            negb (bool_decide (is_Some (devfs_find_entry_inode d j))) = false ->
            is_Some (devfs_find_entry_inode d j)).
  { intros j Hj. apply negb_false_iff, bool_decide_eq_true in Hj. exact Hj. }
  destruct (List.find _ (seqZ 1 (DEVFS_MAX_FILES - 1))) as [x |].
  - right. destruct Hleast as (Hx & Hfree & Hbefore).
    split; [unfold DEVFS_MAX_FILES in *; lia |]. split.
    + apply negb_true_iff, bool_decide_eq_false in Hfree.
      destruct (devfs_find_entry_inode d x); [exfalso; apply Hfree; eauto | reflexivity].
    + intros j Hj. apply Htaken, Hbefore. exact Hj.
  - left. split; [reflexivity |].
    intros j Hj. apply Htaken, Hleast. unfold DEVFS_MAX_FILES in *. lia.
Qed.

(** The inode chosen is free, unless it is -1. *)
Lemma devfs_get_free_inode_free d :
  devfs_get_free_inode d <> -1 ->
  devfs_find_entry_inode d (devfs_get_free_inode d) = None.
Proof.
  unfold devfs_get_free_inode.
  pose proof (find_seqZ_least
                (fun i => negb (bool_decide (is_Some (devfs_find_entry_inode d i))))
                (Z.to_nat (DEVFS_MAX_FILES - 1)) 1) as Hleast.
  rewrite Z2Nat.id in Hleast by (unfold DEVFS_MAX_FILES; lia).
  destruct (List.find _ (seqZ 1 (DEVFS_MAX_FILES - 1))) as [x |]; [| congruence].
  intros _. destruct Hleast as (_ & Hfree & _).
  apply negb_true_iff, bool_decide_eq_false in Hfree.
  destruct (devfs_find_entry_inode d x); [exfalso; apply Hfree; eauto | reflexivity].
Qed.

(** ** Creating and removing entries *)

(** The node [devfs_create_file] appends answers the search for its own
    name when the list had no such node, and no other search. *)
Lemma devfs_find_entry_path_new d path f nm :
  devfs_check_file f = true -> name f = nm ->
  devfs_find_entry_path (mk_devfs (u32 (nfiles d + 1)) (fs_files d ++ [f])) path =
    match devfs_find_entry_path d path with
    | Some r => Some r
    | None => if String.eqb nm path then Some (length (fs_files d), f) else None
    end.
Proof.
  intros Hchk Hname. unfold devfs_find_entry_path. simpl.
  rewrite devfs_find_from_app.
  destruct (devfs_find_from _ 0 (fs_files d)); [reflexivity |].
  simpl. unfold devfs_get_file. rewrite Hchk, Hname. reflexivity.
Qed.


(** No two valid nodes carry the same name. *)
Definition names_distinct (d : devfs_t) : Prop :=
  forall i j f g, fs_files d !! i = Some f -> fs_files d !! j = Some g ->
    devfs_check_file f = true -> devfs_check_file g = true ->
    name f = name g -> i = j.

(** X3.  [devfs_destroy_entry] on a name that resolves: with an open
    handle on the node it answers [-EBUSY] and removes nothing; without
    one it returns 0, unlinks the node and decrements the count, after
    which, names being distinct, the name resolves no more, every other
    path resolves to the node it did, and names are still distinct. *)
Theorem devfs_destroy_entry_removes nm d i f :
  names_distinct d ->
  devfs_find_entry_path d nm = Some (i, f) ->
  (files f <> [] -> devfs_destroy_entry nm d = (- EBUSY, d))
  /\ (files f = [] ->
      exists d', devfs_destroy_entry nm d = (0, d')
        /\ devfs_find_entry_path d' nm = None
        /\ (forall path, path <> nm ->
               snd <$> devfs_find_entry_path d' path = snd <$> devfs_find_entry_path d path)
        /\ nfiles d' = u32 (nfiles d - 1)
        /\ names_distinct d').
Proof.
  intros Hdistinct Hfind.
  pose proof (devfs_find_entry_path_lookup _ _ _ _ Hfind) as Hi.
  pose proof Hfind as Hnode. unfold devfs_find_entry_path in Hnode.
  apply devfs_find_from_Some in Hnode as (Hchk & Hname & _).
  apply String.eqb_eq in Hname.
  assert (Hback : forall j g, delete i (fs_files d) !! j = Some g ->
            fs_files d !! (if decide (j < i)%nat then j else S j) = Some g).
  { intros j g Hj. rewrite list_lookup_delete in Hj. exact Hj. }
  unfold devfs_destroy_entry. rewrite Hfind. split.
  - intros Hbusy. rewrite bool_decide_eq_false_2 by exact Hbusy. reflexivity.
  - intros Hfree. rewrite bool_decide_eq_true_2 by exact Hfree. simpl.
    eexists. split; [reflexivity |]. split; [| split; [| split; [reflexivity |]]].
    + unfold devfs_find_entry_path. simpl. apply devfs_find_from_None.
      apply Forall_lookup. intros j g Hj Hcg.
      apply Hback in Hj. apply String.eqb_neq. intros Heq.
      assert (Hsame : (if decide (j < i)%nat then j else S j) = i).
      { apply (Hdistinct _ _ g f); try assumption. congruence. }
      destruct (decide (j < i)%nat); lia.
    + intros path Hne. unfold devfs_find_entry_path. simpl.
      apply (devfs_find_from_delete _ _ i f); [exact Hi |].
      intros _. apply String.eqb_neq. congruence.
    + intros j j' g g' Hj Hj' Hcg Hcg' Heq. simpl in Hj, Hj'.
      apply Hback in Hj, Hj'.
      pose proof (Hdistinct _ _ g g' Hj Hj' Hcg Hcg' Heq) as Hsame.
      destruct (decide (j < i)%nat), (decide (j' < i)%nat); lia.
Qed.

(** ** Opening and closing *)

Lemma devfs_open_node_Some i f upd now st p st' :
  devfs_open_node i f upd now st = (Some p, st') ->
  vfs_file_alloc (vfs_heap st) = Some p
  /\ st' = {| fs := {| nfiles := nfiles (fs st);
                       fs_files :=
                         <[i := set_files (files f ++ [p])
                                  (if upd then set_atime now f else f)]>
                           (fs_files (fs st)) |};
              vfs_heap := <[p := vfs_file_of f]> (vfs_heap st);
              errno := errno st |}.
Proof.
  unfold devfs_open_node, devfs_create_file_struct. intros H.
  destruct (vfs_file_alloc (vfs_heap st)) as [q |]; [| discriminate].
  inversion H; subst. split; [reflexivity |]. destruct upd; reflexivity.
Qed.

(** A call of [devfs_open] that returns a handle went through one of two
    paths: the node existed, or [O_CREAT] made it. *)
Lemma devfs_open_Some path fl mode now st p st' :
  devfs_open path fl mode now st = Ok (Some p, st') ->
  match devfs_find_entry_path (fs st) path with
  | Some (i, f) => devfs_open_node i f true now st = (Some p, st')
  | None =>
      exists f, devfs_create_file path DT_REG now (fs st)
                = Ok (Some (length (fs_files (fs st)), f,
                            mk_devfs (u32 (nfiles (fs st) + 1)) (fs_files (fs st) ++ [f])))
        /\ devfs_check_file f = true /\ name f = path /\ flags f = DT_REG
        /\ mask f = 0 /\ files f = [] /\ atime f = now
        /\ inode f = devfs_get_free_inode (fs st)
        /\ fs_operations (dir_entry f) = None
        /\ devfs_open_node (length (fs_files (fs st))) f false now
             (set_fs (mk_devfs (u32 (nfiles (fs st) + 1)) (fs_files (fs st) ++ [f])) st)
           = (Some p, st')
  end.
Proof.
  unfold devfs_open. intros H.
  destruct (dirname path) as [parent |]; [| discriminate].
  match type of H with
  | context [match ?c with Some e => Ok (None, set_errno e st) | None => _ end] =>
      destruct c; [discriminate |]
  end.
  destruct (devfs_find_entry_path (fs st) path) as [[i f] |].
  - destruct (bitmask_check fl (Z.lor O_CREAT O_EXCL)); [discriminate |].
    destruct (bitmask_check fl O_DIRECTORY); [| congruence].
    destruct (negb (bitmask_check (flags f) DT_DIR)); [discriminate |].
    destruct (bitmask_check fl O_RDWR || bitmask_check fl O_WRONLY);
      [discriminate | congruence].
  - destruct (bitmask_check fl O_CREAT); [| discriminate].
    unfold devfs_create_file in *.
    destruct (devfs_file_alloc (fs st)); [| discriminate].
    destruct (String.length path <? DEVFS_NAME_MAX)%nat; [| discriminate].
    simpl in H. eexists. split; [reflexivity |]. repeat split. congruence.
Qed.

(** What a successful [devfs_open] leaves at the path: the node, at the
    position it had or at the end of the list, with the new handle last on
    its list of open files. *)
Lemma devfs_open_node_at path fl mode now st p st' :
  devfs_open path fl mode now st = Ok (Some p, st') ->
  exists i f,
    devfs_find_entry_path (fs st') path = Some (i, f)
    /\ last (files f) = Some p
    /\ vfs_file_alloc (vfs_heap st) = Some p
    /\ vfs_heap st' = <[p := vfs_file_of f]> (vfs_heap st)
    /\ errno st' = errno st.
Proof.
  intros Hopen. apply devfs_open_Some in Hopen.
  destruct (devfs_find_entry_path (fs st) path) as [[i f] |] eqn:Hfind.
  - apply devfs_open_node_Some in Hopen as [Halloc ->].
    exists i, (set_files (files f ++ [p]) (set_atime now f)).
    split; [| split; [apply last_snoc | repeat split; exact Halloc]].
    unfold devfs_find_entry_path in *. simpl.
    rewrite (devfs_find_from_insert _ _ i f) by
      (reflexivity || exact (devfs_find_entry_path_lookup _ _ _ _ Hfind)).
    rewrite Hfind. rewrite decide_True by lia. reflexivity.
  - destruct Hopen as (f & _ & Hchk & Hname & _ & _ & Hfiles & _ & _ & _ & Hopen).
    apply devfs_open_node_Some in Hopen as [Halloc ->]. simpl in *.
    exists (length (fs_files (fs st))), (set_files (files f ++ [p]) f).
    split; [| split; [apply last_snoc | repeat split; exact Halloc]].
    pose proof (devfs_find_entry_path_new (fs st) path f path Hchk Hname) as Hnew.
    rewrite Hfind, String.eqb_refl in Hnew.
    unfold devfs_find_entry_path in *. simpl in *.
    rewrite (devfs_find_from_insert _ _ (length (fs_files (fs st))) f).
    + rewrite Hnew. rewrite decide_True by lia. reflexivity.
    + rewrite lookup_app_r by lia. rewrite Nat.sub_diag. reflexivity.
    + reflexivity.
    + reflexivity.
Qed.

(** X4.  A node that [devfs_open] has just returned a handle for is busy:
    for a path that fits the array of the node, fewer than
    [DEVFS_NAME_MAX] characters, [devfs_destroy_entry] on the same path
    answers [-EBUSY] and removes nothing, whether the node existed or
    [O_CREAT] made it. *)
Theorem devfs_open_then_busy path fl mode now st p st' :
  (String.length path < DEVFS_NAME_MAX)%nat ->
  devfs_open path fl mode now st = Ok (Some p, st') ->
  devfs_destroy_entry path (fs st') = (- EBUSY, fs st').
Proof.
  intros _ Hopen.
  apply devfs_open_node_at in Hopen as (i & f & Hfind & Hlast & _).
  unfold devfs_destroy_entry. rewrite Hfind.
  rewrite bool_decide_eq_false_2; [reflexivity |].
  intros Hnil. rewrite Hnil in Hlast. discriminate.
Qed.

(** Every handle linked on a node is an allocated [vfs_file_t]. *)
Definition handles_allocated (st : devfs_state) : Prop :=
  forall f q, f ∈ fs_files (fs st) -> q ∈ files f -> is_Some (vfs_heap st !! q).

Lemma filter_absent (p : Z) l :
  p ∉ l -> List.filter (fun q => negb (q =? p)) l = l.
Proof.
  induction l as [| a l IH]; intros Hp; simpl; [reflexivity |].
  apply not_elem_of_cons in Hp as [Hne Hp].
  destruct (Z.eqb_spec a p) as [-> | _]; [congruence |]. simpl.
  rewrite IH by exact Hp. reflexivity.
Qed.

Lemma filter_last (p : Z) l :
  p ∉ l -> List.filter (fun q => negb (q =? p)) (l ++ [p]) = l.
Proof.
  intros Hp. rewrite List.filter_app, filter_absent by exact Hp. simpl.
  rewrite Z.eqb_refl. simpl. apply app_nil_r.
Qed.

Lemma set_files_same f : set_files (files f) f = f.
Proof. destruct f; reflexivity. Qed.

(** Unlinking a handle that no node of the list holds changes no node. *)
Lemma devfs_close_absent (p : Z) l :
  (forall f, f ∈ l -> p ∉ files f) ->
  map (fun f => set_files (List.filter (fun q => negb (q =? p)) (files f)) f) l = l.
Proof.
  induction l as [| a l IH]; intros Hp; simpl; [reflexivity |].
  rewrite filter_absent by (apply Hp; left).
  rewrite set_files_same, IH; [reflexivity |].
  intros f Hf. apply Hp. right. exact Hf.
Qed.

(** X5.  [devfs_close] undoes [devfs_open]: after the pair, the objects of
    the slab are those there were, every node has the open handles it
    had, and [errno] is unchanged.  What remains of the call is the access
    time of the node when it existed, and the new node when [O_CREAT]
    made it (of a path that fits the array of the node: with a longer
    one [devfs_create_file] does not get as far as returning). *)
Theorem devfs_open_close_round_trip path fl mode now st p st' :
  (forall h q, vfs_file_alloc h = Some q -> h !! q = None) ->
  handles_allocated st ->
  devfs_open path fl mode now st = Ok (Some p, st') ->
  fst (devfs_close p st') = 0
  /\ vfs_heap (snd (devfs_close p st')) = vfs_heap st
  /\ errno (snd (devfs_close p st')) = errno st
  /\ match devfs_find_entry_path (fs st) path with
     | Some (i, f) =>
         fs (snd (devfs_close p st')) =
           mk_devfs (nfiles (fs st)) (<[i := set_atime now f]> (fs_files (fs st)))
     | None =>
         exists i f, devfs_create_file path DT_REG now (fs st)
                     = Ok (Some (i, f, fs (snd (devfs_close p st'))))
     end.
Proof.
  intros Hfresh Hheld Hopen. apply devfs_open_Some in Hopen.
  assert (Hnothere : forall q, vfs_file_alloc (vfs_heap st) = Some q ->
            forall f, f ∈ fs_files (fs st) -> q ∉ files f).
  { intros q Hq f Hf Hin. destruct (Hheld f q Hf Hin) as [vf Hvf].
    rewrite (Hfresh _ _ Hq) in Hvf. discriminate. }
  destruct (devfs_find_entry_path (fs st) path) as [[i f] |] eqn:Hfind.
  - apply devfs_open_node_Some in Hopen as [Halloc ->].
    pose proof (devfs_find_entry_path_lookup _ _ _ _ Hfind) as Hi.
    assert (Hf : f ∈ fs_files (fs st)) by (apply list_elem_of_lookup; eauto).
    unfold devfs_close. simpl.
    split; [reflexivity |].
    split; [rewrite delete_insert_eq; apply delete_id, Hfresh, Halloc |].
    split; [reflexivity |]. f_equal.
    rewrite list_fmap_insert. simpl.
    rewrite filter_last by (apply (Hnothere p Halloc f Hf)).
    rewrite devfs_close_absent by (apply Hnothere; exact Halloc).
    reflexivity.
  - destruct Hopen as (f & Hcreate & _ & _ & _ & _ & Hfiles & _ & _ & _ & Hopen).
    apply devfs_open_node_Some in Hopen as [Halloc ->]. simpl in Halloc.
    unfold devfs_close. simpl.
    split; [reflexivity |].
    split; [rewrite delete_insert_eq; apply delete_id, Hfresh, Halloc |].
    split; [reflexivity |].
    exists (length (fs_files (fs st))), f. rewrite Hcreate. do 3 f_equal.
    assert (Hid : set_files [] f = f) by (rewrite <- Hfiles; apply set_files_same).
    symmetry. rewrite list_fmap_insert, map_app. simpl.
    rewrite devfs_close_absent by (apply Hnothere; exact Halloc).
    rewrite Hfiles. simpl. rewrite Z.eqb_refl. simpl.
    change (set_files [] (set_files [p] f)) with (set_files [] f).
    rewrite Hid. f_equal. apply list_insert_id. rewrite lookup_app_r by lia.
    rewrite Nat.sub_diag. reflexivity.
Qed.

(** The node [devfs_create_file] appends answers the search for its inode
    when that inode was free. *)
Lemma devfs_find_entry_inode_new d f :
  devfs_check_file f = true ->
  devfs_find_entry_inode d (inode f) = None ->
  devfs_find_entry_inode (mk_devfs (u32 (nfiles d + 1)) (fs_files d ++ [f])) (inode f)
  = Some (length (fs_files d), f).
Proof.
  intros Hchk Hfree. unfold devfs_find_entry_inode in *. simpl.
  rewrite devfs_find_from_app, Hfree. simpl.
  unfold devfs_get_file. rewrite Hchk, Z.eqb_refl. reflexivity.
Qed.

(** X6.  When [devfs_open] creates the file ([O_CREAT] on a path that
    names no node and fits the array of the node, fewer than
    [DEVFS_NAME_MAX] characters, an inode being free), the handle it
    returns leads back to the new node: looking up the inode stored in the
    handle finds the node appended to the list, a regular file of that
    name with mask 0 whose only open handle is this one.  The node has no
    driver table, so reading through the handle answers [-ENOSYS]. *)
Theorem devfs_open_creat_handle path fl mode now st p st' :
  (String.length path < DEVFS_NAME_MAX)%nat ->
  devfs_find_entry_path (fs st) path = None ->
  devfs_get_free_inode (fs st) <> -1 ->
  devfs_open path fl mode now st = Ok (Some p, st') ->
  exists vf f,
    vfs_heap st' !! p = Some vf
    /\ devfs_find_entry_inode (fs st') (vf_ino vf) = Some (length (fs_files (fs st)), f)
    /\ name f = path /\ flags f = DT_REG /\ mask f = 0 /\ files f = [p]
    /\ atime f = now /\ vf_name vf = path /\ vf_flags vf = DT_REG
    /\ nfiles (fs st') = u32 (nfiles (fs st) + 1)
    /\ (forall off n, devfs_read (fs st') (Some vf) off n = - ENOSYS).
Proof.
  intros _ Hfind Hinode Hopen. apply devfs_open_Some in Hopen. rewrite Hfind in Hopen.
  destruct Hopen as (f & _ & Hchk & Hname & Hflags & Hmask & Hfiles & Hatime
                     & Hino & Hops & Hopen).
  apply devfs_open_node_Some in Hopen as [Halloc ->]. simpl.
  pose proof (devfs_get_free_inode_free _ Hinode) as Hfree. rewrite <- Hino in Hfree.
  pose proof (devfs_find_entry_inode_new (fs st) f Hchk Hfree) as Hnew.
  assert (Hlook : devfs_find_entry_inode
            (mk_devfs (u32 (nfiles (fs st) + 1))
               (<[length (fs_files (fs st)) := set_files (files f ++ [p]) f]>
                  (fs_files (fs st) ++ [f]))) (inode f)
            = Some (length (fs_files (fs st)), set_files (files f ++ [p]) f)).
  { unfold devfs_find_entry_inode in *. simpl in *.
    rewrite (devfs_find_from_insert _ _ (length (fs_files (fs st))) f).
    - rewrite Hnew. rewrite decide_True by lia. reflexivity.
    - rewrite lookup_app_r by lia. rewrite Nat.sub_diag. reflexivity.
    - reflexivity.
    - reflexivity. }
  exists (vfs_file_of f), (set_files (files f ++ [p]) f).
  split; [apply lookup_insert_eq |]. split; [exact Hlook |].
  split; [exact Hname |]. split; [exact Hflags |]. split; [exact Hmask |].
  split; [simpl; rewrite Hfiles; reflexivity |]. split; [exact Hatime |].
  split; [exact Hname |]. split; [exact Hflags |]. split; [reflexivity |].
  intros off n. unfold devfs_read. simpl vf_ino. rewrite Hlook. simpl.
  rewrite Hops. reflexivity.
Qed.

(** ** Reading a directory *)

(** The two loops over the children of a directory agree: the one of
    [devfs_check_if_empty] finds a child exactly when the one of
    [devfs_getdents], started at offset 0, writes a record. *)
Lemma devfs_check_if_empty_loop_getdents dname count l :
  0 < sizeof_dirent ->
  forall len iterated, 0 <= iterated ->
    (devfs_check_if_empty_loop dname l = 0
     /\ devfs_getdents_loop dname 0 count l len 0 iterated [] = (0, []))
    \/ (devfs_check_if_empty_loop dname l = 1
        /\ 0 < fst (devfs_getdents_loop dname 0 count l len 0 iterated [])).
Proof.
  intros Hsz. induction l as [| it rest IH]; intros len iterated Hit; simpl.
  - left. split; reflexivity.
  - destruct (devfs_get_file it) as [entry |]; [| apply IH; exact Hit].
    destruct (String.eqb dname (name entry)); [apply IH; exact Hit |].
    destruct (dirname (name entry)) as [parent |]; [| apply IH; exact Hit].
    unfold str_differs. destruct (String.eqb dname parent); simpl; [| apply IH; exact Hit].
    right. split; [reflexivity |].
    destruct (Z.leb_spec (iterated + sizeof_dirent) 0) as [Hle | _]; [lia |].
    destruct (count <=? 0 + sizeof_dirent); [simpl; lia |].
    eapply Z.lt_le_trans; [| apply devfs_getdents_loop_lower; lia]. lia.
Qed.

(** X7.  On a directory, [devfs_check_if_empty] and [devfs_getdents] agree
    on what a child is: [devfs_check_if_empty] returns 0 exactly when
    [devfs_getdents] from offset 0 writes nothing and returns 0, and it
    returns 1 exactly when [devfs_getdents] writes at least one record. *)
Theorem devfs_check_if_empty_getdents d vf i dir count :
  0 < sizeof_dirent -> sizeof_dirent <= count ->
  devfs_find_entry_inode d (vf_ino vf) = Some (i, dir) ->
  Z.land (flags dir) DT_DIR <> 0 ->
  (devfs_check_if_empty d (name dir) = 0
   /\ devfs_getdents d (Some vf) true 0 count = (0, []))
  \/ (devfs_check_if_empty d (name dir) = 1
      /\ 0 < fst (devfs_getdents d (Some vf) true 0 count)).
Proof.
  intros Hsz Hcount Hfind Hdir. unfold devfs_getdents, devfs_check_if_empty. simpl.
  destruct (Z.ltb_spec count sizeof_dirent) as [Hlt | _]; [lia |].
  rewrite bool_decide_eq_false_2.
  - rewrite Hfind. destruct (Z.eqb_spec (Z.land (flags dir) DT_DIR) 0); [contradiction |].
    apply devfs_check_if_empty_loop_getdents; [exact Hsz | lia].
  - intros Hnil. unfold devfs_find_entry_inode in Hfind. rewrite Hnil in Hfind.
    discriminate.
Qed.

(** A record of a direct child of the directory named [dname]. *)
Definition child_record (l : list devfs_file_t) (dname : string) (e : dirent_t) : Prop :=
  exists f, f ∈ l /\ devfs_check_file f = true /\ name f <> dname
    /\ dirname (name f) = Some dname
    /\ d_ino e = inode f /\ d_type e = flags f /\ d_reclen e = sizeof_dirent.

Lemma devfs_getdents_loop_bound all dname doff count l :
  0 < sizeof_dirent -> (forall f, f ∈ l -> f ∈ all) ->
  forall len written iterated out,
    written = sizeof_dirent * Z.of_nat (length out) -> written < count ->
    Forall (child_record all dname) out ->
    let r := devfs_getdents_loop dname doff count l len written iterated out in
    fst r = sizeof_dirent * Z.of_nat (length (snd r))
    /\ fst r < count + sizeof_dirent
    /\ (count mod sizeof_dirent = 0 -> fst r <= count)
    /\ Forall (child_record all dname) (snd r).
Proof.
  intros Hsz. induction l as [| it rest IH]; intros Hall len written iterated out Hw Hlt Hout;
    cbv zeta; simpl.
  - split; [exact Hw |]. split; [lia |]. split; [lia | exact Hout].
  - assert (Hrest : forall f, f ∈ rest -> f ∈ all) by (intros f Hf; apply Hall; right; exact Hf).
    specialize (IH Hrest).
    destruct (devfs_get_file it) as [entry |] eqn:Hget; [| apply IH; assumption].
    destruct (String.eqb_spec dname (name entry)) as [Hsame | Hdiff]; [apply IH; assumption |].
    destruct (dirname (name entry)) as [parent |] eqn:Hparent; [| apply IH; assumption].
    destruct (str_differs dname parent) eqn:Hstr; [apply IH; assumption |].
    apply str_differs_false in Hstr. subst parent.
    destruct (iterated + sizeof_dirent <=? doff); [apply IH; assumption |].
    unfold devfs_get_file in Hget.
    destruct (devfs_check_file it) eqn:Hchk; [| discriminate]. inversion Hget; subst entry.
    set (rec := {| d_ino := inode it; d_off := sizeof_dirent; d_reclen := sizeof_dirent;
                   d_type := flags it;
                   d_name := string_drop (if char_is_slash (name it) len then S len else len)
                               (name it) |}).
    assert (Hout' : Forall (child_record all dname) (out ++ [rec])).
    { apply Forall_app. split; [exact Hout |]. constructor; [| constructor].
      exists it. split; [apply Hall; left |]. repeat split; auto. }
    assert (Hw' : written + sizeof_dirent
                  = sizeof_dirent * Z.of_nat (length (out ++ [rec]))).
    { rewrite length_app. simpl. lia. }
    destruct (Z.leb_spec count (written + sizeof_dirent)) as [Hfull | Hroom].
    + simpl. split; [exact Hw' |]. split; [lia |]. split; [| exact Hout'].
      intros Hmod. apply Z.mod_divide in Hmod; [| lia]. destruct Hmod as [c Hc].
      assert (Hn : Z.of_nat (length out) < c) by nia.
      rewrite Hw, Hc. nia.
    + apply IH; assumption.
Qed.

(** X8.  [devfs_getdents] either fails with a negative value and writes
    nothing, or returns the number of bytes written: a whole number of
    records, each of a valid node whose parent directory is the directory
    read.  It stops after the record that reaches [count], so it writes
    fewer than [count + sizeof(dirent_t)] bytes, and no more than [count]
    when [count] is a multiple of the record size. *)
Theorem devfs_getdents_bound d file dirp doff count :
  0 < sizeof_dirent ->
  let r := devfs_getdents d file dirp doff count in
  (fst r < 0 /\ snd r = [])
  \/ (fst r = sizeof_dirent * Z.of_nat (length (snd r))
      /\ fst r < count + sizeof_dirent
      /\ (count mod sizeof_dirent = 0 -> fst r <= count)
      /\ forall e, e ∈ snd r ->
           exists vf i dir, file = Some vf
             /\ devfs_find_entry_inode d (vf_ino vf) = Some (i, dir)
             /\ child_record (fs_files d) (name dir) e).
Proof.
  intros Hsz. cbv zeta. unfold devfs_getdents.
  destruct file as [vf |]; [| left; split; [simpl; lia | reflexivity]].
  destruct dirp; simpl; [| left; split; [lia | reflexivity]].
  destruct (Z.ltb_spec count sizeof_dirent) as [Hlt | Hge];
    [left; split; [simpl; lia | reflexivity] |].
  destruct (bool_decide (fs_files d = [])).
  { right. simpl. split; [lia |]. split; [lia |]. split; [lia |].
    intros e He. inversion He. }
  destruct (devfs_find_entry_inode d (vf_ino vf)) as [[i dir] |] eqn:Hfind;
    [| left; split; [simpl; unfold ENOENT; lia | reflexivity]].
  destruct (Z.land (flags dir) DT_DIR =? 0);
    [left; split; [simpl; unfold ENOTDIR; lia | reflexivity] |].
  right.
  destruct (devfs_getdents_loop_bound (fs_files d) (name dir) doff count (fs_files d) Hsz
              (fun f Hf => Hf) (String.length (name dir)) 0 0 [])
    as (Hlen & Hbound & Hmult & Hrecs); [simpl; lia | lia | constructor |].
  cbv zeta in Hlen, Hbound, Hmult, Hrecs.
  split; [exact Hlen |]. split; [exact Hbound |]. split; [exact Hmult |].
  intros e He. exists vf, i, dir. split; [reflexivity |]. split; [exact Hfind |].
  rewrite Forall_forall in Hrecs. apply Hrecs. exact He.
Qed.

(** ** Mounting, and the mask of an entry *)

(** The node [devfs_create_file] makes. *)
Lemma devfs_create_file_Some path fl now d i f d' :
  devfs_create_file path fl now d = Ok (Some (i, f, d')) ->
  i = length (fs_files d)
  /\ d' = mk_devfs (u32 (nfiles d + 1)) (fs_files d ++ [f])
  /\ devfs_check_file f = true /\ name f = path /\ flags f = fl /\ mask f = 0
  /\ uid f = 0 /\ gid f = 0 /\ atime f = now /\ mtime f = now /\ ctime f = now
  /\ files f = [] /\ inode f = devfs_get_free_inode d
  /\ fs_operations (dir_entry f) = None /\ sys_operations (dir_entry f) = None.
Proof.
  unfold devfs_create_file. intros H.
  destruct (devfs_file_alloc d); [| discriminate].
  destruct (String.length path <? DEVFS_NAME_MAX)%nat; [| discriminate].
  inversion H; subst. repeat split.
Qed.


(** What a successful [devfs_create_entry] has done. *)
Lemma devfs_create_entry_Some nm now st i st1 :
  devfs_create_entry nm now st = Ok (Some i, st1) ->
  devfs_find_entry_path (fs st) nm = None
  /\ exists f d, devfs_create_file nm DT_REG now (fs st) = Ok (Some (i, f, d))
                 /\ st1 = set_fs d st.
Proof.
  unfold devfs_create_entry. intros H.
  destruct (devfs_find_entry_path (fs st) nm) as [r |].
  - rewrite bool_decide_eq_true_2 in H by eauto. discriminate.
  - rewrite bool_decide_eq_false_2 in H by (intros [x Hx]; discriminate).
    split; [reflexivity |].
    destruct (devfs_create_file nm DT_REG now (fs st)) as [[[[j f] d] |] | | |];
      try discriminate.
    inversion H; subst. eauto.
Qed.

(** X10.  The mask a driver sets on the entry it created is the mask
    [stat] reports: for a name that fits the array of the node, fewer
    than [DEVFS_NAME_MAX] characters, after [devfs_create_entry] and
    [devfs_entry_set_mask] on the pointer returned, [devfs_stat] on the
    name succeeds with the mode of a regular file or-ed with that mask,
    the inode chosen at creation, owner 0, size 0 and the three times of
    creation; and [devfs_dir_entry_get] on the name returns the same
    pointer. *)
Theorem devfs_stat_after_set_mask nm now m st i st1 :
  (String.length nm < DEVFS_NAME_MAX)%nat ->
  devfs_create_entry nm now st = Ok (Some i, st1) ->
  exists d2,
    devfs_entry_set_mask i m (fs st1) = Ok (0, d2)
    /\ devfs_dir_entry_get nm d2 = Some i
    /\ forall s, devfs_stat d2 (Some nm) (Some s)
         = (0, Some (mk_stat 0 (devfs_get_free_inode (fs st)) (Z.lor 32768 m)
                       0 0 0 now now now)).
Proof.
  intros _ Hcreate.
  apply devfs_create_entry_Some in Hcreate as (Hfind & f & d & Hfile & ->).
  apply devfs_create_file_Some in Hfile
    as (-> & -> & Hchk & Hname & Hflags & Hmask & Huid & Hgid & Hat & Hmt & Hct
        & Hfiles & Hino & Hops & Hsys).
  set (len := length (fs_files (fs st))).
  assert (Hlast : (fs_files (fs st) ++ [f]) !! len = Some f).
  { unfold len. rewrite lookup_app_r by lia. rewrite Nat.sub_diag. reflexivity. }
  unfold devfs_entry_set_mask. simpl. fold len. rewrite Hlast. simpl.
  eexists. split; [reflexivity |].
  pose proof (devfs_find_entry_path_new (fs st) nm f nm Hchk Hname) as Hnew.
  rewrite Hfind, String.eqb_refl in Hnew.
  assert (Hlook : devfs_find_entry_path
            (mk_devfs (u32 (nfiles (fs st) + 1))
               (<[len := set_mask m f]> (fs_files (fs st) ++ [f]))) nm
            = Some (len, set_mask m f)).
  { unfold devfs_find_entry_path in *. simpl in *.
    rewrite (devfs_find_from_insert _ _ len f) by (reflexivity || exact Hlast).
    rewrite Hnew. fold len. rewrite decide_True by lia. reflexivity. }
  split.
  - unfold devfs_dir_entry_get. rewrite Hlook. reflexivity.
  - intros s. unfold devfs_stat. rewrite Hlook. simpl. rewrite Hsys.
    unfold __devfs_stat. simpl. rewrite Hflags, Huid, Hgid, Hat, Hmt, Hct, Hino.
    reflexivity.
Qed.

End Operations.

(** ** Instances to run the operations on *)

(** The two readings of [bitmask_check]: some bit of the mask is set, or
    all of them are. *)
Definition bitmask_any (v m : Z) : bool := negb (Z.land v m =? 0).
Definition bitmask_all (v m : Z) : bool := Z.land v m =? m.

(** A [dirname] that cuts the path at its last slash. *)
Fixpoint last_slash (s : string) (i : nat) (acc : option nat) : option nat :=
  match s with
  | EmptyString => acc
  | String c s' => last_slash s' (S i) (if Ascii.eqb c "/"%char then Some i else acc)
  end.

Definition libgen_dirname (s : string) : option string :=
  match last_slash s 0%nat None with
  | None => Some "."%string
  | Some O => Some "/"%string
  | Some n => Some (substring 0 n s)
  end.

Definition libgen_basename (s : string) : string :=
  match last_slash s 0%nat None with
  | None => s
  | Some n => string_drop (S n) s
  end.

(** A slab that hands out the next unused 64-byte slot. *)
Definition slab_vfs_alloc (h : gmap Z vfs_file_t) : option Z :=
  let p := 4096 + 64 * Z.of_nat (size h) in
  match h !! p with
  | None => Some p
  | Some _ => None
  end.

Definition no_entry (nm : string) : devfs_dir_entry_t :=
  {| sys_operations := None; fs_operations := None; data := None; de_name := nm |}.

(** The mount point [/dev] and the node [/dev/null], left by
    [devfs_mount_callback] and [devfs_create_entry] before any driver has
    filled a table in. *)
Definition dev_dir : devfs_file_t :=
  mk_devfs_file DEVFS_MAGIC_NUMBER 1 DT_DIR 365 "/dev" 0 0 10 10 10 (no_entry "dev") [4096].

Definition dev_null : devfs_file_t :=
  mk_devfs_file DEVFS_MAGIC_NUMBER 2 DT_REG 0 "/dev/null" 0 0 20 20 20 (no_entry "null") [].

Definition dev_fs : devfs_t := {| nfiles := 2; fs_files := [dev_dir; dev_null] |}.

Definition dev_state : devfs_state :=
  {| fs := dev_fs; vfs_heap := {[ 4096 := vfs_file_of dev_dir ]}; errno := 0 |}.

(** [/dev/null] registered by a driver while nothing is mounted on
    [/dev]. *)
Definition orphan_state : devfs_state :=
  {| fs := {| nfiles := 1; fs_files := [dev_null] |}; vfs_heap := ∅; errno := 0 |}.

Lemma bitmask_any_sound : bitmask_check_sound bitmask_any.
Proof.
  split; intros v m Hm Hland; unfold bitmask_any; rewrite Hland.
  - apply negb_true_iff, Z.eqb_neq. exact Hm.
  - reflexivity.
Qed.

Lemma bitmask_all_sound : bitmask_check_sound bitmask_all.
Proof.
  split; intros v m Hm Hland; unfold bitmask_all; rewrite Hland.
  - apply Z.eqb_refl.
  - apply Z.eqb_neq. congruence.
Qed.

Lemma slab_vfs_alloc_fresh h p : slab_vfs_alloc h = Some p -> h !! p = None.
Proof.
  unfold slab_vfs_alloc. intros Halloc.
  destruct (h !! (4096 + 64 * Z.of_nat (size h))) eqn:Hlk; [discriminate |].
  inversion Halloc; subst. exact Hlk.
Qed.

Lemma dev_null_parent_accepted :
  parent_accepted libgen_dirname dev_fs "/dev/null".
Proof.
  exists "/dev"%string. split; [reflexivity |].
  right; right. exists 0%nat, dev_dir. split; reflexivity.
Qed.

(** At [/dev/null], a regular node nobody holds open, [devfs_unlink]
    answers [-EEXIST] and removes nothing. *)
Lemma devfs_unlink_inverted_test_witness :
  devfs_unlink "/dev/null" dev_fs = Ok (- EEXIST, dev_fs).
Proof.
  apply (proj1 (devfs_unlink_inverted_test "/dev/null" dev_fs
                  ltac:(discriminate) ltac:(discriminate)) 1%nat dev_null).
  reflexivity.
Defined.

(** [open("/dev/null", O_CREAT | O_EXCL)] on the mounted tree. *)
Lemma devfs_open_existing_witness :
  devfs_open bitmask_any libgen_dirname libgen_basename slab_vfs_alloc
    (fun _ => true) "/dev/null" (Z.lor O_CREAT O_EXCL) 0 30 dev_state
  = Ok (None, set_errno EEXIST dev_state).
Proof.
  apply (proj1 (devfs_open_existing bitmask_any libgen_dirname libgen_basename
                  slab_vfs_alloc (fun _ => true)
                  "/dev/null" (Z.lor O_CREAT O_EXCL) 0 30 dev_state 1%nat dev_null
                  bitmask_any_sound slab_vfs_alloc_fresh
                  dev_null_parent_accepted eq_refl)).
  reflexivity.
Defined.

(** C7 (counterexample).  Under either reading of
    [bitmask_check], opening the directory [/dev] write-only without
    [O_DIRECTORY] succeeds instead of failing with [EISDIR]; and
    [O_CREAT | O_EXCL] on the existing node [/dev/null] fails with [ENOENT],
    not [EEXIST], when no [/dev] node exists. *)
Lemma devfs_open_claim_fails :
  ((exists st', devfs_open bitmask_any libgen_dirname libgen_basename slab_vfs_alloc
                  (fun _ => true) "/dev" O_WRONLY 0 30 dev_state = Ok (Some 4160, st'))
   /\ (exists st', devfs_open bitmask_all libgen_dirname libgen_basename slab_vfs_alloc
                     (fun _ => true) "/dev" O_WRONLY 0 30 dev_state = Ok (Some 4160, st')))
  /\ (devfs_open bitmask_any libgen_dirname libgen_basename slab_vfs_alloc
         (fun _ => true) "/dev/null" (Z.lor O_CREAT O_EXCL) 0 30 orphan_state
       = Ok (None, set_errno ENOENT orphan_state)
      /\ devfs_open bitmask_all libgen_dirname libgen_basename slab_vfs_alloc
            (fun _ => true) "/dev/null" (Z.lor O_CREAT O_EXCL) 0 30 orphan_state
          = Ok (None, set_errno ENOENT orphan_state)).
Proof.
  split; split; try (eexists; vm_compute; reflexivity); vm_compute; reflexivity.
Qed.

(** With one of [O_CREAT] and [O_EXCL] set, the outcome on an existing
    node is that of [bitmask_check]: the open fails with [EEXIST] when the
    macro asks for some bit of the mask, and goes through when it asks for
    all of them. *)
Lemma devfs_open_creat_only :
  devfs_open bitmask_any libgen_dirname libgen_basename slab_vfs_alloc
    (fun _ => true) "/dev/null" O_CREAT 0 30 dev_state
  = Ok (None, set_errno EEXIST dev_state)
  /\ exists st', devfs_open bitmask_all libgen_dirname libgen_basename slab_vfs_alloc
                   (fun _ => true) "/dev/null" O_CREAT 0 30 dev_state
                 = Ok (Some 4160, st').
Proof.
  split; [vm_compute; reflexivity | eexists; vm_compute; reflexivity].
Qed.



Lemma devfs_getdents_empty_list_witness :
  devfs_getdents libgen_dirname 280 (mk_devfs 0 []) (Some (vfs_file_of dev_dir))
    true 0 560 = (0, []).
Proof.
  apply (proj1 (devfs_getdents_empty_list libgen_dirname 280 (mk_devfs 0 []) eq_refl)).
  lia.
Defined.

(** *** The mounted tree, used by drivers and processes *)

Lemma dev_fs_names_distinct : names_distinct dev_fs.
Proof.
  intros i j f g Hi Hj _ _ Hname.
  destruct i as [| [| i]], j as [| [| j]]; simpl in Hi, Hj; try discriminate;
    try reflexivity; inversion Hi; inversion Hj; subst; discriminate.
Qed.

Lemma dev_state_handles_allocated : handles_allocated dev_state.
Proof.
  intros f q Hf Hq. simpl in Hf.
  apply elem_of_cons in Hf as [-> | Hf].
  - apply list_elem_of_singleton in Hq. subst q. eexists. reflexivity.
  - apply list_elem_of_singleton in Hf. subst f. inversion Hq.
Qed.

(** [/dev/null] has no open handle: the driver can remove it. *)
Lemma devfs_destroy_entry_removes_witness :
  exists d',
    devfs_destroy_entry "/dev/null" dev_fs = (0, d')
    /\ devfs_find_entry_path d' "/dev/null" = None
    /\ (forall path, path <> "/dev/null"%string ->
           snd <$> devfs_find_entry_path d' path = snd <$> devfs_find_entry_path dev_fs path)
    /\ nfiles d' = u32 (nfiles dev_fs - 1)
    /\ names_distinct d'.
Proof.
  apply (proj2 (devfs_destroy_entry_removes "/dev/null" dev_fs 1%nat dev_null
                  dev_fs_names_distinct eq_refl)).
  reflexivity.
Defined.

(** The state a call leaves when it returns. *)
Definition state_after {A} (r : result (A * devfs_state)) : devfs_state :=
  match r with
  | Ok p => snd p
  | _ => dev_state
  end.

(** A driver registers [/dev/zero] at time 50. *)
Definition register_zero : result (option nat * devfs_state) :=
  devfs_create_entry libgen_basename (fun _ => true) "/dev/zero" 50 dev_state.


(** A process opens [/dev/null] read-only at time 30. *)
Definition open_null : result (option Z * devfs_state) :=
  devfs_open bitmask_any libgen_dirname libgen_basename slab_vfs_alloc
    (fun _ => true) "/dev/null" 0 0 30 dev_state.

Lemma open_null_returns : open_null = Ok (Some 4160, state_after open_null).
Proof. vm_compute. reflexivity. Qed.

Lemma devfs_open_then_busy_witness :
  open_null = Ok (Some 4160, state_after open_null)
  /\ devfs_destroy_entry "/dev/null" (fs (state_after open_null))
     = (- EBUSY, fs (state_after open_null)).
Proof.
  split; [exact open_null_returns |].
  apply (devfs_open_then_busy bitmask_any libgen_dirname libgen_basename slab_vfs_alloc
           (fun _ => true) "/dev/null" 0 0 30 dev_state 4160);
    [vm_compute; lia | exact open_null_returns].
Defined.

Lemma devfs_open_close_round_trip_witness :
  fst (devfs_close 4160 (state_after open_null)) = 0
  /\ vfs_heap (snd (devfs_close 4160 (state_after open_null))) = vfs_heap dev_state
  /\ errno (snd (devfs_close 4160 (state_after open_null))) = errno dev_state
  /\ fs (snd (devfs_close 4160 (state_after open_null)))
     = mk_devfs 2 [dev_dir; set_atime 30 dev_null].
Proof.
  pose proof (devfs_open_close_round_trip bitmask_any libgen_dirname libgen_basename
                slab_vfs_alloc (fun _ => true) "/dev/null" 0 0 30 dev_state 4160
                (state_after open_null) slab_vfs_alloc_fresh dev_state_handles_allocated
                open_null_returns) as (H0 & Hheap & Herrno & Hfs).
  split; [exact H0 |]. split; [exact Hheap |]. split; [exact Herrno |].
  exact Hfs.
Defined.

(** A process creates [/dev/zero] with [O_CREAT] at time 30. *)
Definition creat_zero : result (option Z * devfs_state) :=
  devfs_open bitmask_any libgen_dirname libgen_basename slab_vfs_alloc
    (fun _ => true) "/dev/zero" O_CREAT 0 30 dev_state.

Lemma creat_zero_returns : creat_zero = Ok (Some 4160, state_after creat_zero).
Proof. vm_compute. reflexivity. Qed.

Lemma devfs_open_creat_handle_witness :
  exists vf f,
    vfs_heap (state_after creat_zero) !! 4160 = Some vf
    /\ devfs_find_entry_inode (fs (state_after creat_zero)) (vf_ino vf) = Some (2%nat, f)
    /\ name f = "/dev/zero"%string /\ flags f = DT_REG /\ mask f = 0 /\ files f = [4160]
    /\ atime f = 30 /\ vf_name vf = "/dev/zero"%string /\ vf_flags vf = DT_REG
    /\ nfiles (fs (state_after creat_zero)) = u32 (2 + 1)
    /\ (forall off n, devfs_read (fs (state_after creat_zero)) (Some vf) off n = - ENOSYS).
Proof.
  apply (devfs_open_creat_handle bitmask_any libgen_dirname libgen_basename slab_vfs_alloc
           (fun _ => true) "/dev/zero" O_CREAT 0 30 dev_state 4160 (state_after creat_zero)).
  - vm_compute. lia.
  - reflexivity.
  - vm_compute. discriminate.
  - exact creat_zero_returns.
Defined.

(** [/dev] holds one child, [/dev/null]. *)
Lemma devfs_check_if_empty_getdents_witness :
  (devfs_check_if_empty libgen_dirname dev_fs "/dev" = 0
   /\ devfs_getdents libgen_dirname 280 dev_fs (Some (vfs_file_of dev_dir)) true 0 560
      = (0, []))
  \/ (devfs_check_if_empty libgen_dirname dev_fs "/dev" = 1
      /\ 0 < fst (devfs_getdents libgen_dirname 280 dev_fs (Some (vfs_file_of dev_dir))
                   true 0 560)).
Proof.
  apply (devfs_check_if_empty_getdents libgen_dirname 280 dev_fs (vfs_file_of dev_dir)
           0%nat dev_dir 560); [lia | lia | reflexivity | vm_compute; discriminate].
Defined.

(** [/dev] with two children, read into a buffer of 300 bytes while a
    record takes 280: both records are written, 560 bytes. *)
Definition dev_zero : devfs_file_t :=
  mk_devfs_file DEVFS_MAGIC_NUMBER 3 DT_REG 0 "/dev/zero" 0 0 20 20 20 (no_entry "zero") [].

Definition dev_fs2 : devfs_t := {| nfiles := 3; fs_files := [dev_dir; dev_null; dev_zero] |}.

Lemma devfs_getdents_bound_witness :
  fst (devfs_getdents libgen_dirname 280 dev_fs2 (Some (vfs_file_of dev_dir)) true 0 300) = 560
  /\ let r := devfs_getdents libgen_dirname 280 dev_fs2 (Some (vfs_file_of dev_dir))
                true 0 300 in
     (fst r < 0 /\ snd r = [])
     \/ (fst r = 280 * Z.of_nat (length (snd r))
         /\ fst r < 300 + 280
         /\ (300 mod 280 = 0 -> fst r <= 300)
         /\ forall e, e ∈ snd r ->
              exists vf i dir, Some (vfs_file_of dev_dir) = Some vf
                /\ devfs_find_entry_inode dev_fs2 (vf_ino vf) = Some (i, dir)
                /\ child_record libgen_dirname 280 (fs_files dev_fs2) (name dir) e).
Proof.
  split; [vm_compute; reflexivity |].
  apply (devfs_getdents_bound libgen_dirname 280 dev_fs2 (Some (vfs_file_of dev_dir))
           true 0 300).
  lia.
Defined.




(** The driver that registered [/dev/zero] makes it readable and writable
    by all ([0666]). *)
Lemma devfs_stat_after_set_mask_witness :
  exists d2,
    devfs_entry_set_mask 2%nat 438 (fs (state_after register_zero)) = Ok (0, d2)
    /\ devfs_dir_entry_get "/dev/zero" d2 = Some 2%nat
    /\ forall s, devfs_stat d2 (Some "/dev/zero"%string) (Some s)
         = (0, Some (mk_stat 0 (devfs_get_free_inode dev_fs) (Z.lor 32768 438)
                       0 0 0 50 50 50)).
Proof.
  apply (devfs_stat_after_set_mask libgen_basename (fun _ => true) "/dev/zero" 50 438
           dev_state 2%nat).
  - vm_compute. lia.
  - vm_compute. reflexivity.
Defined.

End Devfs.

(* ===================================================================== *)
(** * [mem/paging.c] *)
(* ===================================================================== *)

Module Paging.

Definition PAGE_SIZE : Z := 4096.

(** [enum MEMMAP_FLAGS] of [mem/paging.h] (absent from the sources): one
    bit each. *)
Definition MM_USER : Z := 1.
Definition MM_GLOBAL : Z := 2.
Definition MM_RW : Z := 4.
Definition MM_PRESENT : Z := 8.
Definition MM_COW : Z := 16.
Definition MM_UPDADDR : Z := 32.

(** [(flags & M) != 0]. *)
Definition flag (flags m : Z) : bool := negb (Z.land flags m =? 0).

(** [bit_check(v, b) != 0]. *)
Definition bit_check (v b : Z) : bool := negb (Z.land v (Z.shiftl 1 b) =? 0).

(** ** Data *)

(** Modelled from the spec: [page_table_entry_t] ([mem/paging.h]) is a
    32-bit word of bit fields, low to high: present, rw, user,
    write-through, cache-disable, accessed, dirty, reserved, global,
    available (2), cow, frame (20). *)
Record page_table_entry_t : Type := mk_pte {
  present : bool;
  rw : bool;
  user : bool;
  w_through : bool;
  cache : bool;
  accessed : bool;
  dirty : bool;
  zero : bool;
  global : bool;
  available : Z;
  kernel_cow : bool;
  frame : Z
}.

(** Modelled from the spec: [page_dir_entry_t] shares the layout; these
    are the fields [paging.c] reads or writes. *)
Record page_dir_entry_t : Type := mk_pde {
  pde_present : bool;
  pde_rw : bool;
  pde_user : bool;
  pde_accessed : bool;
  pde_global : bool;
  pde_available : Z;
  pde_frame : Z
}.

Definition pte_zero : page_table_entry_t :=
  mk_pte false false false false false false false false false 0 false 0.

Definition pde_zero : page_dir_entry_t :=
  mk_pde false false false false false 0 0.

(** The 32-bit word of an entry and back, by the layout above. *)
Definition word_of_pte (e : page_table_entry_t) : Z :=
  Z.b2z (present e) + 2 * Z.b2z (rw e) + 4 * Z.b2z (user e)
  + 8 * Z.b2z (w_through e) + 16 * Z.b2z (cache e) + 32 * Z.b2z (accessed e)
  + 64 * Z.b2z (dirty e) + 128 * Z.b2z (zero e) + 256 * Z.b2z (global e)
  + 512 * (available e mod 4) + 2048 * Z.b2z (kernel_cow e)
  + 4096 * (frame e mod 2 ^ 20).

Definition pte_of_word (w : Z) : page_table_entry_t :=
  {| present := Z.testbit w 0; rw := Z.testbit w 1; user := Z.testbit w 2;
     w_through := Z.testbit w 3; cache := Z.testbit w 4;
     accessed := Z.testbit w 5; dirty := Z.testbit w 6; zero := Z.testbit w 7;
     global := Z.testbit w 8; available := (w / 512) mod 4;
     kernel_cow := Z.testbit w 11; frame := (w / 4096) mod 2 ^ 20 |}.

(** The descriptor of a page frame ([page_t]): its reference count and the
    order of the buddy block it heads. *)
Record page_t : Type := mk_page { _count : Z; order : Z }.

Definition page_unused : page_t := mk_page 0 0.

(** A virtual memory area. *)
Record vm_area_struct_t : Type := mk_vma {
  vm_mm : Z;
  vm_start : Z;
  vm_end : Z;
  vm_flags : Z
}.

(** The memory descriptor.  [mmap_list] is the list of areas from
    [mmap_list.next] onwards; [pgd] is the address of the page directory. *)
Record mm_struct_t : Type := mk_mm {
  mmap_list : list vm_area_struct_t;
  mmap_cache : option vm_area_struct_t;
  pgd : Z;
  map_count : Z;
  total_vm : Z;
  start_stack : Z
}.

(** The memory [paging.c] works on.
    - [mms]: the [mm_struct_t] objects, by address;
    - [pgdirs]: the page directories, by address, each an array of entries
      indexed from 0 to 1023;
    - [pgtables]: the page tables, by the physical frame number that a
      directory entry stores for them;
    - [frames]: the bytes of the page frames, by frame number;
    - [mem_map]: the page descriptors, by frame number;
    - [tlb]: the addresses given to [paging_flush_tlb_single], last first.
    An entry that was never written reads as zero. *)
Record kernel : Type := mk_kernel {
  mms : gmap Z mm_struct_t;
  pgdirs : gmap Z (gmap Z page_dir_entry_t);
  pgtables : gmap Z (gmap Z page_table_entry_t);
  frames : gmap Z (list Z);
  mem_map : gmap Z page_t;
  tlb : list Z
}.

Definition set_mms (v : gmap Z mm_struct_t) (k : kernel) : kernel :=
  mk_kernel v (pgdirs k) (pgtables k) (frames k) (mem_map k) (tlb k).
Definition set_pgdirs (v : gmap Z (gmap Z page_dir_entry_t)) (k : kernel) : kernel :=
  mk_kernel (mms k) v (pgtables k) (frames k) (mem_map k) (tlb k).
Definition set_pgtables (v : gmap Z (gmap Z page_table_entry_t)) (k : kernel) : kernel :=
  mk_kernel (mms k) (pgdirs k) v (frames k) (mem_map k) (tlb k).
Definition set_frames (v : gmap Z (list Z)) (k : kernel) : kernel :=
  mk_kernel (mms k) (pgdirs k) (pgtables k) v (mem_map k) (tlb k).
Definition set_mem_map (v : gmap Z page_t) (k : kernel) : kernel :=
  mk_kernel (mms k) (pgdirs k) (pgtables k) (frames k) v (tlb k).

(** [paging_flush_tlb_single]. *)
Definition paging_flush_tlb_single (addr : Z) (k : kernel) : kernel :=
  mk_kernel (mms k) (pgdirs k) (pgtables k) (frames k) (mem_map k) (addr :: tlb k).

(** Reading and writing [pgd->entries[i]] and [table->pages[i]]. *)
Definition get_pde (k : kernel) (dir i : Z) : page_dir_entry_t :=
  default pde_zero (default ∅ (pgdirs k !! dir) !! i).

Definition set_pde (dir i : Z) (e : page_dir_entry_t) (k : kernel) : kernel :=
  set_pgdirs (<[dir := <[i := e]> (default ∅ (pgdirs k !! dir))]> (pgdirs k)) k.

Definition get_pte (k : kernel) (table i : Z) : page_table_entry_t :=
  default pte_zero (default ∅ (pgtables k !! table) !! i).

Definition set_pte (table i : Z) (e : page_table_entry_t) (k : kernel) : kernel :=
  set_pgtables (<[table := <[i := e]> (default ∅ (pgtables k !! table))]> (pgtables k)) k.

(** Modelled from the spec: [page_count(PageFrame* )] and [page_dec] of the
    page-frame allocator's header read and decrement the reference count
    of the descriptor. *)
Definition page_count (k : kernel) (p : Z) : Z :=
  _count (default page_unused (mem_map k !! p)).

Definition page_order (k : kernel) (p : Z) : Z :=
  order (default page_unused (mem_map k !! p)).

Definition page_dec (p : Z) (k : kernel) : kernel :=
  let d := default page_unused (mem_map k !! p) in
  set_mem_map (<[p := mk_page (_count d - 1) (order d)]> (mem_map k)) k.

(** Modelled from the spec: [get_physical_address_from_page] (zone
    allocator header) is the "implicit identity" between a frame and its
    physical address.  A [page_t *] is the index of the descriptor in
    [mem_map] ([mem_map + pfn] in [mem_virtual_to_page]); its physical
    address is that of the frame with this number. *)
Definition get_physical_address_from_page (p : Z) : Z := u32 (p * PAGE_SIZE).

(** Field updates of an entry. *)
Definition pte_set_flags (e : page_table_entry_t) (p r c g u : bool) : page_table_entry_t :=
  {| present := p; rw := r; user := u; w_through := w_through e;
     cache := cache e; accessed := accessed e; dirty := dirty e;
     zero := zero e; global := g; available := 1; kernel_cow := c;
     frame := frame e |}.

Definition pte_set_frame (e : page_table_entry_t) (f : Z) : page_table_entry_t :=
  {| present := present e; rw := rw e; user := user e;
     w_through := w_through e; cache := cache e; accessed := accessed e;
     dirty := dirty e; zero := zero e; global := global e;
     available := available e; kernel_cow := kernel_cow e;
     frame := f mod 2 ^ 20 |}.

Definition pte_set_present (e : page_table_entry_t) (p : bool) : page_table_entry_t :=
  {| present := p; rw := rw e; user := user e;
     w_through := w_through e; cache := cache e; accessed := accessed e;
     dirty := dirty e; zero := zero e; global := global e;
     available := available e; kernel_cow := kernel_cow e;
     frame := frame e |}.

Definition pte_set_cow (e : page_table_entry_t) (c : bool) : page_table_entry_t :=
  {| present := present e; rw := rw e; user := user e;
     w_through := w_through e; cache := cache e; accessed := accessed e;
     dirty := dirty e; zero := zero e; global := global e;
     available := available e; kernel_cow := c;
     frame := frame e |}.

(** [__set_pg_table_flags]. *)
Definition __set_pg_table_flags (e : page_table_entry_t) (flags : Z) : page_table_entry_t :=
  pte_set_flags e (flag flags MM_PRESENT) (flag flags MM_RW) (flag flags MM_COW)
    (flag flags MM_GLOBAL) (flag flags MM_USER).

(** Modelled from the spec: [virt_map_physical_pages(frame, n)] gives a
    transient mapping of the frame and [virt_unmap] drops it, so
    [memset((void * )vaddr, 0, PAGE_SIZE)] in between leaves the frame as a
    page of zero bytes. *)
Definition zero_page : list Z := replicate (Z.to_nat PAGE_SIZE) 0.

(** Modelled from the spec: [find_nearest_order_greater] (zone allocator,
    not among the sources) yields "the smallest order" whose run of
    [2 ^ order] pages covers [size / PAGE_SIZE] pages. *)
Fixpoint order_search (fuel : nat) (o npages : Z) : Z :=
  match fuel with
  | O => o
  | S fuel' => if 2 ^ o <? npages then order_search fuel' (o + 1) npages else o
  end.

Definition find_nearest_order_greater (base_addr amount : Z) : Z :=
  order_search 32 0 (amount / PAGE_SIZE).

(** Modelled from the spec: [list_head_sort] with [vm_area_compare]
    ([sys/list_head_algorithm.h], not among the sources) leaves "the list
    resorted by [vm_start]". *)
Fixpoint vm_area_insert (a : vm_area_struct_t) (l : list vm_area_struct_t)
    : list vm_area_struct_t :=
  match l with
  | [] => [a]
  | b :: l' => if vm_start a <=? vm_start b then a :: l else b :: vm_area_insert a l'
  end.

Definition list_head_sort (l : list vm_area_struct_t) : list vm_area_struct_t :=
  foldr vm_area_insert [] l.

(** The body of the loop of [is_valid_vm_area], over the areas in the
    order the loop visits them. *)
Fixpoint is_valid_vm_area_loop (vm_start0 vm_end0 : Z) (l : list vm_area_struct_t) : Z :=
  match l with
  | [] => 1
  | area :: rest =>
      if (vm_start area <? vm_start0) && (vm_start0 <? vm_end area) then 0
      else if (vm_start area <? vm_end0) && (vm_end0 <? vm_end area) then 0
      else if (vm_start0 <? vm_start area) && (vm_end area <? vm_end0) then 0
      else is_valid_vm_area_loop vm_start0 vm_end0 rest
  end.

(** [is_valid_vm_area]; [list_for_each_prev_decl] walks the list from its
    tail. *)
Definition is_valid_vm_area (mm : mm_struct_t) (vm_start0 vm_end0 : Z) : Z :=
  if vm_end0 <=? vm_start0 then -1
  else is_valid_vm_area_loop vm_start0 vm_end0 (rev (mmap_list mm)).

(** The first element from the tail that satisfies [p], by position. *)
Fixpoint find_prev {A} (p : A -> bool) (l : list A) : option nat :=
  match l with
  | [] => None
  | a :: l' =>
      match find_prev p l' with
      | Some i => Some (S i)
      | None => if p a then Some 0%nat else None
      end
  end.

(** [find_vm_area]. *)
Definition find_vm_area (mm : mm_struct_t) (vm_start0 : Z) : option nat :=
  find_prev (fun segment => vm_start segment =? vm_start0) (mmap_list mm).

(** The loop of [find_free_vm_area] over the list as
    [list_for_each_prev_decl] walks it, from the tail: the segment before
    [area] in the list is the one after it in [l]; the first segment of
    the list has none and is passed over. *)
Fixpoint find_free_vm_area_loop (length0 : Z) (l : list vm_area_struct_t) : option Z :=
  match l with
  | area :: rest =>
      match rest with
      | prev_area :: _ =>
          let available_space := u32 (vm_start area - vm_end prev_area) in
          if length0 <=? available_space then Some (u32 (vm_start area - length0))
          else find_free_vm_area_loop length0 rest
      | [] => None
      end
  | [] => None
  end.

(** [find_free_vm_area]: the address stored through [vm_start] when the
    function returns 0; [None] when it returns 1. *)
Definition find_free_vm_area (mm : mm_struct_t) (length0 : Z) : option Z :=
  find_free_vm_area_loop length0 (rev (mmap_list mm)).

(** Where [list_head_sort] leaves a segment: before the first segment
    that does not start below it. *)
Fixpoint vm_area_position (a : vm_area_struct_t) (l : list vm_area_struct_t) : nat :=
  match l with
  | [] => 0%nat
  | b :: l' => if vm_start a <=? vm_start b then 0%nat else S (vm_area_position a l')
  end.

Definition set_vm_flags (v : Z) (a : vm_area_struct_t) : vm_area_struct_t :=
  {| vm_mm := vm_mm a; vm_start := vm_start a; vm_end := vm_end a; vm_flags := v |}.

(** Structure for iterating page directory entries.  [it_dir] and
    [it_entry] stand for the pointer [entry]: the directory it points into
    and the index of the entry; [it_table] is the frame number of the
    table. *)
Record page_iterator_t : Type := mk_iter {
  it_dir : Z;
  it_entry : Z;
  it_table : Z;
  it_pfn : Z;
  it_last_pfn : Z;
  it_flags : Z
}.

(** Structure for iterating page table entries: the table and index of
    the entry, and its page frame number. *)
Record pg_iter_entry_t : Type := mk_iter_entry {
  ie_table : Z;
  ie_index : Z;
  ie_pfn : Z
}.

(** ** Reading back what was written *)

Lemma get_set_pte_same table i e k : get_pte (set_pte table i e k) table i = e.
Proof.
  unfold get_pte, set_pte. simpl. rewrite lookup_insert_eq. simpl.
  rewrite lookup_insert_eq. reflexivity.
Qed.

Lemma get_set_pte_other table i e k table' i' :
  (table', i') <> (table, i) -> get_pte (set_pte table i e k) table' i' = get_pte k table' i'.
Proof.
  intros Hne. unfold get_pte, set_pte. simpl.
  destruct (decide (table = table')) as [-> | Ht].
  - rewrite lookup_insert_eq. simpl.
    rewrite lookup_insert_ne by congruence. reflexivity.
  - rewrite lookup_insert_ne by exact Ht. reflexivity.
Qed.

Lemma get_set_pde_same dir i e k : get_pde (set_pde dir i e k) dir i = e.
Proof.
  unfold get_pde, set_pde. simpl. rewrite lookup_insert_eq. simpl.
  rewrite lookup_insert_eq. reflexivity.
Qed.

Lemma get_set_pde_other dir i e k dir' i' :
  (dir', i') <> (dir, i) -> get_pde (set_pde dir i e k) dir' i' = get_pde k dir' i'.
Proof.
  intros Hne. unfold get_pde, set_pde. simpl.
  destruct (decide (dir = dir')) as [-> | Hd].
  - rewrite lookup_insert_eq. simpl.
    rewrite lookup_insert_ne by congruence. reflexivity.
  - rewrite lookup_insert_ne by exact Hd. reflexivity.
Qed.

(** The frame number stored for a page: its index, cut to 20 bits. *)
Lemma frame_of_page p :
  Z.shiftr (get_physical_address_from_page p) 12 mod 2 ^ 20 = p mod 2 ^ 20.
Proof.
  unfold get_physical_address_from_page, u32, PAGE_SIZE.
  rewrite Z.shiftr_div_pow2 by lia.
  replace (2 ^ 32) with (2 ^ 20 * 2 ^ 12) by reflexivity.
  replace 4096 with (2 ^ 12) by reflexivity.
  rewrite Z.mul_mod_distr_r by lia.
  rewrite Z.div_mul by lia.
  apply Z.mod_mod. lia.
Qed.

(** ** Releasing the frames of an area *)

(** The orders recorded in the page descriptors are those of a buddy
    system whose largest block is shorter than the address space. *)
Definition orders_ok (m : gmap Z page_t) : Prop :=
  map_Forall (fun _ d => 0 <= order d < 20) m.

Lemma page_order_range k p : orders_ok (mem_map k) -> 0 <= page_order k p < 20.
Proof.
  intros Hok. unfold page_order.
  destruct (mem_map k !! p) as [d |] eqn:Hlk; simpl.
  - exact (Hok p d Hlk).
  - lia.
Qed.

Lemma page_dec_orders p k :
  orders_ok (mem_map k) -> orders_ok (mem_map (page_dec p k)) /\ mms (page_dec p k) = mms k.
Proof.
  intros Hok. split; [| reflexivity].
  unfold page_dec. simpl. apply map_Forall_insert_2; [| exact Hok]. simpl.
  destruct (mem_map k !! p) as [d |] eqn:Hlk; simpl.
  - exact (Hok p d Hlk).
  - lia.
Qed.

Lemma page_dec_fold_orders p l : forall k,
  orders_ok (mem_map k) ->
  orders_ok (mem_map (foldl (fun k i => page_dec (p + i) k) k l))
  /\ mms (foldl (fun k i => page_dec (p + i) k) k l) = mms k.
Proof.
  induction l as [| i l IH]; intros k Hok; simpl.
  - split; [exact Hok | reflexivity].
  - destruct (page_dec_orders (p + i) k Hok) as [Hok1 Hm1].
    destruct (IH _ Hok1) as [Hok2 Hm2]. split; [exact Hok2 | congruence].
Qed.

Lemma page_dec_fold_mms p l : forall k,
  mms (foldl (fun k i => page_dec (p + i) k) k l) = mms k.
Proof.
  induction l as [| i l IH]; intros k; simpl; [reflexivity |].
  rewrite IH. reflexivity.
Qed.

(** The bytes of a block: at least a page, for the orders of [orders_ok]. *)
Lemma block_bytes o :
  0 <= o < 20 -> PAGE_SIZE <= u32 (u32 (2 ^ o) * PAGE_SIZE) < 2 ^ 32.
Proof.
  intros Ho. unfold PAGE_SIZE.
  assert (H1 : 1 <= 2 ^ o) by (apply (Z.pow_le_mono_r 2 0 o); lia).
  assert (H2 : 2 ^ o <= 2 ^ 19) by (apply Z.pow_le_mono_r; lia).
  change (2 ^ 19) with 524288 in H2.
  rewrite (u32_small (2 ^ o)) by (change (2 ^ 32) with 4294967296; lia).
  rewrite u32_small by (change (2 ^ 32) with 4294967296; lia).
  change (2 ^ 32) with 4294967296. lia.
Qed.

(** ** The list of areas of a memory descriptor *)

(** An area is a non-empty interval; two areas are disjoint when one ends
    before the other starts. *)
Definition vma_wf (a : vm_area_struct_t) : Prop := vm_start a < vm_end a.

Definition vma_disjoint (a b : vm_area_struct_t) : Prop :=
  vm_end a <= vm_start b \/ vm_end b <= vm_start a.

Fixpoint pairwise_disjoint (l : list vm_area_struct_t) : Prop :=
  match l with
  | [] => True
  | a :: l' => Forall (vma_disjoint a) l' /\ pairwise_disjoint l'
  end.

Definition vma_le (a b : vm_area_struct_t) : Prop := vm_start a <= vm_start b.

Definition sorted_by_start (l : list vm_area_struct_t) : Prop := StronglySorted vma_le l.

(** The number of pages the claim counts for a list of areas. *)
Definition pages_of (l : list vm_area_struct_t) : Z :=
  foldr (fun a n => (vm_end a - vm_start a) / PAGE_SIZE + n) 0 l.

(** The invariant of the specification, for one memory descriptor. *)
Definition mm_invariant (mm : mm_struct_t) : Prop :=
  pairwise_disjoint (mmap_list mm)
  /\ sorted_by_start (mmap_list mm)
  /\ map_count mm = Z.of_nat (length (mmap_list mm))
  /\ total_vm mm = pages_of (mmap_list mm).

(** The memory descriptor after each of the three operations. *)
Definition mm_after_create (mm : mm_struct_t) (segment : vm_area_struct_t) (o : Z)
    : mm_struct_t :=
  {| mmap_list := list_head_sort (segment :: mmap_list mm);
     mmap_cache := Some segment;
     pgd := pgd mm;
     map_count := map_count mm + 1;
     total_vm := u32 (total_vm mm + u32 (2 ^ o));
     start_stack := start_stack mm |}.

Definition mm_after_clone (mm : mm_struct_t) (segment : vm_area_struct_t) (o : Z)
    : mm_struct_t :=
  {| mmap_list := segment :: mmap_list mm;
     mmap_cache := Some segment;
     pgd := pgd mm;
     map_count := map_count mm + 1;
     total_vm := u32 (total_vm mm + u32 (2 ^ o));
     start_stack := start_stack mm |}.

Definition mm_after_destroy (mm : mm_struct_t) (i : nat) : mm_struct_t :=
  {| mmap_list := delete i (mmap_list mm);
     mmap_cache := mmap_cache mm;
     pgd := pgd mm;
     map_count := map_count mm - 1;
     total_vm := total_vm mm;
     start_stack := start_stack mm |}.

Lemma vm_area_insert_length a l : length (vm_area_insert a l) = S (length l).
Proof.
  induction l as [| b l IH]; simpl; [reflexivity |].
  destruct (vm_start a <=? vm_start b); simpl; [reflexivity | rewrite IH; reflexivity].
Qed.

Lemma list_head_sort_length l : length (list_head_sort l) = length l.
Proof.
  induction l as [| a l IH]; simpl; [reflexivity |].
  rewrite vm_area_insert_length, IH. reflexivity.
Qed.

Lemma vm_area_insert_Forall (P : vm_area_struct_t -> Prop) a l :
  Forall P (vm_area_insert a l) <-> P a /\ Forall P l.
Proof.
  induction l as [| b l IH]; simpl.
  - rewrite Forall_cons. reflexivity.
  - destruct (vm_start a <=? vm_start b).
    + rewrite Forall_cons. reflexivity.
    + rewrite !Forall_cons, IH. tauto.
Qed.

Lemma list_head_sort_Forall (P : vm_area_struct_t -> Prop) l :
  Forall P (list_head_sort l) <-> Forall P l.
Proof.
  induction l as [| a l IH]; simpl; [reflexivity |].
  rewrite vm_area_insert_Forall, Forall_cons, IH. reflexivity.
Qed.

Lemma vm_area_insert_sorted a l :
  sorted_by_start l -> sorted_by_start (vm_area_insert a l).
Proof.
  unfold sorted_by_start. induction l as [| b l IH]; intros Hs; simpl.
  - constructor; constructor.
  - apply StronglySorted_inv in Hs as [Hs Hb].
    destruct (Z.leb_spec (vm_start a) (vm_start b)) as [Hle | Hgt].
    + constructor; [constructor; assumption |].
      constructor; [exact Hle |].
      eapply Forall_impl; [exact Hb |]. unfold vma_le. intros c Hc. simpl in Hc. lia.
    + constructor; [apply IH; exact Hs |].
      apply vm_area_insert_Forall. split; [unfold vma_le; lia | exact Hb].
Qed.

Lemma list_head_sort_sorted l : sorted_by_start (list_head_sort l).
Proof.
  induction l as [| a l IH]; simpl.
  - constructor.
  - apply vm_area_insert_sorted. exact IH.
Qed.

Lemma delete_sorted i l : sorted_by_start l -> sorted_by_start (delete i l).
Proof.
  unfold sorted_by_start. revert i. induction l as [| a l IH]; intros i Hs.
  - destruct i; exact Hs.
  - apply StronglySorted_inv in Hs as [Hs Ha]. destruct i as [| i]; simpl.
    + exact Hs.
    + constructor; [apply IH; exact Hs | apply Forall_delete; exact Ha].
Qed.

Lemma vma_disjoint_sym a b : vma_disjoint a b -> vma_disjoint b a.
Proof. unfold vma_disjoint. tauto. Qed.

Lemma vm_area_insert_disjoint a l :
  pairwise_disjoint (vm_area_insert a l)
  <-> Forall (vma_disjoint a) l /\ pairwise_disjoint l.
Proof.
  induction l as [| b l IH]; simpl.
  - rewrite Forall_nil. tauto.
  - destruct (vm_start a <=? vm_start b); simpl; [reflexivity |].
    rewrite vm_area_insert_Forall, IH, Forall_cons. split.
    + intros [[Hba Hb] [Ha Hl]]. repeat split; auto using vma_disjoint_sym.
    + intros [[Hab Ha] [Hb Hl]]. repeat split; auto using vma_disjoint_sym.
Qed.

Lemma list_head_sort_disjoint l :
  pairwise_disjoint (list_head_sort l) <-> pairwise_disjoint l.
Proof.
  induction l as [| a l IH]; simpl; [reflexivity |].
  rewrite vm_area_insert_disjoint, list_head_sort_Forall, IH. reflexivity.
Qed.

Lemma delete_disjoint i l : pairwise_disjoint l -> pairwise_disjoint (delete i l).
Proof.
  revert i. induction l as [| a l IH]; intros i Hd.
  - destruct i; exact Hd.
  - destruct Hd as [Ha Hl]. destruct i as [| i]; simpl.
    + exact Hl.
    + split; [apply Forall_delete; exact Ha | apply IH; exact Hl].
Qed.

(** What [is_valid_vm_area] establishes: the new range meets an existing
    area only if it contains it and starts or ends where it does. *)
Lemma is_valid_vm_area_loop_one vm_start0 vm_end0 l :
  is_valid_vm_area_loop vm_start0 vm_end0 l = 1 ->
  Forall (fun area =>
            ~ (vm_start area < vm_start0 < vm_end area)
            /\ ~ (vm_start area < vm_end0 < vm_end area)
            /\ ~ (vm_start0 < vm_start area /\ vm_end area < vm_end0)) l.
Proof.
  induction l as [| area l IH]; simpl; intros H; [constructor |].
  destruct (Z.ltb_spec (vm_start area) vm_start0), (Z.ltb_spec vm_start0 (vm_end area));
    simpl in H; try discriminate;
  destruct (Z.ltb_spec (vm_start area) vm_end0), (Z.ltb_spec vm_end0 (vm_end area));
    simpl in H; try discriminate;
  destruct (Z.ltb_spec vm_start0 (vm_start area)), (Z.ltb_spec (vm_end area) vm_end0);
    simpl in H; try discriminate;
  (constructor; [lia | apply IH; exact H]).
Qed.

Lemma is_valid_vm_area_loop_range vm_start0 vm_end0 l :
  is_valid_vm_area_loop vm_start0 vm_end0 l = 0
  \/ is_valid_vm_area_loop vm_start0 vm_end0 l = 1.
Proof.
  induction l as [| area l IH]; simpl; [right; reflexivity |].
  destruct ((vm_start area <? vm_start0) && (vm_start0 <? vm_end area)); [left; reflexivity |].
  destruct ((vm_start area <? vm_end0) && (vm_end0 <? vm_end area)); [left; reflexivity |].
  destruct ((vm_start0 <? vm_start area) && (vm_end area <? vm_end0)); [left; reflexivity |].
  exact IH.
Qed.

Lemma is_valid_vm_area_disjoint mm vm_start0 vm_end0 segment :
  0 < is_valid_vm_area mm vm_start0 vm_end0 ->
  vm_start segment = vm_start0 -> vm_end segment = vm_end0 ->
  Forall vma_wf (mmap_list mm) ->
  Forall (fun a => vm_start a <> vm_start0 /\ vm_end a <> vm_end0) (mmap_list mm) ->
  vma_wf segment /\ Forall (vma_disjoint segment) (mmap_list mm).
Proof.
  unfold is_valid_vm_area. intros Hvalid Hs He Hwf Hdistinct.
  destruct (Z.leb_spec vm_end0 vm_start0) as [Hle | Hlt]; [lia |].
  split; [unfold vma_wf; lia |].
  destruct (is_valid_vm_area_loop_range vm_start0 vm_end0 (rev (mmap_list mm)))
    as [H0 | H1]; [lia |].
  apply is_valid_vm_area_loop_one in H1.
  apply List.Forall_rev in H1. rewrite rev_involutive in H1.
  rewrite Forall_forall in *. intros a Ha.
  specialize (H1 a Ha). specialize (Hwf a Ha). specialize (Hdistinct a Ha).
  unfold vma_disjoint, vma_wf in *. lia.
Qed.

Lemma find_prev_Some {A} (p : A -> bool) l i :
  find_prev p l = Some i -> exists a, l !! i = Some a /\ p a = true.
Proof.
  revert i. induction l as [| a l IH]; intros i H; simpl in H; [discriminate |].
  destruct (find_prev p l) as [j |] eqn:Hrest.
  - inversion H; subst. destruct (IH j eq_refl) as (b & Hb & Hp).
    exists b. split; [exact Hb | exact Hp].
  - destruct (p a) eqn:Hp; [| discriminate]. inversion H; subst.
    exists a. split; [reflexivity | exact Hp].
Qed.

Lemma find_prev_None {A} (p : A -> bool) l :
  find_prev p l = None -> Forall (fun a => p a = false) l.
Proof.
  induction l as [| a l IH]; intros H; simpl in H; [constructor |].
  destruct (find_prev p l) as [j |] eqn:Hrest; [discriminate |].
  destruct (p a) eqn:Hp; [discriminate |].
  constructor; [exact Hp | apply IH; reflexivity].
Qed.

(** The areas of a descriptor lie in the 32-bit address space, end after
    start. *)
Definition vma_in_range (a : vm_area_struct_t) : Prop :=
  0 <= vm_start a <= vm_end a /\ vm_end a < 2 ^ 32.

(** An area of [mm] that starts at [addr] and is [length] bytes long. *)
Definition exact_match (mm : mm_struct_t) (addr length : Z) : Prop :=
  exists a, a ∈ mmap_list mm /\ vm_start a = addr /\ vm_end a - vm_start a = length.

(** A one-bit mask tests its bit. *)
Lemma flag_testbit f n : 0 <= n -> flag f (2 ^ n) = Z.testbit f n.
Proof.
  intros Hn. unfold flag.
  assert (Hland : Z.land f (2 ^ n) = if Z.testbit f n then 2 ^ n else 0).
  { apply Z.bits_inj'. intros m Hm.
    rewrite Z.land_spec, Z.pow2_bits_eqb by exact Hn.
    destruct (Z.eqb_spec n m) as [-> | Hne].
    - destruct (Z.testbit f m) eqn:Hbit; simpl.
      + rewrite Z.pow2_bits_true by exact Hm. reflexivity.
      + rewrite Z.bits_0. reflexivity.
    - rewrite andb_false_r.
      destruct (Z.testbit f n).
      + rewrite Z.pow2_bits_false by congruence. reflexivity.
      + rewrite Z.bits_0. reflexivity. }
  rewrite Hland. destruct (Z.testbit f n); simpl.
  - assert (0 < 2 ^ n) by (apply Z.pow_pos_nonneg; lia).
    destruct (Z.eqb_spec (2 ^ n) 0); [lia | reflexivity].
  - reflexivity.
Qed.

(** The flags [create_vm_area] hands to [mem_upd_vm_area]. *)
Lemma cow_flags pgflags :
  flag pgflags MM_COW = true ->
  let flags := Z.land pgflags (Z.lnot (Z.lor MM_PRESENT MM_UPDADDR)) in
  flag flags MM_COW = true /\ flag flags MM_PRESENT = false
  /\ flag flags MM_UPDADDR = false.
Proof.
  intros Hcow. cbv zeta.
  change MM_COW with (2 ^ 4) in *. change MM_PRESENT with (2 ^ 3).
  change MM_UPDADDR with (2 ^ 5).
  rewrite flag_testbit in Hcow by lia.
  rewrite !flag_testbit by lia.
  rewrite !Z.land_spec, !Z.lnot_spec, !Z.lor_spec by lia.
  rewrite !Z.pow2_bits_eqb by lia. rewrite Hcow. simpl. repeat split;
    rewrite ?andb_false_r; reflexivity.
Qed.

Lemma updaddr_flags pgflags :
  let flags := Z.lor pgflags MM_UPDADDR in
  flag flags MM_UPDADDR = true /\ flag flags MM_PRESENT = flag pgflags MM_PRESENT.
Proof.
  cbv zeta. change MM_PRESENT with (2 ^ 3). change MM_UPDADDR with (2 ^ 5).
  rewrite !flag_testbit by lia.
  rewrite !Z.lor_spec. rewrite !Z.pow2_bits_eqb by lia. simpl.
  rewrite orb_true_r, orb_false_r. split; reflexivity.
Qed.

(** [find_nearest_order_greater] returns the smallest sufficient order. *)
Lemma order_search_spec fuel : forall o npages,
  0 <= o -> npages <= 2 ^ (o + Z.of_nat fuel) ->
  (forall o', 0 <= o' < o -> 2 ^ o' < npages) ->
  let r := order_search fuel o npages in
  o <= r /\ npages <= 2 ^ r /\ (forall o', 0 <= o' < r -> 2 ^ o' < npages).
Proof.
  induction fuel as [| fuel IH]; intros o npages Ho Hbound Hsmall; cbv zeta; simpl.
  - rewrite Z.add_0_r in Hbound. split; [lia | split; assumption].
  - destruct (Z.ltb_spec (2 ^ o) npages) as [Hlt | Hge].
    + destruct (IH (o + 1) npages) as (H1 & H2 & H3).
      * lia.
      * replace (o + 1 + Z.of_nat fuel) with (o + Z.of_nat (S fuel)) by lia. exact Hbound.
      * intros o' Ho'. destruct (Z.eq_dec o' o) as [-> | Hne]; [exact Hlt |].
        apply Hsmall. lia.
      * split; [lia | split; assumption].
    + split; [lia | split; assumption].
Qed.

Lemma find_nearest_order_greater_spec base_addr amount :
  0 <= amount < 2 ^ 32 ->
  let o := find_nearest_order_greater base_addr amount in
  0 <= o /\ amount / PAGE_SIZE <= 2 ^ o
  /\ (forall o', 0 <= o' < o -> 2 ^ o' < amount / PAGE_SIZE).
Proof.
  intros Hamount. unfold find_nearest_order_greater.
  apply (order_search_spec 32 0 (amount / PAGE_SIZE)).
  - lia.
  - simpl Z.of_nat. change (2 ^ (0 + 32)) with 4294967296.
    assert (amount / PAGE_SIZE <= amount).
    { apply Z.div_le_upper_bound; unfold PAGE_SIZE; lia. }
    change (2 ^ 32) with 4294967296 in Hamount. lia.
  - intros o' Ho'. lia.
Qed.

(** The entry that maps page [pfn] through the directory [dir]. *)
Definition walk (k : kernel) (dir pfn : Z) : page_table_entry_t :=
  get_pte k (pde_frame (get_pde k dir (pfn / 1024))) (pfn mod 1024).

(** The present entries of a directory name allocated tables, each its
    own. *)
Definition dir_wf (k : kernel) (dir : Z) : Prop :=
  (forall i, pde_present (get_pde k dir i) = true ->
             is_Some (pgtables k !! pde_frame (get_pde k dir i)))
  /\ (forall i j, pde_present (get_pde k dir i) = true ->
                  pde_present (get_pde k dir j) = true ->
                  pde_frame (get_pde k dir i) = pde_frame (get_pde k dir j) -> i = j).

Lemma get_pte_ext k k' table i :
  pgtables k' = pgtables k -> get_pte k' table i = get_pte k table i.
Proof. intros H. unfold get_pte. rewrite H. reflexivity. Qed.

Lemma get_pde_ext k k' dir i :
  pgdirs k' = pgdirs k -> get_pde k' dir i = get_pde k dir i.
Proof. intros H. unfold get_pde. rewrite H. reflexivity. Qed.

Lemma dir_wf_ext k k' dir :
  pgdirs k' = pgdirs k ->
  (forall tb, is_Some (pgtables k !! tb) -> is_Some (pgtables k' !! tb)) ->
  dir_wf k dir -> dir_wf k' dir.
Proof.
  intros Hdirs Htables [Halloc Hinj]. split.
  - intros i Hi. rewrite (get_pde_ext k k') in * by exact Hdirs.
    apply Htables, Halloc, Hi.
  - intros i j Hi Hj Heq. rewrite !(get_pde_ext k k') in * by exact Hdirs.
    apply Hinj; assumption.
Qed.

(** Split the conjunctions that are written out, not those behind a
    definition. *)
Ltac split_all := repeat match goal with |- _ /\ _ => split end.

(** The entry of page [p] after [mem_upd_vm_area]: its table is there, it
    carries the flags asked for and, with [MM_UPDADDR], the frame at the
    same distance from [phy0] as [p] is from [s]. *)
Definition entry_mapped (flags phy0 s : Z) (k : kernel) (dir p : Z) : Prop :=
  pde_present (get_pde k dir (p / 1024)) = true
  /\ present (walk k dir p) = flag flags MM_PRESENT
  /\ rw (walk k dir p) = flag flags MM_RW
  /\ kernel_cow (walk k dir p) = flag flags MM_COW
  /\ global (walk k dir p) = flag flags MM_GLOBAL
  /\ user (walk k dir p) = flag flags MM_USER
  /\ (flag flags MM_UPDADDR = true -> frame (walk k dir p) = (phy0 + (p - s)) mod 2 ^ 20).

(** The invariant of the loop of [mem_upd_vm_area] over the pages [s] to
    [e]. *)
Definition loop_inv (dir flags s e phy0 : Z) (iter : page_iterator_t) (phy_pfn : Z)
    (k : kernel) : Prop :=
  it_dir iter = dir /\ it_last_pfn iter = e /\ it_flags iter = flags
  /\ 0 <= s <= it_pfn iter /\ it_pfn iter <= e /\ e <= 2 ^ 20
  /\ dir_wf k dir
  /\ (it_pfn iter < e ->
      it_entry iter = it_pfn iter / 1024
      /\ pde_present (get_pde k dir (it_entry iter)) = true
      /\ pde_frame (get_pde k dir (it_entry iter)) = it_table iter)
  /\ (flag flags MM_UPDADDR = true ->
      phy_pfn mod 2 ^ 20 = (phy0 + (it_pfn iter - s)) mod 2 ^ 20)
  /\ (forall p, s <= p < it_pfn iter -> entry_mapped flags phy0 s k dir p).

(** The frame number that the entry of page [p] holds, 0 while the page
    has no table. *)
Definition backing (k : kernel) (dir p : Z) : Z :=
  if pde_present (get_pde k dir (p / 1024)) then frame (walk k dir p) else 0.

Lemma u32_mod_20 z : u32 z mod 2 ^ 20 = z mod 2 ^ 20.
Proof.
  unfold u32. replace (2 ^ 32) with (2 ^ 20 * 2 ^ 12) by reflexivity.
  rewrite Z.rem_mul_r by lia.
  rewrite (Z.mul_comm (2 ^ 20) ((z / 2 ^ 20) mod 2 ^ 12)), Z.mod_add by lia.
  apply Z.mod_mod. lia.
Qed.

(** ** Validating and finding ranges *)

Lemma is_valid_vm_area_loop_accepts vm_start0 vm_end0 l :
  Forall (fun area =>
            ~ (vm_start area < vm_start0 < vm_end area)
            /\ ~ (vm_start area < vm_end0 < vm_end area)
            /\ ~ (vm_start0 < vm_start area /\ vm_end area < vm_end0)) l ->
  is_valid_vm_area_loop vm_start0 vm_end0 l = 1.
Proof.
  induction l as [| area l IH]; intros H; simpl; [reflexivity |].
  apply Forall_cons in H as [(H1 & H2 & H3) Hl].
  destruct (Z.ltb_spec (vm_start area) vm_start0), (Z.ltb_spec vm_start0 (vm_end area));
    simpl; try lia;
  destruct (Z.ltb_spec (vm_start area) vm_end0), (Z.ltb_spec vm_end0 (vm_end area));
    simpl; try lia;
  destruct (Z.ltb_spec vm_start0 (vm_start area)), (Z.ltb_spec (vm_end area) vm_end0);
    simpl; try lia; apply IH; exact Hl.
Qed.

(** X11.  [is_valid_vm_area] never rejects a free range: a non-empty
    range that meets no area of the descriptor is answered with 1. *)
Theorem is_valid_vm_area_accepts_free mm vm_start0 vm_end0 :
  vm_start0 < vm_end0 ->
  Forall (fun a => vm_start a <= vm_end a) (mmap_list mm) ->
  Forall (fun a => vm_end0 <= vm_start a \/ vm_end a <= vm_start0) (mmap_list mm) ->
  is_valid_vm_area mm vm_start0 vm_end0 = 1.
Proof.
  intros Hlt Hwf Hfree. unfold is_valid_vm_area.
  destruct (Z.leb_spec vm_end0 vm_start0) as [Hle | _]; [lia |].
  apply is_valid_vm_area_loop_accepts, List.Forall_rev.
  rewrite Forall_forall in *. intros a Ha.
  specialize (Hwf a Ha). specialize (Hfree a Ha). lia.
Qed.

(** X12.  [is_valid_vm_area] compares with strict inequalities only, so
    it also answers 1 for a range that covers an existing area and starts
    or ends where the area does, the range of the area itself included,
    as long as the range meets no other area. *)
Theorem is_valid_vm_area_accepts_cover mm l1 a l2 vm_start0 vm_end0 :
  mmap_list mm = l1 ++ a :: l2 ->
  vm_start a < vm_end a ->
  vm_start0 <= vm_start a -> vm_end a <= vm_end0 ->
  vm_start0 = vm_start a \/ vm_end0 = vm_end a ->
  Forall (fun b => vm_start b <= vm_end b
                   /\ (vm_end0 <= vm_start b \/ vm_end b <= vm_start0)) (l1 ++ l2) ->
  is_valid_vm_area mm vm_start0 vm_end0 = 1
  /\ ~ vma_disjoint (mk_vma (vm_mm a) vm_start0 vm_end0 (vm_flags a)) a.
Proof.
  intros Hlist Hwf Hs He Hshare Hothers. split.
  - unfold is_valid_vm_area.
    destruct (Z.leb_spec vm_end0 vm_start0) as [Hle | _]; [lia |].
    apply is_valid_vm_area_loop_accepts, List.Forall_rev.
    rewrite Hlist. apply Forall_app in Hothers as [H1 H2].
    apply Forall_app. split; [| constructor].
    + eapply Forall_impl; [exact H1 |]. simpl. intros b Hb. lia.
    + lia.
    + eapply Forall_impl; [exact H2 |]. simpl. intros b Hb. lia.
  - unfold vma_disjoint. simpl. lia.
Qed.

Lemma find_prev_last {A} (p : A -> bool) l i :
  find_prev p l = Some i ->
  forall j b, (i < j)%nat -> l !! j = Some b -> p b = false.
Proof.
  revert i. induction l as [| a l IH]; intros i H j b Hj Hb; simpl in H; [discriminate |].
  destruct (find_prev p l) as [i' |] eqn:Hrest.
  - inversion H; subst. destruct j as [| j]; [lia |]. simpl in Hb.
    apply (IH i' eq_refl j b); [lia | exact Hb].
  - destruct (p a); [| discriminate]. inversion H; subst.
    destruct j as [| j]; [lia |]. simpl in Hb.
    apply find_prev_None in Hrest. rewrite Forall_forall in Hrest.
    apply Hrest. apply list_elem_of_lookup. eauto.
Qed.

Lemma find_prev_exists {A} (p : A -> bool) l a :
  a ∈ l -> p a = true -> is_Some (find_prev p l).
Proof.
  intros Ha Hp. destruct (find_prev p l) as [i |] eqn:Hfind; [eauto |].
  apply find_prev_None in Hfind. rewrite Forall_forall in Hfind.
  rewrite (Hfind a Ha) in Hp. discriminate.
Qed.

Lemma vm_area_position_insert a l :
  vm_area_insert a l !! vm_area_position a (vm_area_insert a l) = Some a.
Proof.
  induction l as [| b l IH]; simpl.
  - rewrite Z.leb_refl. reflexivity.
  - destruct (Z.leb_spec (vm_start a) (vm_start b)) as [Hle | Hgt]; simpl.
    + rewrite Z.leb_refl. reflexivity.
    + destruct (Z.leb_spec (vm_start a) (vm_start b)); [lia |]. exact IH.
Qed.

Lemma vm_area_insert_elem a l x : x ∈ vm_area_insert a l <-> x = a \/ x ∈ l.
Proof.
  induction l as [| b l IH]; simpl.
  - rewrite list_elem_of_singleton, elem_of_nil. tauto.
  - destruct (vm_start a <=? vm_start b).
    + rewrite elem_of_cons. reflexivity.
    + rewrite !elem_of_cons, IH. tauto.
Qed.

Lemma list_head_sort_elem l x : x ∈ list_head_sort l <-> x ∈ l.
Proof.
  induction l as [| a l IH]; simpl; [reflexivity |].
  rewrite vm_area_insert_elem, elem_of_cons, IH. reflexivity.
Qed.

(** The segments of a list that is pairwise disjoint, on either side of a
    place. *)
Lemma pairwise_disjoint_app l1 l2 :
  pairwise_disjoint (l1 ++ l2) ->
  pairwise_disjoint l1 /\ pairwise_disjoint l2
  /\ forall a b, a ∈ l1 -> b ∈ l2 -> vma_disjoint a b.
Proof.
  induction l1 as [| c l1 IH]; simpl; intros H.
  - split; [exact I |]. split; [exact H |]. intros a b Ha. inversion Ha.
  - destruct H as [Hc Hrest]. apply Forall_app in Hc as [Hc1 Hc2].
    destruct (IH Hrest) as (H1 & H2 & H12).
    split; [split; assumption |]. split; [exact H2 |].
    intros a b Ha Hb. apply elem_of_cons in Ha as [-> | Ha].
    + rewrite Forall_forall in Hc2. apply Hc2. exact Hb.
    + apply H12; assumption.
Qed.

Lemma find_free_vm_area_loop_Some length0 l s :
  find_free_vm_area_loop length0 l = Some s ->
  exists l1 area prev_area l2,
    l = l1 ++ area :: prev_area :: l2
    /\ length0 <= u32 (vm_start area - vm_end prev_area)
    /\ s = u32 (vm_start area - length0).
Proof.
  induction l as [| area rest IH]; intros H; simpl in H; [discriminate |].
  destruct rest as [| prev_area l2]; [discriminate |].
  destruct (Z.leb_spec length0 (u32 (vm_start area - vm_end prev_area))) as [Hle | Hgt].
  - inversion H; subst. exists [], area, prev_area, l2. repeat split. exact Hle.
  - destruct (IH H) as (l1 & a & pa & l2' & Hl & Hle & Hs).
    exists (area :: l1), a, pa, l2'. rewrite Hl. repeat split; assumption.
Qed.

(** X13.  In a descriptor whose areas are non-empty, sorted and pairwise
    disjoint, the address [find_free_vm_area] returns is that of a gap:
    the range of [length] bytes from it ends where some area starts, lies
    in the address space and meets no area; when [length] is positive,
    [is_valid_vm_area] accepts it. *)
Theorem find_free_vm_area_gap mm length0 s :
  Forall vma_wf (mmap_list mm) -> Forall vma_in_range (mmap_list mm) ->
  sorted_by_start (mmap_list mm) -> pairwise_disjoint (mmap_list mm) ->
  0 <= length0 ->
  find_free_vm_area mm length0 = Some s ->
  0 <= s /\ s + length0 < 2 ^ 32
  /\ (exists area, area ∈ mmap_list mm /\ vm_start area = s + length0)
  /\ Forall (fun a => s + length0 <= vm_start a \/ vm_end a <= s) (mmap_list mm)
  /\ (0 < length0 -> is_valid_vm_area mm s (s + length0) = 1).
Proof.
  intros Hwf Hrange Hsorted Hdisj Hlen Hfind. unfold find_free_vm_area in Hfind.
  pose proof Hwf as Hwfall.
  apply find_free_vm_area_loop_Some in Hfind as (r1 & area & prev & r2 & Hrev & Hfits & Hs).
  assert (Hlist : mmap_list mm = (rev r2 ++ [prev]) ++ area :: rev r1).
  { rewrite <- (rev_involutive (mmap_list mm)), Hrev.
    rewrite rev_app_distr. simpl. rewrite <- !app_assoc. reflexivity. }
  rewrite Hlist in Hwf, Hrange, Hsorted, Hdisj, Hwfall |- *. clear Hrev.
  unfold sorted_by_start in Hsorted.
  apply StronglySorted_app in Hsorted as (Hcross & Hlow & Hhigh).
  apply StronglySorted_inv in Hhigh as [_ Habove].
  apply pairwise_disjoint_app in Hdisj as (Hdlow & Hdhigh & Hdcross).
  apply pairwise_disjoint_app in Hdlow as (_ & _ & Hdprev).
  apply Forall_app in Hwf as [Hwflow Hwfhigh].
  apply Forall_app in Hwflow as [Hwflow Hwfprev].
  apply Forall_cons in Hwfprev as [Hwfprev _].
  apply Forall_cons in Hwfhigh as [Hwfarea Hwfhigh].
  apply Forall_app in Hrange as [Hrlow Hrhigh].
  apply Forall_app in Hrlow as [Hrlow Hrprev].
  apply Forall_cons in Hrprev as [Hrprev _].
  apply Forall_cons in Hrhigh as [Hrarea Hrhigh].
  unfold vma_wf, vma_in_range in Hwfprev, Hwfarea, Hrprev, Hrarea.
  assert (Hgap : vm_end prev <= vm_start area).
  { assert (Hd : vma_disjoint prev area).
    { apply Hdcross; [apply elem_of_app; right; apply list_elem_of_here
                     | apply list_elem_of_here]. }
    assert (Hle : vma_le prev area).
    { apply Hcross; [apply elem_of_app; right; apply list_elem_of_here
                    | apply list_elem_of_here]. }
    unfold vma_disjoint, vma_le in *. lia. }
  rewrite u32_small in Hfits by lia.
  rewrite u32_small in Hs by lia. subst s.
  assert (Hfree : Forall (fun a => vm_start area - length0 + length0 <= vm_start a
                                   \/ vm_end a <= vm_start area - length0)
                    ((rev r2 ++ [prev]) ++ area :: rev r1)).
  { apply Forall_app. split; [apply Forall_app; split |].
    - rewrite Forall_forall. intros c Hc. right.
      assert (Hd : vma_disjoint c prev) by (apply Hdprev; [exact Hc | apply list_elem_of_here]).
      assert (Hle : vma_le c prev).
      { apply StronglySorted_app in Hlow as (Hc2 & _ & _).
        apply Hc2; [exact Hc | apply list_elem_of_here]. }
      rewrite Forall_forall in Hwflow. specialize (Hwflow c Hc).
      unfold vma_disjoint, vma_le, vma_wf in *. lia.
    - constructor; [right; lia | constructor].
    - constructor; [left; lia |].
      rewrite Forall_forall in *. intros c Hc. left.
      specialize (Habove c Hc). unfold vma_le in Habove. lia. }
  split; [lia |]. split; [lia |]. split.
  - exists area. split; [| lia].
    apply elem_of_app. right. apply list_elem_of_here.
  - split; [exact Hfree |].
    intros Hpos. unfold is_valid_vm_area.
    destruct (Z.leb_spec (vm_start area - length0 + length0) (vm_start area - length0))
      as [Hle | _]; [lia |].
    apply is_valid_vm_area_loop_accepts, List.Forall_rev. rewrite Hlist.
    rewrite Forall_forall in *. intros c Hc.
    specialize (Hfree c Hc). specialize (Hwfall c Hc). unfold vma_wf in Hwfall. lia.
Qed.

Section Memory.

(** The page-frame allocator: [_alloc_pages(gfp, order)] returns the
    index of the first descriptor of the block, or NULL; [__free_pages]
    gives the block back. *)
Variable _alloc_pages : gmap Z page_t -> Z -> Z -> option (Z * gmap Z page_t).
Variable __free_pages : gmap Z page_t -> Z -> gmap Z page_t.
(** [kmem_cache_alloc(pgtbl_cache, GFP_KERNEL)], as the frame number of the
    new table, or NULL; the constructor [__init_pagetable] clears it. *)
Variable pgtbl_alloc : gmap Z (gmap Z page_table_entry_t) -> option Z.
(** [virt_memcpy] of [mem/vmem_map.h]: what it leaves in the frames. *)
Variable virt_memcpy : kernel -> Z -> Z -> Z -> Z -> Z -> gmap Z (list Z).
(** [virtual_check_address]: the address lies in the window of transient
    mappings. *)
Variable virtual_check_address : Z -> bool.
(** The address of [table->pages[i]] as a 32-bit word, and the entry a
    word points to. *)
Variable pte_address : Z -> Z -> Z.
Variable pte_at_address : Z -> option (Z * Z).
Variable GFP_HIGHUSER : Z.
(** What a field holds that the code never initialises. *)
Variable uninitialised : Z.

(** [__page_handle_cow]; the entry is [table->pages[i]].  The page is
    cleared through a transient mapping ([virt_map_physical_pages],
    [memset], [virt_unmap]). *)
Definition __page_handle_cow (table i : Z) (k : kernel) : result (Z * kernel) :=
  let entry := get_pte k table i in
  if kernel_cow entry then
    let entry := pte_set_cow entry false in
    let k := set_pte table i entry k in
    if negb (present entry) then
      r ← deref (_alloc_pages (mem_map k) GFP_HIGHUSER 0);
      let page := fst r in
      let k := set_mem_map (snd r) k in
      let k := set_frames (<[page := zero_page]> (frames k)) k in
      let entry := pte_set_frame entry (Z.shiftr (get_physical_address_from_page page) 12) in
      let entry := pte_set_present entry true in
      Ok (0, set_pte table i entry k)
    else Ok (1, k)
  else Ok (1, k).

(** [__mem_pg_entry_alloc]; the entry is [dir->entries[i]]. *)
Definition __mem_pg_entry_alloc (dir i : Z) (flags : Z) (k : kernel) : result (Z * kernel) :=
  let entry := get_pde k dir i in
  if negb (pde_present entry) then
    let entry := {| pde_present := true; pde_rw := true;
                    pde_user := flag flags MM_USER; pde_accessed := false;
                    pde_global := flag flags MM_GLOBAL; pde_available := 1;
                    pde_frame := pde_frame entry |} in
    let k := set_pde dir i entry k in
    t ← deref (pgtbl_alloc (pgtables k));
    Ok (t, set_pgtables (<[t := ∅]> (pgtables k)) k)
  else
    if pde_global entry && negb (flag flags MM_GLOBAL) then Panic
    else
      let entry := {| pde_present := pde_present entry || flag flags MM_PRESENT;
                      pde_rw := pde_rw entry || flag flags MM_RW;
                      pde_user := pde_user entry || flag flags MM_USER;
                      pde_accessed := pde_accessed entry;
                      pde_global := pde_global entry && flag flags MM_GLOBAL;
                      pde_available := pde_available entry;
                      pde_frame := pde_frame entry |} in
      Ok (pde_frame entry, set_pde dir i entry k).

(** [__set_pg_entry_frame]. *)
Definition __set_pg_entry_frame (dir i : Z) (table : Z) (k : kernel) : kernel :=
  let entry := get_pde k dir i in
  set_pde dir i {| pde_present := pde_present entry; pde_rw := pde_rw entry;
                   pde_user := pde_user entry; pde_accessed := pde_accessed entry;
                   pde_global := pde_global entry;
                   pde_available := pde_available entry;
                   pde_frame := table |} k.

(** [__pg_iter_init]. *)
Definition __pg_iter_init (dir : Z) (addr_start size flags : Z) (k : kernel)
    : result (page_iterator_t * kernel) :=
  let start_pfn := addr_start / PAGE_SIZE in
  let end_pfn := u32 (addr_start + size + PAGE_SIZE - 1) / PAGE_SIZE in
  let base_pgt := start_pfn / 1024 in
  r ← __mem_pg_entry_alloc dir base_pgt flags k;
  Ok (mk_iter dir base_pgt (fst r) start_pfn end_pfn flags,
      __set_pg_entry_frame dir base_pgt (fst r) (snd r)).

(** [__pg_iter_has_next]. *)
Definition __pg_iter_has_next (iter : page_iterator_t) : bool :=
  it_pfn iter <? it_last_pfn iter.

(** [__pg_iter_next].  A page directory is aligned to a page, so the
    pointer [++iter->entry] is a multiple of 4096 exactly when the index
    it reaches is a multiple of 1024. *)
Definition __pg_iter_next (iter : page_iterator_t) (k : kernel)
    : result (pg_iter_entry_t * page_iterator_t * kernel) :=
  let result := mk_iter_entry (it_table iter) (it_pfn iter mod 1024) (it_pfn iter) in
  let pfn := u32 (it_pfn iter + 1) in
  if pfn mod 1024 =? 0 then
    if negb (pfn =? it_last_pfn iter) then
      let entry := it_entry iter + 1 in
      if negb (entry mod 1024 =? 0) then
        r ← __mem_pg_entry_alloc (it_dir iter) entry (it_flags iter) k;
        Ok (result,
            mk_iter (it_dir iter) entry (fst r) pfn (it_last_pfn iter) (it_flags iter),
            __set_pg_entry_frame (it_dir iter) entry (fst r) (snd r))
      else
        Ok (result,
            mk_iter (it_dir iter) entry (it_table iter) pfn (it_last_pfn iter) (it_flags iter),
            k)
    else
      Ok (result,
          mk_iter (it_dir iter) (it_entry iter) (it_table iter) pfn (it_last_pfn iter) (it_flags iter),
          k)
  else
    Ok (result,
        mk_iter (it_dir iter) (it_entry iter) (it_table iter) pfn (it_last_pfn iter) (it_flags iter),
        k).

(** [mem_virtual_to_page]: the page and the updated [*size]. *)
Definition mem_virtual_to_page (k : kernel) (dir : Z) (virt_start size : Z) : Z * Z :=
  let virt_pfn := virt_start / PAGE_SIZE in
  let virt_pgt := virt_pfn / 1024 in
  let virt_pgt_offset := virt_pfn mod 1024 in
  let pgd_page := pde_frame (get_pde k dir virt_pgt) in
  let pfn := frame (get_pte k pgd_page virt_pgt_offset) in
  let page := pfn in
  let pfn_count := u32 (2 ^ page_order k page) in
  let bytes_count := u32 (pfn_count * PAGE_SIZE) in
  (page, Z.min size bytes_count).

(** The body of the [while] loop of [mem_upd_vm_area] once the iterator
    has moved: the next value of [phy_pfn], and the memory. *)
Definition mem_upd_vm_area_body (flags : Z) (it : pg_iter_entry_t) (phy_pfn : Z)
    (k : kernel) : Z * kernel :=
  let entry := get_pte k (ie_table it) (ie_index it) in
  if flag flags MM_UPDADDR then
    let entry := pte_set_frame entry phy_pfn in
    let k := paging_flush_tlb_single (u32 (ie_pfn it * PAGE_SIZE)) k in
    (u32 (phy_pfn + 1),
     set_pte (ie_table it) (ie_index it) (__set_pg_table_flags entry flags) k)
  else
    (phy_pfn, set_pte (ie_table it) (ie_index it) (__set_pg_table_flags entry flags) k).

(** The [while] loop of [mem_upd_vm_area], at most [n] rounds of it; the
    iterator is returned with the memory. *)
Fixpoint mem_upd_vm_area_loop (n : nat) (flags : Z) (iter : page_iterator_t)
    (phy_pfn : Z) (k : kernel) : result (page_iterator_t * kernel) :=
  match n with
  | O => Ok (iter, k)
  | S n' =>
      if __pg_iter_has_next iter then
        r ← __pg_iter_next iter k;
        let b := mem_upd_vm_area_body flags (fst (fst r)) phy_pfn (snd r) in
        mem_upd_vm_area_loop n' flags (snd (fst r)) (fst b) (snd b)
      else Ok (iter, k)
  end.

(** The number of rounds the loops over an iterator can take. *)
Definition iter_rounds (iter : page_iterator_t) : nat :=
  Z.to_nat (it_last_pfn iter - it_pfn iter).

(** [mem_upd_vm_area]. *)
Definition mem_upd_vm_area (dir : Z) (virt_start phy_start size flags : Z) (k : kernel)
    : result kernel :=
  r ← __pg_iter_init dir virt_start size flags k;
  let phy_pfn := phy_start / PAGE_SIZE in
  r' ← mem_upd_vm_area_loop (iter_rounds (fst r)) flags (fst r) phy_pfn (snd r);
  Ok (snd r').

(** The [while] loop of [mem_clone_vm_area]. *)
Fixpoint mem_clone_vm_area_loop (n : nat) (flags : Z)
    (src_iter dst_iter : page_iterator_t) (k : kernel) : result kernel :=
  match n with
  | O => Ok k
  | S n' =>
      if __pg_iter_has_next src_iter && __pg_iter_has_next dst_iter then
        rs ← __pg_iter_next src_iter k;
        rd ← __pg_iter_next dst_iter (snd rs);
        let src_it := fst (fst rs) in
        let dst_it := fst (fst rd) in
        let k := snd rd in
        let src_entry := get_pte k (ie_table src_it) (ie_index src_it) in
        let dst_entry := get_pte k (ie_table dst_it) (ie_index dst_it) in
        let dst_entry :=
          if kernel_cow src_entry then
            pte_set_present
              (pte_of_word (u32 (pte_address (ie_table src_it) (ie_index src_it)))) false
          else
            __set_pg_table_flags (pte_set_frame dst_entry (frame src_entry)) flags in
        let k := set_pte (ie_table dst_it) (ie_index dst_it) dst_entry k in
        let k := paging_flush_tlb_single (u32 (ie_pfn dst_it * PAGE_SIZE)) k in
        mem_clone_vm_area_loop n' flags (snd (fst rs)) (snd (fst rd)) k
      else Ok k
  end.

(** [mem_clone_vm_area]. *)
Definition mem_clone_vm_area (src_pgd dst_pgd : Z) (src_start dst_start size flags : Z)
    (k : kernel) : result kernel :=
  rs ← __pg_iter_init src_pgd src_start size flags k;
  rd ← __pg_iter_init dst_pgd dst_start size flags (snd rs);
  mem_clone_vm_area_loop (iter_rounds (fst rs)) flags (fst rs) (fst rd) (snd rd).

(** [create_vm_area].  The slab object of the segment is taken as given:
    the code does not test what [kmem_cache_alloc] returns, and it leaves
    [vm_flags] as it found it. *)
Definition create_vm_area (mmp : Z) (vm_start0 size pgflags gfpflags : Z) (k : kernel)
    : result (vm_area_struct_t * kernel) :=
  mm ← deref (mms k !! mmp);
  let vm_end0 := u32 (vm_start0 + size) in
  if is_valid_vm_area mm vm_start0 vm_end0 <=? 0 then Panic
  else
    let order := find_nearest_order_greater vm_start0 size in
    r ← (if flag pgflags MM_COW then
           Ok (Z.land pgflags (Z.lnot (Z.lor MM_PRESENT MM_UPDADDR)), 0, k)
         else
           a ← deref (_alloc_pages (mem_map k) gfpflags order);
           Ok (Z.lor pgflags MM_UPDADDR, get_physical_address_from_page (fst a),
               set_mem_map (snd a) k));
    let pgflags := fst (fst r) in
    let phy_start := snd (fst r) in
    k ← mem_upd_vm_area (pgd mm) vm_start0 phy_start size pgflags (snd r);
    let segment := {| vm_mm := mmp; vm_start := vm_start0; vm_end := vm_end0;
                      vm_flags := uninitialised |} in
    let mm := {| mmap_list := list_head_sort (segment :: mmap_list mm);
                 mmap_cache := Some segment;
                 pgd := pgd mm;
                 map_count := map_count mm + 1;
                 total_vm := u32 (total_vm mm + u32 (2 ^ order));
                 start_stack := start_stack mm |} in
    Ok (segment, set_mms (<[mmp := mm]> (mms k)) k).

(** [clone_vm_area]; [area] is the area to copy, [area->vm_mm] its owner. *)
Definition clone_vm_area (mmp : Z) (area : vm_area_struct_t) (cow : bool) (gfpflags : Z)
    (k : kernel) : result (Z * kernel) :=
  mm ← deref (mms k !! mmp);
  let new_segment := {| vm_mm := mmp; vm_start := vm_start area;
                        vm_end := vm_end area; vm_flags := vm_flags area |} in
  let size := u32 (vm_end new_segment - vm_start new_segment) in
  let order := find_nearest_order_greater (vm_start area) size in
  src_mm ← deref (mms k !! vm_mm area);
  k ← (if negb cow then
         a ← deref (_alloc_pages (mem_map k) gfpflags order);
         let phy_vm_start := get_physical_address_from_page (fst a) in
         k ← mem_upd_vm_area (pgd mm) (vm_start new_segment) phy_vm_start size
               (Z.lor MM_RW (Z.lor MM_PRESENT (Z.lor MM_UPDADDR MM_USER)))
               (set_mem_map (snd a) k);
         Ok (set_frames (virt_memcpy k mmp (vm_start area) (vm_mm area) (vm_start area) size) k)
       else
         k ← mem_upd_vm_area (pgd src_mm) (vm_start area) 0 size
               (Z.lor MM_COW (Z.lor MM_PRESENT MM_USER)) k;
         mem_clone_vm_area (pgd src_mm) (pgd mm) (vm_start area)
           (vm_start new_segment) size
           (Z.lor MM_COW (Z.lor MM_PRESENT (Z.lor MM_UPDADDR MM_USER))) k);
  let mm := {| mmap_list := new_segment :: mmap_list mm;
               mmap_cache := Some new_segment;
               pgd := pgd mm;
               map_count := map_count mm + 1;
               total_vm := u32 (total_vm mm + u32 (2 ^ order));
               start_stack := start_stack mm |} in
  Ok (0, set_mms (<[mmp := mm]> (mms k)) k).

(** The [while] loop of [destroy_vm_area], at most [n] rounds of it. *)
Fixpoint destroy_vm_area_loop (n : nat) (dir : Z) (area_total_size area_start : Z)
    (k : kernel) : result kernel :=
  if 0 <? area_total_size then
    match n with
    | O => Hang
    | S n' =>
        let r := mem_virtual_to_page k dir area_start area_total_size in
        let phy_page := fst r in
        let area_size := snd r in
        let k :=
          if 1 <? page_count k phy_page then
            let block_size := u32 (2 ^ page_order k phy_page) in
            foldl (fun k i => page_dec (phy_page + i) k) k (seqZ 0 block_size)
          else set_mem_map (__free_pages (mem_map k) phy_page) k in
        destroy_vm_area_loop n' dir (u32 (area_total_size - area_size))
          (u32 (area_start + area_size)) k
    end
  else Ok k.

(** [destroy_vm_area]; the area is the [i]-th of the list of [mm].  A
    block is at least a page long, so the loop takes no more rounds than
    the area has pages, plus one for a size that is not a multiple. *)
Definition destroy_vm_area (mmp : Z) (i : nat) (k : kernel) : result (Z * kernel) :=
  mm ← deref (mms k !! mmp);
  area ← deref (mmap_list mm !! i);
  let area_total_size := u32 (vm_end area - vm_start area) in
  k ← destroy_vm_area_loop (Z.to_nat (area_total_size / PAGE_SIZE + 1)) (pgd mm)
        area_total_size (vm_start area) k;
  let mm := {| mmap_list := delete i (mmap_list mm);
               mmap_cache := mmap_cache mm;
               pgd := pgd mm;
               map_count := map_count mm - 1;
               total_vm := total_vm mm;
               start_stack := start_stack mm |} in
  Ok (0, set_mms (<[mmp := mm]> (mms k)) k).

(** [sys_munmap]; [task_mm] is [scheduler_get_current_process()->mm]. *)
Definition sys_munmap (task_mm : Z) (addr length : Z) (k : kernel) : result (Z * kernel) :=
  mm ← deref (mms k !! task_mm);
  match find_prev (fun segment =>
                     (addr =? vm_start segment)
                     && (length =? u32 (vm_end segment - vm_start segment)))
                  (mmap_list mm) with
  | Some i =>
      r ← destroy_vm_area task_mm i k;
      Ok (0, snd r)
  | None => Ok (1, k)
  end.

(** How [page_fault_handler] ends when it does not panic: it returns
    after the TLB flush, or it has sent [SIGSEGV] to the process [pid] and
    left through [scheduler_run]. *)
Inductive fault_outcome : Type :=
| Resolved (k : kernel)
| Signalled (pid : Z) (k : kernel).

(** [page_fault_handler]: [faulting_addr] is [cr2], [err_code] the error
    code of the frame, [cur_dir] the current page directory and [task] the
    pid of the current process, if there is one. *)
Definition page_fault_handler (faulting_addr err_code : Z) (cur_dir : Z)
    (task : option Z) (k : kernel) : result fault_outcome :=
  let direntry := get_pde k cur_dir (faulting_addr / (1024 * PAGE_SIZE)) in
  let err_user := bit_check err_code 2 in
  let err_rw := bit_check err_code 1 in
  let err_present := bit_check err_code 0 in
  if negb (pde_present direntry) then
    if err_user then
      match task with
      | Some pid => Ok (Signalled pid k)
      | None => Panic
      end
    else Panic
  else
    let table := pde_frame direntry in
    let table_index := (faulting_addr / PAGE_SIZE) mod 1024 in
    if virtual_check_address faulting_addr then
      orig ← deref (pte_at_address (word_of_pte (get_pte k table table_index)));
      r ← __page_handle_cow (fst orig) (snd orig) k;
      if negb (fst r =? 0) then Panic
      else
        let k := snd r in
        let entry := pte_set_frame (get_pte k table table_index)
                       (frame (get_pte k (fst orig) (snd orig))) in
        let entry := __set_pg_table_flags entry
                       (Z.lor MM_PRESENT (Z.lor MM_RW (Z.lor MM_GLOBAL
                          (Z.lor MM_COW MM_UPDADDR)))) in
        Ok (Resolved (paging_flush_tlb_single faulting_addr
                        (set_pte table table_index entry k)))
    else
      r ← __page_handle_cow table table_index k;
      if negb (fst r =? 0) then
        if err_user && err_rw && err_present then
          match task with
          | Some pid => Ok (Signalled pid (snd r))
          | None => Panic
          end
        else Panic
      else Ok (Resolved (paging_flush_tlb_single faulting_addr (snd r))).

(** [sys_mmap]; [task_mm] is [scheduler_get_current_process()->mm].  The
    test of the hint takes whatever [is_valid_vm_area] returns that is not
    0 for a yes.  [task->mm->mmap_cache] is the segment just created, which
    [list_head_sort] has put at its place in the list: the flags are
    written there.  The result is the address returned, 0 for NULL. *)
Definition sys_mmap (task_mm : Z) (addr length0 prot flags fd offset : Z) (k : kernel)
    : result (Z * kernel) :=
  mm ← deref (mms k !! task_mm);
  let hint :=
    negb (addr =? 0)
    && negb (is_valid_vm_area mm addr (u32 (addr + length0)) =? 0) in
  match (if hint then Some addr else find_free_vm_area mm length0) with
  | None => Ok (0, k)
  | Some vm_start0 =>
      r ← create_vm_area task_mm vm_start0 length0
            (Z.lor MM_PRESENT (Z.lor MM_RW (Z.lor MM_COW MM_USER))) GFP_HIGHUSER k;
      let segment := fst r in
      let k := snd r in
      mm ← deref (mms k !! task_mm);
      let mm := {| mmap_list :=
                     <[vm_area_position segment (mmap_list mm) := set_vm_flags flags segment]>
                       (mmap_list mm);
                   mmap_cache := Some (set_vm_flags flags segment);
                   pgd := pgd mm;
                   map_count := map_count mm;
                   total_vm := total_vm mm;
                   start_stack := start_stack mm |} in
      Ok (vm_start segment, set_mms (<[task_mm := mm]> (mms k)) k)
  end.

(** [kmem_cache_alloc(mm_cache, GFP_KERNEL)] and
    [kmem_cache_alloc(pgdir_cache, GFP_KERNEL)]: the address of the new
    object, or NULL. *)
Variable mm_alloc : gmap Z mm_struct_t -> option Z.
Variable pgdir_alloc : gmap Z (gmap Z page_dir_entry_t) -> option Z.
(** The address of the descriptor [main_mm] of the kernel, and
    [PROCAREA_END_ADDR] of [mem/paging.h]. *)
Variable main_mm : Z.
Variable PROCAREA_END_ADDR : Z.

(** [paging_get_main_directory]. *)
Definition paging_get_main_directory (k : kernel) : result Z :=
  mm ← deref (mms k !! main_mm);
  Ok (pgd mm).

(** [create_blank_process_image]: a cleared descriptor, a copy of the main
    directory, and the stack as its only area. *)
Definition create_blank_process_image (stack_size : Z) (k : kernel) : result (Z * kernel) :=
  mmp ← deref (mm_alloc (mms k));
  pdir_cpy ← deref (pgdir_alloc (pgdirs k));
  main_dir ← paging_get_main_directory k;
  let mm := {| mmap_list := []; mmap_cache := None; pgd := pdir_cpy;
               map_count := 0; total_vm := 0; start_stack := 0 |} in
  let k := set_pgdirs (<[pdir_cpy := default ∅ (pgdirs k !! main_dir)]> (pgdirs k))
             (set_mms (<[mmp := mm]> (mms k)) k) in
  r ← create_vm_area mmp (u32 (PROCAREA_END_ADDR - stack_size)) stack_size
        (Z.lor MM_PRESENT (Z.lor MM_RW (Z.lor MM_USER MM_COW))) GFP_HIGHUSER k;
  let segment := fst r in
  let k := snd r in
  mm ← deref (mms k !! mmp);
  let mm := {| mmap_list := mmap_list mm; mmap_cache := mmap_cache mm; pgd := pgd mm;
               map_count := map_count mm; total_vm := total_vm mm;
               start_stack := vm_start segment |} in
  Ok (mmp, set_mms (<[mmp := mm]> (mms k)) k).

(** The loop of [clone_process_image] over the areas of the source. *)
Fixpoint clone_areas (mmp : Z) (l : list vm_area_struct_t) (k : kernel) : result kernel :=
  match l with
  | [] => Ok k
  | vm_area :: rest =>
      r ← clone_vm_area mmp vm_area false GFP_HIGHUSER k;
      clone_areas mmp rest (snd r)
  end.

(** [clone_process_image].  The descriptor the slab hands out is a new
    object, so the list the loop walks is that of [mmp] as it is at the
    call. *)
Definition clone_process_image (mmp : Z) (k : kernel) : result (Z * kernel) :=
  mm_new ← deref (mm_alloc (mms k));
  src ← deref (mms k !! mmp);
  pdir_cpy ← deref (pgdir_alloc (pgdirs k));
  main_dir ← paging_get_main_directory k;
  let mm := {| mmap_list := []; mmap_cache := mmap_cache src; pgd := pdir_cpy;
               map_count := 0; total_vm := 0; start_stack := start_stack src |} in
  let k := set_pgdirs (<[pdir_cpy := default ∅ (pgdirs k !! main_dir)]> (pgdirs k))
             (set_mms (<[mm_new := mm]> (mms k)) k) in
  k ← clone_areas mm_new (mmap_list src) k;
  Ok (mm_new, k).

(** Keep, of the external functions, those that the statement names. *)
Ltac forget_unused := repeat match goal with x : _ |- _ => clear x end.

(** ** The page-table routines leave the memory descriptors alone *)

Lemma mem_pg_entry_alloc_mms dir i flags k t k' :
  __mem_pg_entry_alloc dir i flags k = Ok (t, k') ->
  mms k' = mms k /\ mem_map k' = mem_map k.
Proof.
  unfold __mem_pg_entry_alloc. intros H.
  destruct (negb (pde_present (get_pde k dir i))).
  - apply bind_Ok in H as (t' & _ & H). inversion H; subst. split; reflexivity.
  - destruct (pde_global (get_pde k dir i) && negb (flag flags MM_GLOBAL));
      [discriminate |].
    inversion H; subst. split; reflexivity.
Qed.

Lemma pg_iter_init_mms dir addr size flags k iter k' :
  __pg_iter_init dir addr size flags k = Ok (iter, k') ->
  mms k' = mms k /\ mem_map k' = mem_map k.
Proof.
  unfold __pg_iter_init. intros H.
  apply bind_Ok in H as ([t k1] & Halloc & H). inversion H; subst.
  apply mem_pg_entry_alloc_mms in Halloc. exact Halloc.
Qed.

Lemma pg_iter_next_mms iter k it iter' k' :
  __pg_iter_next iter k = Ok (it, iter', k') ->
  mms k' = mms k /\ mem_map k' = mem_map k.
Proof.
  unfold __pg_iter_next. intros H.
  destruct (u32 (it_pfn iter + 1) mod 1024 =? 0);
    [destruct (negb (u32 (it_pfn iter + 1) =? it_last_pfn iter));
     [destruct (negb ((it_entry iter + 1) mod 1024 =? 0)) |] |].
  - apply bind_Ok in H as ([t k1] & Halloc & H). inversion H; subst.
    apply mem_pg_entry_alloc_mms in Halloc. exact Halloc.
  - inversion H; subst. split; reflexivity.
  - inversion H; subst. split; reflexivity.
  - inversion H; subst. split; reflexivity.
Qed.

Lemma mem_upd_vm_area_loop_mms n flags : forall iter phy_pfn k iter' k',
  mem_upd_vm_area_loop n flags iter phy_pfn k = Ok (iter', k') ->
  mms k' = mms k /\ mem_map k' = mem_map k.
Proof.
  induction n as [| n IH]; intros iter phy_pfn k iter' k' H; simpl in H.
  - inversion H; subst. split; reflexivity.
  - destruct (__pg_iter_has_next iter).
    + apply bind_Ok in H as ([[it iter1] k1] & Hnext & H).
      apply pg_iter_next_mms in Hnext as [Hm1 Hp1].
      apply IH in H as [Hm Hp]. unfold mem_upd_vm_area_body in Hm, Hp. simpl in Hm, Hp.
      destruct (flag flags MM_UPDADDR); simpl in Hm, Hp;
        (split; [rewrite Hm; exact Hm1 | rewrite Hp; exact Hp1]).
    + inversion H; subst. split; reflexivity.
Qed.

Lemma mem_upd_vm_area_mms dir virt_start phy_start size flags k k' :
  mem_upd_vm_area dir virt_start phy_start size flags k = Ok k' ->
  mms k' = mms k /\ mem_map k' = mem_map k.
Proof.
  unfold mem_upd_vm_area. intros H.
  apply bind_Ok in H as ([iter k1] & Hinit & H).
  apply bind_Ok in H as ([iter2 k2] & Hloop & H). inversion H; subst.
  apply pg_iter_init_mms in Hinit as [Hm1 Hp1].
  apply mem_upd_vm_area_loop_mms in Hloop as [Hm2 Hp2]. simpl in *.
  split; congruence.
Qed.

Lemma pg_iter_next_pfn iter k it iter' k' :
  __pg_iter_next iter k = Ok (it, iter', k') ->
  it_pfn iter' = u32 (it_pfn iter + 1) /\ it_last_pfn iter' = it_last_pfn iter.
Proof.
  unfold __pg_iter_next. intros H.
  destruct (u32 (it_pfn iter + 1) mod 1024 =? 0);
    [destruct (negb (u32 (it_pfn iter + 1) =? it_last_pfn iter));
     [destruct (negb ((it_entry iter + 1) mod 1024 =? 0)) |] |].
  - apply bind_Ok in H as ([t k1] & _ & H). inversion H; subst. split; reflexivity.
  - inversion H; subst. split; reflexivity.
  - inversion H; subst. split; reflexivity.
  - inversion H; subst. split; reflexivity.
Qed.

(** The rounds given to the loop of [mem_upd_vm_area] are enough: when it
    returns, the iterator has no next entry, as when the [while] ends. *)
Lemma mem_upd_vm_area_loop_exhausts n flags : forall iter phy_pfn k iter' k',
  0 <= it_pfn iter -> it_last_pfn iter < 2 ^ 32 ->
  it_last_pfn iter - it_pfn iter <= Z.of_nat n ->
  mem_upd_vm_area_loop n flags iter phy_pfn k = Ok (iter', k') ->
  __pg_iter_has_next iter' = false.
Proof.
  induction n as [| n IH]; intros iter phy_pfn k iter' k' Hpfn Hlast Hfuel H;
    simpl in H; unfold __pg_iter_has_next in *.
  - inversion H; subst. apply Z.ltb_ge. lia.
  - destruct (Z.ltb_spec (it_pfn iter) (it_last_pfn iter)) as [Hlt | Hge].
    + apply bind_Ok in H as ([[it iter1] k1] & Hnext & H). simpl in H.
      apply pg_iter_next_pfn in Hnext as [Hp Hl].
      rewrite u32_small in Hp by lia.
      apply IH in H; [exact H | lia | lia | lia].
    + inversion H; subst. apply Z.ltb_ge. lia.
Qed.

Lemma mem_clone_vm_area_loop_mms n flags : forall src_iter dst_iter k k',
  mem_clone_vm_area_loop n flags src_iter dst_iter k = Ok k' ->
  mms k' = mms k.
Proof.
  induction n as [| n IH]; intros src_iter dst_iter k k' H; simpl in H.
  - inversion H; subst. reflexivity.
  - destruct (__pg_iter_has_next src_iter && __pg_iter_has_next dst_iter).
    + apply bind_Ok in H as ([[its iters] ks] & Hs & H).
      apply bind_Ok in H as ([[itd iterd] kd] & Hd & H).
      apply pg_iter_next_mms in Hs as [Hs _]. apply pg_iter_next_mms in Hd as [Hd _].
      apply IH in H. simpl in H. simpl in Hd. congruence.
    + inversion H; subst. reflexivity.
Qed.

Lemma mem_clone_vm_area_mms src_pgd dst_pgd src_start dst_start size flags k k' :
  mem_clone_vm_area src_pgd dst_pgd src_start dst_start size flags k = Ok k' ->
  mms k' = mms k.
Proof.
  unfold mem_clone_vm_area. intros H.
  apply bind_Ok in H as ([iters ks] & Hs & H).
  apply bind_Ok in H as ([iterd kd] & Hd & H).
  apply pg_iter_init_mms in Hs as [Hs _]. apply pg_iter_init_mms in Hd as [Hd _].
  apply mem_clone_vm_area_loop_mms in H. simpl in *. congruence.
Qed.

(** ** Releasing the frames of an area *)

Lemma destroy_vm_area_loop_S n dir total start k :
  destroy_vm_area_loop (S n) dir total start k =
    if 0 <? total then
      let r := mem_virtual_to_page k dir start total in
      let k1 :=
        if 1 <? page_count k (fst r) then
          foldl (fun k i => page_dec (fst r + i) k) k
            (seqZ 0 (u32 (2 ^ page_order k (fst r))))
        else set_mem_map (__free_pages (mem_map k) (fst r)) k in
      destroy_vm_area_loop n dir (u32 (total - snd r)) (u32 (start + snd r)) k1
    else Ok k.
Proof. reflexivity. Qed.

Lemma destroy_vm_area_loop_total n : forall dir total start k,
  (forall m p, orders_ok m -> orders_ok (__free_pages m p)) ->
  0 <= total < 2 ^ 32 -> (0 < total -> total / PAGE_SIZE < Z.of_nat n) ->
  orders_ok (mem_map k) ->
  exists k', destroy_vm_area_loop n dir total start k = Ok k'
             /\ mms k' = mms k /\ orders_ok (mem_map k').
Proof.
  assert (HP : PAGE_SIZE = 4096) by reflexivity.
  induction n as [| n IH]; intros dir total start k Hfree Htotal Hfuel Hok.
  - simpl. destruct (Z.ltb_spec 0 total) as [Hpos | Hzero].
    + assert (0 <= total / PAGE_SIZE) by (apply Z.div_pos; lia). specialize (Hfuel Hpos). lia.
    + exists k. split; [reflexivity | split; [reflexivity | exact Hok]].
  - rewrite destroy_vm_area_loop_S. cbv zeta.
    destruct (Z.ltb_spec 0 total) as [Hpos | Hzero].
    + specialize (Hfuel Hpos).
      set (r := mem_virtual_to_page k dir start total).
      pose proof (block_bytes (page_order k (fst r)) (page_order_range k (fst r) Hok))
        as Hbytes.
      assert (Hsize : snd r = Z.min total (u32 (u32 (2 ^ page_order k (fst r)) * PAGE_SIZE)))
        by reflexivity.
      set (k1 := if 1 <? page_count k (fst r)
                 then foldl (fun k0 i => page_dec (fst r + i) k0) k
                        (seqZ 0 (u32 (2 ^ page_order k (fst r))))
                 else set_mem_map (__free_pages (mem_map k) (fst r)) k).
      assert (Hk1 : orders_ok (mem_map k1) /\ mms k1 = mms k).
      { unfold k1. destruct (1 <? page_count k (fst r)).
        - apply page_dec_fold_orders. exact Hok.
        - simpl. split; [apply Hfree; exact Hok | reflexivity]. }
      destruct Hk1 as [Hok1 Hm1].
      assert (Hle : 0 < snd r <= total) by lia.
      rewrite (u32_small (total - snd r)) by lia.
      destruct (IH dir (total - snd r) (u32 (start + snd r)) k1 Hfree) as (k' & Hrun & Hm & Hok');
        [lia | | exact Hok1 |].
      * intros Hrest.
        assert (PAGE_SIZE <= snd r) by lia.
        assert ((total - snd r) / PAGE_SIZE <= total / PAGE_SIZE - 1).
        { replace (total / PAGE_SIZE - 1) with ((total - PAGE_SIZE) / PAGE_SIZE).
          - apply Z.div_le_mono; lia.
          - replace (total - PAGE_SIZE) with (total + (-1) * PAGE_SIZE) by lia.
            rewrite Z.div_add by lia. lia. }
        lia.
      * exists k'. split; [exact Hrun | split; [congruence | exact Hok']].
    + exists k. split; [reflexivity | split; [reflexivity | exact Hok]].
Qed.

Lemma destroy_vm_area_loop_mms n : forall dir total start k k',
  destroy_vm_area_loop n dir total start k = Ok k' -> mms k' = mms k.
Proof.
  induction n as [| n IH]; intros dir total start k k' H.
  - simpl in H. destruct (0 <? total); [discriminate | inversion H; reflexivity].
  - rewrite destroy_vm_area_loop_S in H. cbv zeta in H.
    destruct (0 <? total); [| inversion H; reflexivity].
    apply IH in H. rewrite H.
    destruct (1 <? page_count k (fst (mem_virtual_to_page k dir start total))).
    + apply page_dec_fold_mms.
    + reflexivity.
Qed.

(** ** Sequences of operations *)

(** A sequence of operations on the areas of memory descriptors. *)
Inductive vm_op : Type :=
| OpCreate (mmp : Z) (vm_start0 size pgflags gfpflags : Z)
| OpClone (mmp : Z) (area : vm_area_struct_t) (cow : bool) (gfpflags : Z)
| OpDestroy (mmp : Z) (i : nat).

Definition op_target (op : vm_op) : Z :=
  match op with
  | OpCreate mmp _ _ _ _ => mmp
  | OpClone mmp _ _ _ => mmp
  | OpDestroy mmp _ => mmp
  end.

Definition apply_op (op : vm_op) (k : kernel) : result kernel :=
  match op with
  | OpCreate mmp vm_start0 size pgflags gfpflags =>
      r ← create_vm_area mmp vm_start0 size pgflags gfpflags k; Ok (snd r)
  | OpClone mmp area cow gfpflags =>
      r ← clone_vm_area mmp area cow gfpflags k; Ok (snd r)
  | OpDestroy mmp i =>
      r ← destroy_vm_area mmp i k; Ok (snd r)
  end.

Fixpoint run_ops (ops : list vm_op) (k : kernel) : result kernel :=
  match ops with
  | [] => Ok k
  | op :: ops' => k1 ← apply_op op k; run_ops ops' k1
  end.

(** What an operation does to the memory descriptor it is applied to. *)
Definition mm_effect (op : vm_op) (mm : mm_struct_t) : mm_struct_t :=
  match op with
  | OpCreate mmp vm_start0 size _ _ =>
      mm_after_create mm (mk_vma mmp vm_start0 (u32 (vm_start0 + size)) uninitialised)
        (find_nearest_order_greater vm_start0 size)
  | OpClone mmp area _ _ =>
      mm_after_clone mm (mk_vma mmp (vm_start area) (vm_end area) (vm_flags area))
        (find_nearest_order_greater (vm_start area) (u32 (vm_end area - vm_start area)))
  | OpDestroy _ i => mm_after_destroy mm i
  end.

(** What the code has checked when the operation returns. *)
Definition op_checked (op : vm_op) (mm : mm_struct_t) : Prop :=
  match op with
  | OpCreate _ vm_start0 size _ _ =>
      0 < is_valid_vm_area mm vm_start0 (u32 (vm_start0 + size))
  | OpClone _ _ _ _ => True
  | OpDestroy _ i => is_Some (mmap_list mm !! i)
  end.

(** The pages an operation adds to [total_vm]. *)
Definition op_pages (op : vm_op) : Z :=
  match op with
  | OpCreate _ vm_start0 size _ _ => 2 ^ find_nearest_order_greater vm_start0 size
  | OpClone _ area _ _ =>
      2 ^ find_nearest_order_greater (vm_start area) (u32 (vm_end area - vm_start area))
  | OpDestroy _ _ => 0
  end.

Definition pages_added (q : Z) (ops : list vm_op) : Z :=
  foldr (fun op n => (if decide (op_target op = q) then op_pages op else 0) + n) 0 ops.

(** Whether the list of [q] is known to be sorted after [ops], when [b]
    tells whether it was before: [create_vm_area] sorts it,
    [destroy_vm_area] keeps it as it is, [clone_vm_area] puts the copy
    first. *)
Fixpoint keeps_sorted (q : Z) (b : bool) (ops : list vm_op) : bool :=
  match ops with
  | [] => b
  | op :: ops' =>
      if decide (op_target op = q) then
        match op with
        | OpCreate _ _ _ _ _ => keeps_sorted q true ops'
        | OpClone _ _ _ _ => keeps_sorted q false ops'
        | OpDestroy _ _ => keeps_sorted q b ops'
        end
      else keeps_sorted q b ops'
  end.

(** The sequences for which disjointness is shown: no [clone_vm_area] on
    [q], and no [create_vm_area] on [q] whose range starts or ends where
    an area of the list does. *)
Fixpoint endpoints_distinct (q : Z) (ops : list vm_op) (mm : mm_struct_t) : Prop :=
  match ops with
  | [] => True
  | op :: ops' =>
      if decide (op_target op = q) then
        match op with
        | OpCreate _ vm_start0 size _ _ =>
            Forall (fun a => vm_start a <> vm_start0
                             /\ vm_end a <> u32 (vm_start0 + size)) (mmap_list mm)
        | OpClone _ _ _ _ => False
        | OpDestroy _ _ => True
        end
        /\ endpoints_distinct q ops' (mm_effect op mm)
      else endpoints_distinct q ops' mm
  end.

(** ** The three operations, seen from the memory descriptor *)

Lemma create_vm_area_inv mmp vm_start0 size pgflags gfpflags k segment k' :
  create_vm_area mmp vm_start0 size pgflags gfpflags k = Ok (segment, k') ->
  exists mm,
    mms k !! mmp = Some mm
    /\ 0 < is_valid_vm_area mm vm_start0 (u32 (vm_start0 + size))
    /\ segment = mk_vma mmp vm_start0 (u32 (vm_start0 + size)) uninitialised
    /\ mms k' = <[mmp := mm_after_create mm segment
                            (find_nearest_order_greater vm_start0 size)]> (mms k).
Proof.
  unfold create_vm_area. intros H.
  apply bind_Ok in H as (mm & Hmm & H). apply deref_Ok in Hmm.
  exists mm. split; [exact Hmm |].
  destruct (Z.leb_spec (is_valid_vm_area mm vm_start0 (u32 (vm_start0 + size))) 0)
    as [Hle | Hgt]; [discriminate |].
  split; [exact Hgt |].
  apply bind_Ok in H as ([[pgflags' phy_start] k1] & Hr & H).
  apply bind_Ok in H as (k2 & Hupd & H). simpl in Hupd.
  apply mem_upd_vm_area_mms in Hupd as [Hm2 _].
  assert (Hm1 : mms k1 = mms k).
  { destruct (flag pgflags MM_COW).
    - inversion Hr; subst. reflexivity.
    - apply bind_Ok in Hr as ([page mem_map'] & _ & Hr). inversion Hr; subst. reflexivity. }
  inversion H; subst. split; [reflexivity |].
  simpl. rewrite Hm2, Hm1. reflexivity.
Qed.

Lemma clone_vm_area_inv mmp area cow gfpflags k r k' :
  clone_vm_area mmp area cow gfpflags k = Ok (r, k') ->
  exists mm,
    mms k !! mmp = Some mm
    /\ mms k' = <[mmp := mm_after_clone mm
                            (mk_vma mmp (vm_start area) (vm_end area) (vm_flags area))
                            (find_nearest_order_greater (vm_start area)
                               (u32 (vm_end area - vm_start area)))]> (mms k).
Proof.
  unfold clone_vm_area. intros H.
  apply bind_Ok in H as (mm & Hmm & H). apply deref_Ok in Hmm.
  exists mm. split; [exact Hmm |].
  apply bind_Ok in H as (src_mm & _ & H).
  apply bind_Ok in H as (k1 & Hk1 & H).
  assert (Hm1 : mms k1 = mms k).
  { destruct cow; simpl in Hk1.
    - apply bind_Ok in Hk1 as (k2 & Hupd & Hclone).
      apply mem_upd_vm_area_mms in Hupd as [Hupd _].
      apply mem_clone_vm_area_mms in Hclone. congruence.
    - apply bind_Ok in Hk1 as ([page mem_map'] & _ & Hk1).
      apply bind_Ok in Hk1 as (k2 & Hupd & Hk1).
      apply mem_upd_vm_area_mms in Hupd as [Hupd _].
      inversion Hk1; subst. simpl. rewrite Hupd. reflexivity. }
  inversion H; subst. simpl. rewrite Hm1. reflexivity.
Qed.

Lemma destroy_vm_area_inv mmp i k r k' :
  destroy_vm_area mmp i k = Ok (r, k') ->
  exists mm,
    mms k !! mmp = Some mm
    /\ is_Some (mmap_list mm !! i)
    /\ r = 0
    /\ mms k' = <[mmp := mm_after_destroy mm i]> (mms k).
Proof.
  unfold destroy_vm_area. intros H.
  apply bind_Ok in H as (mm & Hmm & H). apply deref_Ok in Hmm.
  exists mm. split; [exact Hmm |].
  apply bind_Ok in H as (area & Harea & H). apply deref_Ok in Harea.
  split; [eauto |].
  apply bind_Ok in H as (k1 & Hloop & H).
  apply destroy_vm_area_loop_mms in Hloop.
  inversion H; subst. split; [reflexivity |]. simpl. rewrite Hloop. reflexivity.
Qed.

(** With sane page descriptors [destroy_vm_area] always comes back. *)
Lemma destroy_vm_area_total mmp i k mm area :
  (forall m p, orders_ok m -> orders_ok (__free_pages m p)) ->
  orders_ok (mem_map k) ->
  mms k !! mmp = Some mm -> mmap_list mm !! i = Some area ->
  exists k', destroy_vm_area mmp i k = Ok (0, k')
             /\ mms k' = <[mmp := mm_after_destroy mm i]> (mms k).
Proof.
  intros Hfree Hok Hmm Harea. unfold destroy_vm_area.
  rewrite Hmm. simpl. rewrite Harea. simpl.
  pose proof (u32_range (vm_end area - vm_start area)) as Hrange.
  destruct (destroy_vm_area_loop_total
              (Z.to_nat (u32 (vm_end area - vm_start area) / PAGE_SIZE + 1))
              (pgd mm) (u32 (vm_end area - vm_start area)) (vm_start area) k
              Hfree Hrange) as (k1 & Hloop & Hm & _).
  - intros _.
    assert (0 <= u32 (vm_end area - vm_start area) / PAGE_SIZE)
      by (apply Z.div_pos; unfold PAGE_SIZE; lia).
    lia.
  - exact Hok.
  - rewrite Hloop. simpl. eexists. split; [reflexivity |]. simpl.
    rewrite Hm. reflexivity.
Qed.

Lemma apply_op_mm op k k' q mm :
  apply_op op k = Ok k' -> mms k !! q = Some mm ->
  if decide (op_target op = q)
  then op_checked op mm /\ mms k' !! q = Some (mm_effect op mm)
  else mms k' !! q = Some mm.
Proof.
  intros Hop Hq. destruct op as [mmp s sz pf gf | mmp area cow gf | mmp i]; simpl in *.
  - apply bind_Ok in Hop as ([segment k1] & Hc & Hop). inversion Hop; subst.
    apply create_vm_area_inv in Hc as (mm0 & Hmm0 & Hvalid & -> & Hm). simpl. rewrite Hm.
    destruct (decide (mmp = q)) as [-> | Hne].
    + rewrite lookup_insert_eq. rewrite Hq in Hmm0. inversion Hmm0; subst.
      split; [exact Hvalid | reflexivity].
    + rewrite lookup_insert_ne by exact Hne. exact Hq.
  - apply bind_Ok in Hop as ([r k1] & Hc & Hop). inversion Hop; subst.
    apply clone_vm_area_inv in Hc as (mm0 & Hmm0 & Hm). simpl. rewrite Hm.
    destruct (decide (mmp = q)) as [-> | Hne].
    + rewrite lookup_insert_eq. rewrite Hq in Hmm0. inversion Hmm0; subst.
      split; [exact I | reflexivity].
    + rewrite lookup_insert_ne by exact Hne. exact Hq.
  - apply bind_Ok in Hop as ([r k1] & Hc & Hop). inversion Hop; subst.
    apply destroy_vm_area_inv in Hc as (mm0 & Hmm0 & Hsome & _ & Hm). simpl. rewrite Hm.
    destruct (decide (mmp = q)) as [-> | Hne].
    + rewrite lookup_insert_eq. rewrite Hq in Hmm0. inversion Hmm0; subst.
      split; [exact Hsome | reflexivity].
    + rewrite lookup_insert_ne by exact Hne. exact Hq.
Qed.

(** One operation on the descriptor itself. *)
Lemma mm_effect_counters op mm :
  op_checked op mm ->
  (map_count mm = Z.of_nat (length (mmap_list mm)) ->
   map_count (mm_effect op mm) = Z.of_nat (length (mmap_list (mm_effect op mm))))
  /\ u32 (total_vm (mm_effect op mm)) = u32 (total_vm mm + op_pages op).
Proof.
  intros Hchk. destruct op as [mmp s sz pf gf | mmp area cow gf | mmp i]; simpl.
  - split.
    + intros Hcount. rewrite vm_area_insert_length, list_head_sort_length. lia.
    + unfold u32. rewrite Z.mod_mod by lia. rewrite Zplus_mod_idemp_r. reflexivity.
  - split.
    + intros Hcount. lia.
    + unfold u32. rewrite Z.mod_mod by lia. rewrite Zplus_mod_idemp_r. reflexivity.
  - split.
    + intros Hcount. simpl in Hchk. rewrite length_delete by exact Hchk.
      destruct Hchk as [a Ha]. apply lookup_lt_Some in Ha. lia.
    + rewrite Z.add_0_r. reflexivity.
Qed.

Lemma mm_effect_sorted op mm :
  match op with
  | OpCreate _ _ _ _ _ => sorted_by_start (mmap_list (mm_effect op mm))
  | OpClone _ _ _ _ => True
  | OpDestroy _ _ =>
      sorted_by_start (mmap_list mm) -> sorted_by_start (mmap_list (mm_effect op mm))
  end.
Proof.
  destruct op as [mmp s sz pf gf | mmp area cow gf | mmp i]; simpl.
  - apply vm_area_insert_sorted, list_head_sort_sorted.
  - exact I.
  - apply delete_sorted.
Qed.

(** What the three operations keep.  For every memory descriptor [q] and
    every sequence of
    [create_vm_area], [clone_vm_area] and [destroy_vm_area] that runs to
    its end: [map_count] still equals the number of areas of the list;
    [total_vm] has grown by the [2 ^ order] pages of each area created or
    cloned in [q]; the list is sorted by [vm_start] whenever no
    [clone_vm_area] on [q] follows the last [create_vm_area] on [q] (or
    there is none of either and the list was sorted); and the areas stay
    non-empty and pairwise disjoint along sequences without
    [clone_vm_area] on [q] in which no created range starts or ends where
    an existing area does. *)
Lemma vm_area_ops_invariant q ops : forall k k' mm,
  mms k !! q = Some mm ->
  run_ops ops k = Ok k' ->
  exists mm',
    mms k' !! q = Some mm'
    /\ (map_count mm = Z.of_nat (length (mmap_list mm)) ->
        map_count mm' = Z.of_nat (length (mmap_list mm')))
    /\ u32 (total_vm mm') = u32 (total_vm mm + pages_added q ops)
    /\ (forall b, (b = true -> sorted_by_start (mmap_list mm)) ->
                  keeps_sorted q b ops = true -> sorted_by_start (mmap_list mm'))
    /\ (endpoints_distinct q ops mm ->
        Forall vma_wf (mmap_list mm) -> pairwise_disjoint (mmap_list mm) ->
        Forall vma_wf (mmap_list mm') /\ pairwise_disjoint (mmap_list mm')).
Proof.
  forget_unused.
  induction ops as [| op ops IH]; intros k k' mm Hq Hrun; simpl in Hrun.
  - inversion Hrun; subst. exists mm. split; [exact Hq |].
    split; [tauto |]. split; [simpl; rewrite Z.add_0_r; reflexivity |].
    split; [intros b Hb Hk; simpl in Hk; apply Hb; exact Hk |].
    intros _ Hwf Hd. split; assumption.
  - apply bind_Ok in Hrun as (k1 & Hop & Hrun).
    pose proof (apply_op_mm op k k1 q mm Hop Hq) as Hstep.
    simpl. destruct (decide (op_target op = q)) as [Htarget | Hother].
    + destruct Hstep as [Hchk Hq1].
      destruct (IH k1 k' (mm_effect op mm) Hq1 Hrun) as (mm' & Hq' & Hcount & Htotal & Hsorted & Hdisj).
      destruct (mm_effect_counters op mm Hchk) as [Hcount1 Htotal1].
      exists mm'. split; [exact Hq' |].
      split; [intros Hc; apply Hcount, Hcount1, Hc |].
      split.
      { rewrite Htotal. unfold u32 in *.
        rewrite <- Zplus_mod_idemp_l, Htotal1, Zplus_mod_idemp_l.
        f_equal. lia. }
      split.
      { intros b Hb Hk. pose proof (mm_effect_sorted op mm) as Hs.
        destruct op as [mmp s sz pf gf | mmp area cow gf | mmp i].
        - apply (Hsorted true); [intros _; exact Hs | exact Hk].
        - apply (Hsorted false); [discriminate | exact Hk].
        - apply (Hsorted b); [intros ->; apply Hs, Hb; reflexivity | exact Hk]. }
      intros [Hguard Hrest] Hwf Hd.
      apply Hdisj; [exact Hrest | |];
        destruct op as [mmp s sz pf gf | mmp area cow gf | mmp i]; simpl in *;
        try contradiction.
      * apply vm_area_insert_Forall. rewrite list_head_sort_Forall.
        destruct (is_valid_vm_area_disjoint mm s (u32 (s + sz))
                    (mk_vma mmp s (u32 (s + sz)) uninitialised)
                    Hchk eq_refl eq_refl Hwf Hguard) as [Hw _].
        split; assumption.
      * apply Forall_delete. exact Hwf.
      * apply vm_area_insert_disjoint. rewrite list_head_sort_Forall, list_head_sort_disjoint.
        destruct (is_valid_vm_area_disjoint mm s (u32 (s + sz))
                    (mk_vma mmp s (u32 (s + sz)) uninitialised)
                    Hchk eq_refl eq_refl Hwf Hguard) as [_ Hdj].
        split; assumption.
      * apply delete_disjoint. exact Hd.
    + destruct (IH k1 k' mm Hstep Hrun) as (mm' & Hq' & Hcount & Htotal & Hsorted & Hdisj).
      exists mm'. split; [exact Hq' |]. split; [exact Hcount |].
      split; [rewrite Htotal; f_equal; lia |].
      split; [exact Hsorted | exact Hdisj].
Qed.

(** The pages of a list without one of its areas. *)
Lemma pages_of_delete l : forall i a,
  l !! i = Some a ->
  pages_of (delete i l) = pages_of l - (vm_end a - vm_start a) / PAGE_SIZE.
Proof.
  induction l as [| b l IH]; intros i a Hi; [discriminate |].
  destruct i as [| i]; simpl in *.
  - inversion Hi; subst. lia.
  - rewrite (IH i a Hi). lia.
Qed.

(** C4 (defect in the code).  [destroy_vm_area] takes the area off the
    list and decrements [map_count], but it leaves [total_vm] as it is.
    On a descriptor that satisfies the invariant of the specification,
    destroying an area of at least one page returns 0 and leaves a
    descriptor whose [map_count] is the number of its areas but whose
    [total_vm] exceeds the sum of their pages by the pages of the area
    destroyed: the invariant is lost. *)
Theorem destroy_vm_area_keeps_total_vm mmp i k mm a :
  (forall m p, orders_ok m -> orders_ok (__free_pages m p)) ->
  orders_ok (mem_map k) ->
  mms k !! mmp = Some mm -> mmap_list mm !! i = Some a ->
  mm_invariant mm ->
  PAGE_SIZE <= vm_end a - vm_start a ->
  exists k' mm',
    destroy_vm_area mmp i k = Ok (0, k')
    /\ mms k' !! mmp = Some mm'
    /\ mmap_list mm' = delete i (mmap_list mm)
    /\ map_count mm' = Z.of_nat (length (mmap_list mm'))
    /\ total_vm mm' = total_vm mm
    /\ pages_of (mmap_list mm') = total_vm mm' - (vm_end a - vm_start a) / PAGE_SIZE
    /\ ~ mm_invariant mm'.
Proof.
  intros Hfree Hok Hmm Hi (Hdisj & Hsorted & Hcount & Htotal) Hpage.
  destruct (destroy_vm_area_total mmp i k mm a Hfree Hok Hmm Hi) as (k' & Hdestroy & Hmms).
  assert (Hpages : 1 <= (vm_end a - vm_start a) / PAGE_SIZE).
  { apply Z.div_le_lower_bound; unfold PAGE_SIZE in *; lia. }
  pose proof (pages_of_delete (mmap_list mm) i a Hi) as Hsum.
  exists k', (mm_after_destroy mm i).
  split; [exact Hdestroy |].
  split; [rewrite Hmms; apply lookup_insert_eq |].
  split; [reflexivity |]. simpl.
  split.
  { rewrite length_delete by eauto. apply lookup_lt_Some in Hi. lia. }
  split; [reflexivity |].
  split; [lia |].
  intros (_ & _ & _ & Hbad). simpl in Hbad. lia.
Qed.

(** ** [sys_munmap] *)

(** The release of the frames of a range, in the words of the
    specification (VMA destruction): the range is walked from [start];
    each step translates the page at hand to the frame that its
    page-table entry names; a frame whose reference count is above 1 is
    only decremented, together with the other frames of its run, and any
    other frame is returned to the allocator; the step is as long as the
    run of the frame, or as what remains of the range. *)
Inductive frames_released (dir : Z) : Z -> Z -> kernel -> kernel -> Prop :=
| frames_released_done start k : frames_released dir start 0 k k
| frames_released_step start remaining page step k k1 k' :
    0 < remaining ->
    page = frame (walk k dir (start / PAGE_SIZE)) ->
    step = Z.min remaining (2 ^ page_order k page * PAGE_SIZE) ->
    k1 = (if 1 <? page_count k page
          then foldl (fun k i => page_dec (page + i) k) k (seqZ 0 (2 ^ page_order k page))
          else set_mem_map (__free_pages (mem_map k) page) k) ->
    frames_released dir (start + step) (remaining - step) k1 k' ->
    frames_released dir start remaining k k'.

Lemma page_dec_fold_tables p l : forall k,
  let k1 := foldl (fun k i => page_dec (p + i) k) k l in
  pgdirs k1 = pgdirs k /\ pgtables k1 = pgtables k /\ frames k1 = frames k
  /\ tlb k1 = tlb k.
Proof.
  induction l as [| i l IH]; intros k; simpl; [repeat split |].
  destruct (IH (page_dec (p + i) k)) as (H1 & H2 & H3 & H4).
  repeat split; assumption.
Qed.

(** Releasing frames touches the page descriptors and nothing else. *)
Lemma frames_released_tables dir start remaining k k' :
  frames_released dir start remaining k k' ->
  mms k' = mms k /\ pgdirs k' = pgdirs k /\ pgtables k' = pgtables k
  /\ frames k' = frames k /\ tlb k' = tlb k.
Proof.
  induction 1 as [start k | start remaining page step k k1 k' Hpos Hpage Hstep Hk1 _ IH].
  - repeat split.
  - destruct IH as (H1 & H2 & H3 & H4 & H5).
    assert (Hsame : mms k1 = mms k /\ pgdirs k1 = pgdirs k /\ pgtables k1 = pgtables k
                    /\ frames k1 = frames k /\ tlb k1 = tlb k).
    { subst k1. destruct (1 <? page_count k page).
      - split; [apply page_dec_fold_mms | apply page_dec_fold_tables].
      - repeat split. }
    destruct Hsame as (G1 & G2 & G3 & G4 & G5).
    repeat split; congruence.
Qed.

Lemma block_bytes_eq o :
  0 <= o < 20 -> u32 (2 ^ o) = 2 ^ o /\ u32 (u32 (2 ^ o) * PAGE_SIZE) = 2 ^ o * PAGE_SIZE.
Proof.
  intros Ho. unfold PAGE_SIZE.
  assert (H1 : 1 <= 2 ^ o) by (apply (Z.pow_le_mono_r 2 0 o); lia).
  assert (H2 : 2 ^ o <= 2 ^ 19) by (apply Z.pow_le_mono_r; lia).
  change (2 ^ 19) with 524288 in H2.
  rewrite (u32_small (2 ^ o)) by (change (2 ^ 32) with 4294967296; lia).
  split; [reflexivity |].
  apply u32_small. change (2 ^ 32) with 4294967296. lia.
Qed.

(** The loop of [destroy_vm_area] comes to its end and has released the
    frames of the range. *)
Lemma destroy_vm_area_loop_released n : forall dir total start k,
  (forall m p, orders_ok m -> orders_ok (__free_pages m p)) ->
  0 <= total -> 0 <= start -> start + total < 2 ^ 32 ->
  (0 < total -> total / PAGE_SIZE < Z.of_nat n) ->
  orders_ok (mem_map k) ->
  exists k', destroy_vm_area_loop n dir total start k = Ok k'
             /\ frames_released dir start total k k'.
Proof.
  assert (HP : PAGE_SIZE = 4096) by reflexivity.
  induction n as [| n IH]; intros dir total start k Hfree Htotal Hstart Hend Hfuel Hok.
  - simpl. destruct (Z.ltb_spec 0 total) as [Hpos | Hzero].
    + assert (0 <= total / PAGE_SIZE) by (apply Z.div_pos; lia). specialize (Hfuel Hpos). lia.
    + exists k. split; [reflexivity |].
      replace total with 0 by lia. constructor.
  - rewrite destroy_vm_area_loop_S. cbv zeta.
    destruct (Z.ltb_spec 0 total) as [Hpos | Hzero].
    + specialize (Hfuel Hpos).
      set (r := mem_virtual_to_page k dir start total).
      set (page := frame (walk k dir (start / PAGE_SIZE))).
      assert (Hpage : fst r = page) by reflexivity.
      destruct (block_bytes_eq (page_order k page) (page_order_range k page Hok))
        as [Hrun Hbytes].
      assert (Hsize : snd r = Z.min total (u32 (u32 (2 ^ page_order k page) * PAGE_SIZE)))
        by reflexivity.
      rewrite Hbytes in Hsize.
      rewrite Hpage, Hrun.
      set (k1 := if 1 <? page_count k page
                 then foldl (fun k0 i => page_dec (page + i) k0) k
                        (seqZ 0 (2 ^ page_order k page))
                 else set_mem_map (__free_pages (mem_map k) page) k).
      assert (Hok1 : orders_ok (mem_map k1)).
      { unfold k1. destruct (1 <? page_count k page).
        - apply page_dec_fold_orders. exact Hok.
        - simpl. apply Hfree. exact Hok. }
      assert (H1 : 1 <= 2 ^ page_order k page)
        by (apply (Z.pow_le_mono_r 2 0); [lia | apply page_order_range; exact Hok]).
      assert (Hle : PAGE_SIZE <= snd r \/ snd r = total) by lia.
      assert (Hle' : 0 < snd r <= total) by lia.
      rewrite (u32_small (total - snd r)) by lia.
      rewrite (u32_small (start + snd r)) by lia.
      destruct (IH dir (total - snd r) (start + snd r) k1 Hfree) as (k' & Hloop & Hrel);
        [lia | lia | lia | | exact Hok1 |].
      * intros Hrest.
        assert (PAGE_SIZE <= snd r) by lia.
        assert ((total - snd r) / PAGE_SIZE <= total / PAGE_SIZE - 1).
        { replace (total / PAGE_SIZE - 1) with ((total - PAGE_SIZE) / PAGE_SIZE).
          - apply Z.div_le_mono; lia.
          - replace (total - PAGE_SIZE) with (total + (-1) * PAGE_SIZE) by lia.
            rewrite Z.div_add by lia. lia. }
        lia.
      * exists k'. split; [exact Hloop |].
        apply (frames_released_step dir start total page (snd r) k k1 k');
          [exact Hpos | reflexivity | exact Hsize | reflexivity | exact Hrel].
    + exists k. split; [reflexivity |].
      replace total with 0 by lia. constructor.
Qed.

(** C5.  [sys_munmap] destroys an area and returns 0 exactly when some
    area of the current descriptor starts at [addr] and is [length] bytes
    long.  The area it destroys is such a one: it is taken off the list,
    [map_count] is decremented, and the frames that the page tables name
    for the range are released, those counted more than once decremented
    and the others returned to the allocator; the page tables themselves
    are left as they are.  For every other pair, a part of an area
    included, it returns 1 and changes nothing. *)
Theorem sys_munmap_exact_match task_mm addr length k mm :
  (forall m p, orders_ok m -> orders_ok (__free_pages m p)) ->
  orders_ok (mem_map k) ->
  mms k !! task_mm = Some mm ->
  Forall vma_in_range (mmap_list mm) ->
  (exact_match mm addr length ->
   exists i a k1 k',
     mmap_list mm !! i = Some a
     /\ vm_start a = addr /\ vm_end a - vm_start a = length
     /\ sys_munmap task_mm addr length k = Ok (0, k')
     /\ mms k' !! task_mm = Some (mm_after_destroy mm i)
     /\ frames_released (pgd mm) addr length k k1
     /\ k' = set_mms (<[task_mm := mm_after_destroy mm i]> (mms k)) k1
     /\ pgdirs k' = pgdirs k /\ pgtables k' = pgtables k /\ frames k' = frames k)
  /\ (~ exact_match mm addr length ->
      sys_munmap task_mm addr length k = Ok (1, k)).
Proof.
  intros Hfree Hok Hmm Hrange.
  assert (Hsize : forall a, a ∈ mmap_list mm ->
            u32 (vm_end a - vm_start a) = vm_end a - vm_start a).
  { intros a Ha. rewrite Forall_forall in Hrange.
    destruct (Hrange a Ha) as [H1 H2]. apply u32_small. lia. }
  unfold sys_munmap. rewrite Hmm. simpl.
  destruct (find_prev _ (mmap_list mm)) as [i |] eqn:Hfind.
  - apply find_prev_Some in Hfind as (a & Hi & Hp).
    apply andb_true_iff in Hp as [Hstart Hlen].
    apply Z.eqb_eq in Hstart, Hlen.
    assert (Ha : a ∈ mmap_list mm) by (apply list_elem_of_lookup; eauto).
    rewrite (Hsize a Ha) in Hlen.
    split.
    + intros _.
      assert (Hin : vma_in_range a) by (rewrite Forall_forall in Hrange; apply Hrange, Ha).
      destruct Hin as [[Hs0 Hse] Hend].
      destruct (destroy_vm_area_loop_released
                  (Z.to_nat ((vm_end a - vm_start a) / PAGE_SIZE + 1)) (pgd mm)
                  (vm_end a - vm_start a) (vm_start a) k Hfree)
        as (k1 & Hloop & Hrel); [lia | lia | lia | | exact Hok |].
      { intros _.
        assert (0 <= (vm_end a - vm_start a) / PAGE_SIZE)
          by (apply Z.div_pos; unfold PAGE_SIZE; lia).
        lia. }
      pose proof (frames_released_tables _ _ _ _ _ Hrel) as (Hm & Hd & Ht & Hf & _).
      exists i, a, k1. eexists.
      unfold destroy_vm_area. rewrite Hmm. simpl. rewrite Hi. simpl.
      rewrite (Hsize a Ha), Hloop. simpl.
      split; [reflexivity |]. split; [congruence |]. split; [congruence |].
      split; [reflexivity |].
      split; [simpl; apply lookup_insert_eq |].
      split; [rewrite Hstart, Hlen; exact Hrel |].
      split; [rewrite Hm; reflexivity |].
      simpl. repeat split; assumption.
    + intros Hno. exfalso. apply Hno. exists a. repeat split; congruence.
  - apply find_prev_None in Hfind. split.
    + intros (a & Ha & Hstart & Hlen). exfalso.
      rewrite Forall_forall in Hfind. specialize (Hfind a Ha). simpl in Hfind.
      rewrite (Hsize a Ha) in Hfind.
      apply andb_false_iff in Hfind as [Hf | Hf]; apply Z.eqb_neq in Hf; congruence.
    + intros _. reflexivity.
Qed.

(** ** Mapping a range: [mem_upd_vm_area] and [create_vm_area] *)

(** The slab never hands out a table that is in use. *)
Definition pgtbl_alloc_fresh : Prop :=
  forall t f, pgtbl_alloc t = Some f -> t !! f = None.

(** [__mem_pg_entry_alloc] followed by [__set_pg_entry_frame], as both
    [__pg_iter_init] and [__pg_iter_next] use them. *)
Lemma pg_entry_install dir i flags k t k1 :
  pgtbl_alloc_fresh -> dir_wf k dir ->
  __mem_pg_entry_alloc dir i flags k = Ok (t, k1) ->
  let k2 := __set_pg_entry_frame dir i t k1 in
  dir_wf k2 dir
  /\ pde_present (get_pde k2 dir i) = true
  /\ pde_frame (get_pde k2 dir i) = t
  /\ (forall j, j <> i -> get_pde k2 dir j = get_pde k dir j)
  /\ (forall tb ix, is_Some (pgtables k !! tb) -> get_pte k2 tb ix = get_pte k tb ix)
  /\ (forall tb, is_Some (pgtables k !! tb) -> is_Some (pgtables k2 !! tb)).
Proof.
  intros Hfresh [Halloc Hinj] H. cbv zeta. unfold __mem_pg_entry_alloc in H.
  destruct (pde_present (get_pde k dir i)) eqn:Hpres; simpl in H.
  - (* the table exists *)
    destruct (pde_global (get_pde k dir i) && negb (flag flags MM_GLOBAL));
      [discriminate |].
    inversion H; subst; clear H.
    unfold __set_pg_entry_frame. rewrite get_set_pde_same. simpl.
    assert (Hother : forall j, j <> i ->
              get_pde (set_pde dir i
                {| pde_present := true || flag flags MM_PRESENT;
                   pde_rw := pde_rw (get_pde k dir i) || flag flags MM_RW;
                   pde_user := pde_user (get_pde k dir i) || flag flags MM_USER;
                   pde_accessed := pde_accessed (get_pde k dir i);
                   pde_global := pde_global (get_pde k dir i) && flag flags MM_GLOBAL;
                   pde_available := pde_available (get_pde k dir i);
                   pde_frame := pde_frame (get_pde k dir i) |}
                (set_pde dir i
                   {| pde_present := true || flag flags MM_PRESENT;
                      pde_rw := pde_rw (get_pde k dir i) || flag flags MM_RW;
                      pde_user := pde_user (get_pde k dir i) || flag flags MM_USER;
                      pde_accessed := pde_accessed (get_pde k dir i);
                      pde_global := pde_global (get_pde k dir i) && flag flags MM_GLOBAL;
                      pde_available := pde_available (get_pde k dir i);
                      pde_frame := pde_frame (get_pde k dir i) |} k)) dir j
              = get_pde k dir j).
    { intros j Hj. rewrite !get_set_pde_other by congruence. reflexivity. }
    split; [| split; [| split; [| split; [| split]]]].
    + split.
      * intros j Hj. simpl. destruct (decide (j = i)) as [-> | Hne].
        -- rewrite get_set_pde_same. simpl. apply Halloc. exact Hpres.
        -- rewrite Hother in * by exact Hne. apply Halloc. exact Hj.
      * intros j j' Hj Hj' Heq.
        destruct (decide (j = i)) as [-> | Hne], (decide (j' = i)) as [-> | Hne'];
          try reflexivity.
        -- rewrite get_set_pde_same in Heq. rewrite Hother in * by exact Hne'.
           simpl in Heq. apply Hinj; assumption.
        -- rewrite get_set_pde_same in Heq. rewrite Hother in * by exact Hne.
           simpl in Heq. apply Hinj; assumption.
        -- rewrite !Hother in * by assumption. apply Hinj; assumption.
    + rewrite get_set_pde_same. reflexivity.
    + rewrite get_set_pde_same. reflexivity.
    + exact Hother.
    + intros tb ix _. reflexivity.
    + intros tb Htb. exact Htb.
  - (* a new table *)
    apply bind_Ok in H as (t' & Ht & H). apply deref_Ok in Ht. simpl in Ht.
    inversion H; subst; clear H.
    pose proof (Hfresh _ _ Ht) as Hnew.
    unfold __set_pg_entry_frame.
    set (e1 := {| pde_present := true; pde_rw := true;
                  pde_user := flag flags MM_USER; pde_accessed := false;
                  pde_global := flag flags MM_GLOBAL; pde_available := 1;
                  pde_frame := pde_frame (get_pde k dir i) |}).
    set (k1 := set_pgtables (<[t := ∅]> (pgtables k)) (set_pde dir i e1 k)).
    assert (He1 : get_pde k1 dir i = e1).
    { unfold k1. rewrite (get_pde_ext (set_pde dir i e1 k)) by reflexivity.
      apply get_set_pde_same. }
    rewrite He1. simpl.
    set (e2 := {| pde_present := true; pde_rw := true;
                  pde_user := flag flags MM_USER; pde_accessed := false;
                  pde_global := flag flags MM_GLOBAL; pde_available := 1;
                  pde_frame := t |}).
    assert (Hother : forall j, j <> i -> get_pde (set_pde dir i e2 k1) dir j = get_pde k dir j).
    { intros j Hj. rewrite get_set_pde_other by congruence.
      unfold k1. rewrite (get_pde_ext (set_pde dir i e1 k)) by reflexivity.
      rewrite get_set_pde_other by congruence. reflexivity. }
    assert (Htables : pgtables (set_pde dir i e2 k1) = <[t := ∅]> (pgtables k)) by reflexivity.
    split; [| split; [| split; [| split; [| split]]]].
    + split.
      * intros j Hj. rewrite Htables. destruct (decide (j = i)) as [-> | Hne].
        -- rewrite get_set_pde_same. simpl. rewrite lookup_insert_eq. eauto.
        -- rewrite Hother in * by exact Hne.
           destruct (Halloc j Hj) as [tbl Htbl].
           rewrite lookup_insert_ne by congruence. eauto.
      * intros j j' Hj Hj' Heq.
        destruct (decide (j = i)) as [-> | Hne], (decide (j' = i)) as [-> | Hne'];
          try reflexivity.
        -- rewrite get_set_pde_same in Heq. rewrite Hother in * by exact Hne'.
           simpl in Heq. destruct (Halloc j' Hj') as [tbl Htbl]. congruence.
        -- rewrite get_set_pde_same in Heq. rewrite Hother in * by exact Hne.
           simpl in Heq. destruct (Halloc j Hj) as [tbl Htbl]. congruence.
        -- rewrite !Hother in * by assumption. apply Hinj; assumption.
    + rewrite get_set_pde_same. reflexivity.
    + rewrite get_set_pde_same. reflexivity.
    + exact Hother.
    + intros tb ix [tbl Htbl]. unfold get_pte. rewrite Htables.
      rewrite lookup_insert_ne by congruence. reflexivity.
    + intros tb [tbl Htbl]. simpl.
      rewrite lookup_insert_ne by congruence. eauto.
Qed.

(** What the body of the loop writes. *)
Lemma mem_upd_vm_area_body_spec flags it phy_pfn k :
  let b := mem_upd_vm_area_body flags it phy_pfn k in
  pgdirs (snd b) = pgdirs k
  /\ get_pte (snd b) (ie_table it) (ie_index it) =
       __set_pg_table_flags
         (if flag flags MM_UPDADDR
          then pte_set_frame (get_pte k (ie_table it) (ie_index it)) phy_pfn
          else get_pte k (ie_table it) (ie_index it)) flags
  /\ (forall tb ix, (tb, ix) <> (ie_table it, ie_index it) ->
                    get_pte (snd b) tb ix = get_pte k tb ix)
  /\ (forall tb, is_Some (pgtables k !! tb) -> is_Some (pgtables (snd b) !! tb))
  /\ fst b = (if flag flags MM_UPDADDR then u32 (phy_pfn + 1) else phy_pfn).
Proof.
  cbv zeta. unfold mem_upd_vm_area_body.
  destruct (flag flags MM_UPDADDR); simpl.
  - split; [reflexivity |]. split; [apply get_set_pte_same |].
    split; [| split; [| reflexivity]].
    + intros tb ix Hne. rewrite get_set_pte_other by exact Hne. reflexivity.
    + intros tb Htb. destruct (decide (ie_table it = tb)) as [<- | Hne].
      * rewrite lookup_insert_eq. eauto.
      * rewrite lookup_insert_ne by exact Hne. exact Htb.
  - split; [reflexivity |]. split; [apply get_set_pte_same |].
    split; [| split; [| reflexivity]].
    + intros tb ix Hne. rewrite get_set_pte_other by exact Hne. reflexivity.
    + intros tb Htb. destruct (decide (ie_table it = tb)) as [<- | Hne].
      * rewrite lookup_insert_eq. eauto.
      * rewrite lookup_insert_ne by exact Hne. exact Htb.
Qed.

(** Moving the iterator from a page inside the range. *)
Lemma pg_iter_next_spec dir iter k it iter1 k1 :
  pgtbl_alloc_fresh -> dir_wf k dir ->
  it_dir iter = dir ->
  0 <= it_pfn iter < it_last_pfn iter -> it_last_pfn iter <= 2 ^ 20 ->
  it_entry iter = it_pfn iter / 1024 ->
  __pg_iter_next iter k = Ok (it, iter1, k1) ->
  it = mk_iter_entry (it_table iter) (it_pfn iter mod 1024) (it_pfn iter)
  /\ it_dir iter1 = dir /\ it_last_pfn iter1 = it_last_pfn iter
  /\ it_flags iter1 = it_flags iter /\ it_pfn iter1 = it_pfn iter + 1
  /\ dir_wf k1 dir
  /\ (forall j, j <= it_pfn iter / 1024 -> get_pde k1 dir j = get_pde k dir j)
  /\ (forall tb ix, is_Some (pgtables k !! tb) -> get_pte k1 tb ix = get_pte k tb ix)
  /\ (forall tb, is_Some (pgtables k !! tb) -> is_Some (pgtables k1 !! tb))
  /\ (it_pfn iter + 1 < it_last_pfn iter ->
      it_entry iter1 = (it_pfn iter + 1) / 1024
      /\ ((it_pfn iter + 1) / 1024 = it_pfn iter / 1024 -> it_table iter1 = it_table iter)
      /\ ((it_pfn iter + 1) / 1024 <> it_pfn iter / 1024 ->
          pde_present (get_pde k1 dir (it_entry iter1)) = true
          /\ pde_frame (get_pde k1 dir (it_entry iter1)) = it_table iter1)).
Proof.
  forget_unused.
  intros Hfresh Hwf Hdir Hpfn Hlast Hentry H.
  change (2 ^ 20) with 1048576 in Hlast.
  unfold __pg_iter_next in H.
  rewrite (u32_small (it_pfn iter + 1)) in H by (change (2 ^ 32) with 4294967296; lia).
  destruct (Z.eqb_spec ((it_pfn iter + 1) mod 1024) 0) as [Hmod | Hmod].
  - destruct (Z.eqb_spec (it_pfn iter + 1) (it_last_pfn iter)) as [Hend | Hend]; simpl in H.
    + inversion H; subst; clear H. simpl.
      split_all; auto; lia.
    + assert (Hnext : (it_pfn iter + 1) / 1024 = it_pfn iter / 1024 + 1)
        by (Z.to_euclidean_division_equations; lia).
      assert (Hin : 0 < it_entry iter + 1 < 1024)
        by (rewrite Hentry; Z.to_euclidean_division_equations; lia).
      destruct (Z.eqb_spec ((it_entry iter + 1) mod 1024) 0) as [Hz | Hz]; simpl in H.
      * exfalso. rewrite Z.mod_small in Hz by lia. lia.
      * apply bind_Ok in H as ([t k0] & Halloc & H). inversion H; subst; clear H. simpl.
        pose proof (pg_entry_install (it_dir iter) (it_entry iter + 1) (it_flags iter)
                      k t k0 Hfresh Hwf Halloc) as (Hwf1 & Hp1 & Hf1 & Ho1 & Ht1 & Hd1).
        split_all; auto.
        -- intros j Hj. apply Ho1. lia.
        -- intros _. split_all; [lia | intros Hsame; lia | intros _; split; assumption].
  - inversion H; subst; clear H. simpl.
    assert (Hsame : (it_pfn iter + 1) / 1024 = it_pfn iter / 1024)
      by (Z.to_euclidean_division_equations; lia).
    split_all; auto; lia.
Qed.

(** One round of the loop keeps the invariant. *)
Lemma mem_upd_vm_area_round dir flags s e phy0 iter phy_pfn k it iter1 k1 :
  pgtbl_alloc_fresh ->
  loop_inv dir flags s e phy0 iter phy_pfn k ->
  it_pfn iter < e ->
  __pg_iter_next iter k = Ok (it, iter1, k1) ->
  let b := mem_upd_vm_area_body flags it phy_pfn k1 in
  loop_inv dir flags s e phy0 iter1 (fst b) (snd b) /\ it_pfn iter1 = it_pfn iter + 1.
Proof.
  forget_unused.
  intros Hfresh (Hdir & Hlast & Hflags & Hs & He & Hmax & Hwf & Hcur & Hphy & Hdone) Hlt Hnext.
  destruct (Hcur Hlt) as (Hentry & Hpres & Hframe).
  pose proof (pg_iter_next_spec dir iter k it iter1 k1 Hfresh Hwf Hdir
                ltac:(lia) ltac:(lia) Hentry Hnext)
    as (Hit & Hdir1 & Hlast1 & Hflags1 & Hpfn1 & Hwf1 & Hpde1 & Hpte1 & Hdom1 & Hcur1).
  cbv zeta.
  pose proof (mem_upd_vm_area_body_spec flags it phy_pfn k1)
    as (Hdirs2 & Hwritten & Hothers & Hdom2 & Hphy2).
  cbv zeta in Hdirs2, Hwritten, Hothers, Hdom2, Hphy2.
  set (b := mem_upd_vm_area_body flags it phy_pfn k1) in *.
  assert (Hpde2 : forall j, j <= it_pfn iter / 1024 -> get_pde (snd b) dir j = get_pde k dir j).
  { intros j Hj. rewrite (get_pde_ext k1) by exact Hdirs2. apply Hpde1. exact Hj. }
  assert (Htable : ie_table it = it_table iter /\ ie_index it = it_pfn iter mod 1024).
  { rewrite Hit. split; reflexivity. }
  destruct Htable as [Htable Hindex].
  split; [| exact Hpfn1].
  unfold loop_inv.
  split; [exact Hdir1 |]. split; [congruence |]. split; [congruence |].
  split; [lia |]. split; [lia |]. split; [exact Hmax |].
  split; [apply (dir_wf_ext k1); assumption |].
  split.
  { intros Hlt1. rewrite Hpfn1 in *. rewrite Hlast in Hcur1.
    destruct (Hcur1 Hlt1) as (Hentry1 & Hsame & Hnew).
    split; [exact Hentry1 |].
    destruct (Z.eq_dec ((it_pfn iter + 1) / 1024) (it_pfn iter / 1024)) as [Heq | Hne].
    - rewrite Hentry1, Heq, (Hsame Heq).
      rewrite Hpde2 by lia. rewrite <- Hentry. split; assumption.
    - destruct (Hnew Hne) as [Hp Hf].
      rewrite !(get_pde_ext k1 (snd b)) by exact Hdirs2. split; assumption. }
  split.
  { intros Hupd. rewrite Hphy2, Hupd, Hpfn1, u32_mod_20.
    rewrite <- Zplus_mod_idemp_l, (Hphy Hupd), Zplus_mod_idemp_l.
    f_equal. lia. }
  intros p Hp. rewrite Hpfn1 in Hp.
  assert (Hdiv : p / 1024 <= it_pfn iter / 1024) by (apply Z.div_le_mono; lia).
  unfold entry_mapped, walk. rewrite Hpde2 by exact Hdiv.
  destruct (Z.eq_dec p (it_pfn iter)) as [-> | Hne].
  - (* the page just written *)
    rewrite <- Hentry, Hpres, Hframe, <- Htable, <- Hindex, Hwritten.
    split; [reflexivity |]. simpl. repeat split.
    intros Hupd. rewrite Hupd. simpl. rewrite (Hphy Hupd). reflexivity.
  - (* a page written before *)
    assert (Hold : s <= p < it_pfn iter) by lia.
    destruct (Hdone p Hold) as (Hp0 & Hrest).
    split; [exact Hp0 |].
    assert (Hkeep : get_pte (snd b) (pde_frame (get_pde k dir (p / 1024))) (p mod 1024)
                    = get_pte k (pde_frame (get_pde k dir (p / 1024))) (p mod 1024)).
    { rewrite Hothers.
      - apply Hpte1. destruct Hwf as [Halloc _]. apply Halloc. exact Hp0.
      - rewrite Htable, Hindex, <- Hframe, Hentry. intros Heq. inversion Heq as [[Hf Hm]].
        destruct Hwf as [_ Hinj].
        assert (p / 1024 = it_pfn iter / 1024).
        { apply Hinj; [exact Hp0 | rewrite <- Hentry; exact Hpres | exact Hf]. }
        apply Hne. Z.to_euclidean_division_equations; lia. }
    rewrite Hkeep. exact Hrest.
Qed.

Lemma mem_upd_vm_area_loop_spec dir flags s e phy0 :
  pgtbl_alloc_fresh ->
  forall n iter phy_pfn k iter' k',
    e - it_pfn iter <= Z.of_nat n ->
    loop_inv dir flags s e phy0 iter phy_pfn k ->
    mem_upd_vm_area_loop n flags iter phy_pfn k = Ok (iter', k') ->
    __pg_iter_has_next iter' = false
    /\ dir_wf k' dir
    /\ (forall p, s <= p < e -> entry_mapped flags phy0 s k' dir p).
Proof.
  intros Hfresh. induction n as [| n IH]; intros iter phy_pfn k iter' k' Hfuel Hinv H.
  - simpl in H. inversion H; subst; clear H.
    destruct Hinv as (Hdir & Hlast & Hflags & Hs & He & Hmax & Hwf & Hcur & Hphy & Hdone).
    assert (it_pfn iter' = e) by lia.
    split; [unfold __pg_iter_has_next; apply Z.ltb_ge; lia |].
    split; [exact Hwf |]. intros p Hp. apply Hdone. lia.
  - simpl in H. unfold __pg_iter_has_next in H.
    pose proof Hinv as (Hdir & Hlast & Hflags & Hs & He & Hmax & Hwf & Hcur & Hphy & Hdone).
    destruct (Z.ltb_spec (it_pfn iter) (it_last_pfn iter)) as [Hlt | Hge].
    + apply bind_Ok in H as ([[it iter1] k1] & Hnext & H). simpl in H.
      destruct (mem_upd_vm_area_round dir flags s e phy0 iter phy_pfn k it iter1 k1
                  Hfresh Hinv ltac:(lia) Hnext) as [Hinv1 Hpfn1].
      cbv zeta in Hinv1.
      refine (IH iter1 _ _ iter' k' _ Hinv1 H). lia.
    + inversion H; subst; clear H.
      assert (it_pfn iter' = it_last_pfn iter') by lia.
      split; [unfold __pg_iter_has_next; apply Z.ltb_ge; lia |].
      split; [exact Hwf |]. intros p Hp. apply Hdone. lia.
Qed.

(** [mem_upd_vm_area] on a range that does not reach the last page of the
    address space: the loop runs to the end of the range and every page
    of it is mapped as asked. *)
Lemma mem_upd_vm_area_spec dir virt_start phy_start size flags k k' :
  pgtbl_alloc_fresh -> dir_wf k dir ->
  0 <= virt_start -> 0 <= size -> virt_start + size + PAGE_SIZE - 1 < 2 ^ 32 ->
  mem_upd_vm_area dir virt_start phy_start size flags k = Ok k' ->
  dir_wf k' dir
  /\ (forall p, virt_start / PAGE_SIZE <= p < (virt_start + size + PAGE_SIZE - 1) / PAGE_SIZE ->
        entry_mapped flags (phy_start / PAGE_SIZE) (virt_start / PAGE_SIZE) k' dir p).
Proof.
  intros Hfresh Hwf Hstart Hsize Hfits H.
  assert (HP : PAGE_SIZE = 4096) by reflexivity.
  unfold mem_upd_vm_area in H.
  apply bind_Ok in H as ([iter k1] & Hinit & H).
  apply bind_Ok in H as ([iter' k2] & Hloop & H). inversion H; subst; clear H.
  unfold __pg_iter_init in Hinit.
  apply bind_Ok in Hinit as ([t k0] & Halloc & Hinit). inversion Hinit; subst; clear Hinit.
  simpl in Hloop.
  rewrite (u32_small (virt_start + size + PAGE_SIZE - 1)) in Hloop by lia.
  pose proof (pg_entry_install dir (virt_start / PAGE_SIZE / 1024) flags k t k0
                Hfresh Hwf Halloc) as (Hwf1 & Hp1 & Hf1 & _).
  cbv zeta in Hwf1, Hp1, Hf1.
  set (s := virt_start / PAGE_SIZE) in *.
  set (e := (virt_start + size + PAGE_SIZE - 1) / PAGE_SIZE) in *.
  assert (Hse : 0 <= s <= e).
  { unfold s, e. split; [apply Z.div_pos; lia | apply Z.div_le_mono; lia]. }
  assert (He : e <= 2 ^ 20).
  { unfold e. change (2 ^ 20) with 1048576. change (2 ^ 32) with 4294967296 in Hfits.
    apply Z.lt_le_incl, Z.div_lt_upper_bound; lia. }
  assert (Hinv : loop_inv dir flags s e (phy_start / PAGE_SIZE)
                   (mk_iter dir (s / 1024) t s e flags) (phy_start / PAGE_SIZE)
                   (__set_pg_entry_frame dir (s / 1024) t k0)).
  { unfold loop_inv. simpl. split_all; auto; try lia.
    intros _. rewrite Z.sub_diag, Z.add_0_r. reflexivity. }
  assert (Hfuel : e - it_pfn (mk_iter dir (s / 1024) t s e flags)
                  <= Z.of_nat (iter_rounds (mk_iter dir (s / 1024) t s e flags))).
  { unfold iter_rounds. simpl. lia. }
  destruct (mem_upd_vm_area_loop_spec dir flags s e (phy_start / PAGE_SIZE) Hfresh
              _ _ _ _ _ _ Hfuel Hinv Hloop) as (_ & Hwf2 & Hmapped).
  split; assumption.
Qed.

(** C6 (amended).  For a call of [create_vm_area] that returns, on a
    range that stops short of the last page of the address space: with
    [MM_COW] no page frame is allocated and every page of the range is
    marked COW and not present; without it, exactly one block is taken
    from the allocator, of the smallest order whose run covers
    [size / PAGE_SIZE] pages, and the pages of the range are mapped to
    consecutive frames from the start of that block, present exactly when
    [pgflags] contain [MM_PRESENT]. *)
Theorem create_vm_area_mapping mmp vm_start0 size pgflags gfpflags k segment k' mm :
  pgtbl_alloc_fresh ->
  mms k !! mmp = Some mm -> dir_wf k (pgd mm) ->
  0 <= vm_start0 -> 0 <= size -> vm_start0 + size + PAGE_SIZE - 1 < 2 ^ 32 ->
  create_vm_area mmp vm_start0 size pgflags gfpflags k = Ok (segment, k') ->
  let o := find_nearest_order_greater vm_start0 size in
  (flag pgflags MM_COW = true ->
   mem_map k' = mem_map k
   /\ forall a, vm_start0 <= a < vm_start0 + size ->
        kernel_cow (walk k' (pgd mm) (a / PAGE_SIZE)) = true
        /\ present (walk k' (pgd mm) (a / PAGE_SIZE)) = false)
  /\ (flag pgflags MM_COW = false ->
      exists page mem_map',
        _alloc_pages (mem_map k) gfpflags o = Some (page, mem_map')
        /\ mem_map k' = mem_map'
        /\ size / PAGE_SIZE <= 2 ^ o
        /\ (forall o', 0 <= o' < o -> 2 ^ o' < size / PAGE_SIZE)
        /\ forall a, vm_start0 <= a < vm_start0 + size ->
             present (walk k' (pgd mm) (a / PAGE_SIZE)) = flag pgflags MM_PRESENT
             /\ frame (walk k' (pgd mm) (a / PAGE_SIZE)) =
                  (get_physical_address_from_page page / PAGE_SIZE
                   + (a / PAGE_SIZE - vm_start0 / PAGE_SIZE)) mod 2 ^ 20).
Proof.
  intros Hfresh Hmm Hwf Hstart Hsize Hfits H. cbv zeta.
  assert (HP : PAGE_SIZE = 4096) by reflexivity.
  assert (Hpage : forall a, vm_start0 <= a < vm_start0 + size ->
            vm_start0 / PAGE_SIZE <= a / PAGE_SIZE
              < (vm_start0 + size + PAGE_SIZE - 1) / PAGE_SIZE).
  { intros a Ha. split; [apply Z.div_le_mono; lia |].
    apply Z.le_lt_trans with ((vm_start0 + size - 1) / PAGE_SIZE);
      [apply Z.div_le_mono; lia |].
    replace (vm_start0 + size + PAGE_SIZE - 1)
      with (vm_start0 + size - 1 + 1 * PAGE_SIZE) by lia.
    rewrite Z.div_add by lia. lia. }
  unfold create_vm_area in H. rewrite Hmm in H. simpl in H.
  destruct (is_valid_vm_area mm vm_start0 (u32 (vm_start0 + size)) <=? 0);
    [discriminate |].
  apply bind_Ok in H as ([[pgflags' phy_start] k1] & Hr & H).
  apply bind_Ok in H as (k2 & Hupd & H). simpl in Hupd.
  inversion H; subst; clear H.
  split.
  - intros Hcow. rewrite Hcow in Hr. inversion Hr; subst; clear Hr.
    destruct (cow_flags pgflags Hcow) as (Hc & Hp & Hu). cbv zeta in Hc, Hp, Hu.
    pose proof (mem_upd_vm_area_mms _ _ _ _ _ _ _ Hupd) as [_ Hmap].
    destruct (mem_upd_vm_area_spec _ _ _ _ _ _ _ Hfresh Hwf Hstart Hsize Hfits Hupd)
      as [_ Hmapped].
    split; [exact Hmap |].
    intros a Ha. destruct (Hmapped _ (Hpage a Ha)) as (_ & Hpres & _ & Hkcow & _).
    unfold walk in *.
    rewrite !(get_pde_ext k2), !(get_pte_ext k2) by reflexivity.
    split; congruence.
  - intros Hcow. rewrite Hcow in Hr.
    apply bind_Ok in Hr as ([page mem_map'] & Halloc & Hr). apply deref_Ok in Halloc.
    inversion Hr; subst; clear Hr.
    destruct (updaddr_flags pgflags) as (Hu & Hp). cbv zeta in Hu, Hp.
    pose proof (mem_upd_vm_area_mms _ _ _ _ _ _ _ Hupd) as [_ Hmap].
    assert (Hwf1 : dir_wf (set_mem_map mem_map' k) (pgd mm)).
    { apply (dir_wf_ext k); [reflexivity | intros tb Htb; exact Htb | exact Hwf]. }
    destruct (mem_upd_vm_area_spec _ _ _ _ _ _ _ Hfresh Hwf1 Hstart Hsize Hfits Hupd)
      as [_ Hmapped].
    destruct (find_nearest_order_greater_spec vm_start0 size ltac:(lia))
      as (_ & Hcover & Hleast).
    exists page, mem_map'. split; [exact Halloc |].
    split; [exact Hmap |]. split; [exact Hcover |]. split; [exact Hleast |].
    intros a Ha.
    destruct (Hmapped _ (Hpage a Ha)) as (_ & Hpres & _ & _ & _ & _ & Hframe).
    unfold walk in *.
    rewrite !(get_pde_ext k2), !(get_pte_ext k2) by reflexivity.
    split; [congruence | exact (Hframe Hu)].
Qed.

(** ** Copy-on-write resolution and the page-fault handler *)

(** An entry that is not marked COW is left alone and reported. *)
Lemma page_handle_cow_not_cow table i k :
  kernel_cow (get_pte k table i) = false -> __page_handle_cow table i k = Ok (1, k).
Proof.
  intros Hcow. unfold __page_handle_cow. rewrite Hcow. reflexivity.
Qed.

(** C1 (amended).  On an entry marked COW the handler clears the COW bit.
    If the entry was not present, it takes one page from the allocator,
    clears it, stores its frame number, sets present and returns 0.  If
    the entry was present, it allocates nothing, copies nothing and leaves
    frame, present and rw as they were: it returns 1, the fault is not
    resolved. *)
Theorem page_handle_cow_resolution table i k :
  kernel_cow (get_pte k table i) = true ->
  (present (get_pte k table i) = false ->
   forall page mem_map',
     _alloc_pages (mem_map k) GFP_HIGHUSER 0 = Some (page, mem_map') ->
     exists k',
       __page_handle_cow table i k = Ok (0, k')
       /\ kernel_cow (get_pte k' table i) = false
       /\ present (get_pte k' table i) = true
       /\ frame (get_pte k' table i)
          = Z.shiftr (get_physical_address_from_page page) 12 mod 2 ^ 20
       /\ rw (get_pte k' table i) = rw (get_pte k table i)
       /\ frames k' !! page = Some zero_page
       /\ mem_map k' = mem_map')
  /\ (present (get_pte k table i) = true ->
      exists k',
        __page_handle_cow table i k = Ok (1, k')
        /\ kernel_cow (get_pte k' table i) = false
        /\ present (get_pte k' table i) = true
        /\ frame (get_pte k' table i) = frame (get_pte k table i)
        /\ rw (get_pte k' table i) = rw (get_pte k table i)
        /\ frames k' = frames k
        /\ mem_map k' = mem_map k).
Proof.
  intros Hcow. split.
  - intros Hnp page mem_map' Halloc.
    eexists. unfold __page_handle_cow. rewrite Hcow. simpl.
    rewrite Hnp. simpl. rewrite Halloc. simpl.
    split; [reflexivity |].
    rewrite get_set_pte_same. simpl.
    repeat split. apply lookup_insert_eq.
  - intros Hp. eexists. unfold __page_handle_cow. rewrite Hcow. simpl.
    rewrite Hp. simpl. split; [reflexivity |].
    rewrite get_set_pte_same. simpl. repeat split. exact Hp.
Qed.

(** The terminal paths of the handler.  When the directory entry of the
    faulting address is
    not present, a fault from user mode with a current process ends in
    [SIGSEGV] and the scheduler, and any other one in a panic.  When the
    directory entry is present, the address is outside the window of
    transient mappings and the page-table entry is not marked COW, the
    fault ends in [SIGSEGV] only if it is a user-mode write to a present
    page (user, rw and present all set in the error code) and there is a
    current process; every other such fault, user-mode reads and faults
    on non-present pages included, ends in a panic.  Inside the window, a
    fault whose original entry is not marked COW always ends in a panic. *)
Lemma page_fault_terminal faulting_addr err_code cur_dir task k :
  let direntry := get_pde k cur_dir (faulting_addr / (1024 * PAGE_SIZE)) in
  let entry := get_pte k (pde_frame direntry) ((faulting_addr / PAGE_SIZE) mod 1024) in
  (pde_present direntry = false ->
   page_fault_handler faulting_addr err_code cur_dir task k =
     match task with
     | Some pid => if bit_check err_code 2 then Ok (Signalled pid k) else Panic
     | None => Panic
     end)
  /\ (pde_present direntry = true ->
      virtual_check_address faulting_addr = false ->
      kernel_cow entry = false ->
      page_fault_handler faulting_addr err_code cur_dir task k =
        match task with
        | Some pid =>
            if bit_check err_code 2 && bit_check err_code 1 && bit_check err_code 0
            then Ok (Signalled pid k) else Panic
        | None => Panic
        end)
  /\ (pde_present direntry = true ->
      virtual_check_address faulting_addr = true ->
      forall table i,
        pte_at_address (word_of_pte entry) = Some (table, i) ->
        kernel_cow (get_pte k table i) = false ->
        page_fault_handler faulting_addr err_code cur_dir task k = Panic).
Proof.
  intros direntry entry. split; [| split].
  - intros Hnp. unfold page_fault_handler. fold direntry. rewrite Hnp. simpl.
    destruct task, (bit_check err_code 2); reflexivity.
  - intros Hp Hwin Hcow. unfold page_fault_handler. fold direntry.
    rewrite Hp, Hwin. simpl.
    rewrite page_handle_cow_not_cow by exact Hcow. simpl.
    destruct task, (bit_check err_code 2 && bit_check err_code 1 && bit_check err_code 0);
      reflexivity.
  - intros Hp Hwin table i Hptr Hcow. unfold page_fault_handler. fold direntry.
    rewrite Hp, Hwin. simpl. fold entry. rewrite Hptr. simpl.
    rewrite page_handle_cow_not_cow by exact Hcow. reflexivity.
Qed.

(** C2 (defect in the code).  A fault from user mode, with a current
    process, on an address whose page-table entry is not marked COW ends
    in [SIGSEGV] and the scheduler only as long as the directory entry of
    the address is not present.  With the directory entry present, the
    same fault ends in a kernel panic unless the error code has rw and
    present set as well: a read from user mode, and a write from user
    mode to a page that is not present, stop the kernel where the first
    test of the handler, and the note above it, abort the process. *)
Theorem page_fault_user_mode_panics faulting_addr err_code cur_dir pid k :
  let direntry := get_pde k cur_dir (faulting_addr / (1024 * PAGE_SIZE)) in
  let entry := get_pte k (pde_frame direntry) ((faulting_addr / PAGE_SIZE) mod 1024) in
  bit_check err_code 2 = true ->
  bit_check err_code 1 && bit_check err_code 0 = false ->
  (pde_present direntry = false ->
   page_fault_handler faulting_addr err_code cur_dir (Some pid) k
   = Ok (Signalled pid k))
  /\ (pde_present direntry = true ->
      virtual_check_address faulting_addr = false ->
      kernel_cow entry = false ->
      page_fault_handler faulting_addr err_code cur_dir (Some pid) k = Panic).
Proof.
  intros direntry entry Huser Hnot.
  destruct (page_fault_terminal faulting_addr err_code cur_dir (Some pid) k)
    as (Hdir & Hpte & _).
  split.
  - intros Hnp. rewrite (Hdir Hnp), Huser. reflexivity.
  - intros Hp Hwin Hcow. rewrite (Hpte Hp Hwin Hcow), Huser. simpl.
    rewrite Hnot. reflexivity.
Qed.

(** ** [sys_mmap] *)

(** Clearing [MM_PRESENT] and [MM_UPDADDR] leaves the other flags. *)
Lemma cow_flags_other pgflags n :
  0 <= n -> n <> 3 -> n <> 5 ->
  flag (Z.land pgflags (Z.lnot (Z.lor MM_PRESENT MM_UPDADDR))) (2 ^ n) = flag pgflags (2 ^ n).
Proof.
  forget_unused.
  intros Hn H3 H5. change MM_PRESENT with (2 ^ 3). change MM_UPDADDR with (2 ^ 5).
  rewrite !flag_testbit by lia.
  rewrite Z.land_spec, Z.lnot_spec, Z.lor_spec by lia.
  rewrite !Z.pow2_bits_eqb by lia.
  destruct (Z.eqb_spec 3 n); [lia |]. destruct (Z.eqb_spec 5 n); [lia |].
  simpl. apply andb_true_r.
Qed.

(** What a call of [create_vm_area] with [MM_COW] that returns has done. *)
Lemma create_vm_area_cow_inv mmp vm_start0 size pgflags gfpflags k segment k' mm :
  mms k !! mmp = Some mm -> flag pgflags MM_COW = true ->
  create_vm_area mmp vm_start0 size pgflags gfpflags k = Ok (segment, k') ->
  exists k1,
    mem_upd_vm_area (pgd mm) vm_start0 0 size
      (Z.land pgflags (Z.lnot (Z.lor MM_PRESENT MM_UPDADDR))) k = Ok k1
    /\ k' = set_mms (<[mmp := mm_after_create mm segment
                               (find_nearest_order_greater vm_start0 size)]> (mms k1)) k1
    /\ segment = mk_vma mmp vm_start0 (u32 (vm_start0 + size)) uninitialised
    /\ 0 < is_valid_vm_area mm vm_start0 (u32 (vm_start0 + size)).
Proof.
  intros Hmm Hcow H. unfold create_vm_area in H. rewrite Hmm in H. simpl in H.
  destruct (Z.leb_spec (is_valid_vm_area mm vm_start0 (u32 (vm_start0 + size))) 0)
    as [Hle | Hgt]; [discriminate |].
  rewrite Hcow in H. simpl in H.
  apply bind_Ok in H as (k1 & Hupd & H). inversion H; subst; clear H.
  exists k1. split; [exact Hupd |]. split; [reflexivity |]. split; [reflexivity | exact Hgt].
Qed.

(** Mapping into the table of a global directory entry without
    [MM_GLOBAL] ends in a panic. *)
Lemma mem_upd_vm_area_global_panics dir virt_start phy_start size flags k :
  pde_present (get_pde k dir (virt_start / PAGE_SIZE / 1024)) = true ->
  pde_global (get_pde k dir (virt_start / PAGE_SIZE / 1024)) = true ->
  flag flags MM_GLOBAL = false ->
  mem_upd_vm_area dir virt_start phy_start size flags k = Panic.
Proof.
  intros Hp Hg Hf. unfold mem_upd_vm_area, __pg_iter_init, __mem_pg_entry_alloc.
  rewrite Hp, Hg, Hf. reflexivity.
Qed.

(** The range [is_valid_vm_area] lets through is not empty. *)
Lemma is_valid_vm_area_pos mm vm_start0 vm_end0 :
  0 < is_valid_vm_area mm vm_start0 vm_end0 -> vm_start0 < vm_end0.
Proof.
  forget_unused.
  unfold is_valid_vm_area. destruct (Z.leb_spec vm_end0 vm_start0); lia.
Qed.

Lemma is_valid_vm_area_empty mm vm_start0 vm_end0 :
  vm_end0 <= vm_start0 -> is_valid_vm_area mm vm_start0 vm_end0 = -1.
Proof.
  forget_unused.
  intros Hle. unfold is_valid_vm_area. destruct (Z.leb_spec vm_end0 vm_start0); [reflexivity | lia].
Qed.

Lemma create_vm_area_empty_panics mmp vm_start0 size pgflags gfpflags k mm :
  mms k !! mmp = Some mm -> u32 (vm_start0 + size) <= vm_start0 ->
  create_vm_area mmp vm_start0 size pgflags gfpflags k = Panic.
Proof.
  intros Hmm Hle. unfold create_vm_area. rewrite Hmm. simpl.
  rewrite is_valid_vm_area_empty by exact Hle. reflexivity.
Qed.

(** X14.  A call of [sys_mmap] with length 0 maps nothing: it returns NULL
    when no address is given and the descriptor has fewer than two areas,
    and ends in a kernel panic in every other case, since a non-zero hint
    is taken as valid on the answer -1 of [is_valid_vm_area] and
    [find_free_vm_area] finds room for no bytes between any two areas. *)
Theorem sys_mmap_zero_length task_mm addr prot flags fd offset k mm :
  mms k !! task_mm = Some mm -> 0 <= addr < 2 ^ 32 ->
  sys_mmap task_mm addr 0 prot flags fd offset k =
    if (addr =? 0) && (length (mmap_list mm) <? 2)%nat then Ok (0, k) else Panic.
Proof.
  intros Hmm Haddr. unfold sys_mmap. rewrite Hmm. simpl.
  rewrite Z.add_0_r, (u32_small addr) by exact Haddr.
  rewrite is_valid_vm_area_empty by lia. simpl. rewrite andb_true_r.
  destruct (Z.eqb_spec addr 0) as [-> | Hne]; simpl.
  - unfold find_free_vm_area. rewrite <- (length_rev (mmap_list mm)).
    destruct (rev (mmap_list mm)) as [| area [| prev rest]]; simpl; try reflexivity.
    pose proof (u32_range (vm_start area - vm_end prev)) as Hr.
    destruct (Z.leb_spec 0 (u32 (vm_start area - vm_end prev))) as [_ | Hlt]; [| lia].
    rewrite (create_vm_area_empty_panics _ _ _ _ _ _ mm Hmm); [reflexivity |].
    rewrite Z.sub_0_r, Z.add_0_r. unfold u32. rewrite Z.mod_mod by lia. lia.
  - rewrite (create_vm_area_empty_panics _ _ _ _ _ _ mm Hmm); [reflexivity |].
    rewrite Z.add_0_r, u32_small by exact Haddr. lia.
Qed.

Lemma find_free_vm_area_short mm length0 :
  (length (mmap_list mm) < 2)%nat -> find_free_vm_area mm length0 = None.
Proof.
  forget_unused.
  intros Hlen. unfold find_free_vm_area. rewrite <- (length_rev (mmap_list mm)) in Hlen.
  destruct (rev (mmap_list mm)) as [| area [| prev rest]]; simpl in *; try reflexivity. lia.
Qed.

(** X15.  [find_free_vm_area] looks for room between two areas only.  In
    a descriptor with fewer than two areas, [sys_mmap] without a hint, or
    with a hint that [is_valid_vm_area] answers with 0, returns NULL and
    changes nothing, whatever the length and however empty the address
    space is. *)
Theorem sys_mmap_needs_two_areas task_mm addr length0 prot flags fd offset k mm :
  mms k !! task_mm = Some mm -> (length (mmap_list mm) < 2)%nat ->
  addr = 0 \/ is_valid_vm_area mm addr (u32 (addr + length0)) = 0 ->
  sys_mmap task_mm addr length0 prot flags fd offset k = Ok (0, k).
Proof.
  intros Hmm Hlen Hhint. unfold sys_mmap. rewrite Hmm. simpl.
  assert (Hno : negb (addr =? 0)
                && negb (is_valid_vm_area mm addr (u32 (addr + length0)) =? 0) = false).
  { destruct Hhint as [-> | ->]; [reflexivity | apply andb_false_r]. }
  rewrite Hno, find_free_vm_area_short by exact Hlen. reflexivity.
Qed.

(** X16.  A hint that [is_valid_vm_area] accepts is used as it is.  When
    the directory entry of the hinted address is a present global one,
    that of a kernel table, [sys_mmap] does not fail with an error: the
    attempt to map user pages through the entry ends in a kernel panic. *)
Theorem sys_mmap_hint_in_global_table_panics task_mm addr length0 prot flags fd offset k mm :
  mms k !! task_mm = Some mm -> addr <> 0 ->
  0 < is_valid_vm_area mm addr (u32 (addr + length0)) ->
  pde_present (get_pde k (pgd mm) (addr / PAGE_SIZE / 1024)) = true ->
  pde_global (get_pde k (pgd mm) (addr / PAGE_SIZE / 1024)) = true ->
  sys_mmap task_mm addr length0 prot flags fd offset k = Panic.
Proof.
  intros Hmm Haddr Hvalid Hp Hg. unfold sys_mmap. rewrite Hmm. simpl.
  destruct (Z.eqb_spec addr 0) as [Hz | _]; [contradiction |].
  destruct (Z.eqb_spec (is_valid_vm_area mm addr (u32 (addr + length0))) 0) as [Hz | _];
    [lia |].
  simpl. unfold create_vm_area. rewrite Hmm. simpl.
  destruct (Z.leb_spec (is_valid_vm_area mm addr (u32 (addr + length0))) 0) as [Hle | _];
    [lia |].
  change (flag (Z.lor MM_PRESENT (Z.lor MM_RW (Z.lor MM_COW MM_USER))) MM_COW) with true.
  simpl. rewrite mem_upd_vm_area_global_panics; [reflexivity | exact Hp | exact Hg |].
  reflexivity.
Qed.

(** The sizes [sys_munmap] compares. *)
Lemma u32_sub_add v n : 0 <= n < 2 ^ 32 -> u32 (u32 (v + n) - v) = n.
Proof.
  forget_unused.
  intros Hn. unfold u32. rewrite Zminus_mod_idemp_l.
  replace (v + n - v) with n by lia. apply Z.mod_small. exact Hn.
Qed.

(** What a call of [sys_mmap] that returns an address has done. *)
Lemma sys_mmap_inv task_mm addr length0 prot flags fd offset k mm v k1 :
  mms k !! task_mm = Some mm ->
  sys_mmap task_mm addr length0 prot flags fd offset k = Ok (v, k1) -> v <> 0 ->
  exists k0,
    let segment := mk_vma task_mm v (u32 (v + length0)) uninitialised in
    let mm0 := mm_after_create mm segment (find_nearest_order_greater v length0) in
    create_vm_area task_mm v length0
      (Z.lor MM_PRESENT (Z.lor MM_RW (Z.lor MM_COW MM_USER))) GFP_HIGHUSER k
    = Ok (segment, k0)
    /\ (v = addr \/ find_free_vm_area mm length0 = Some v)
    /\ mms k0 !! task_mm = Some mm0
    /\ mem_map k0 = mem_map k
    /\ k1 = set_mms
              (<[task_mm :=
                   {| mmap_list :=
                        <[vm_area_position segment (mmap_list mm0)
                          := set_vm_flags flags segment]> (mmap_list mm0);
                      mmap_cache := Some (set_vm_flags flags segment);
                      pgd := pgd mm0; map_count := map_count mm0;
                      total_vm := total_vm mm0; start_stack := start_stack mm0 |}]>
                 (mms k0)) k0.
Proof.
  intros Hmm H Hv. unfold sys_mmap in H. rewrite Hmm in H. simpl in H.
  match type of H with
  | context [match ?c with Some _ => _ | None => _ end] =>
      destruct c as [vm_start0 |] eqn:Hchoice
  end; [| inversion H; subst; contradiction].
  apply bind_Ok in H as ([segment k0] & Hcreate & H). simpl in H.
  pose proof Hcreate as Hinv.
  apply (create_vm_area_cow_inv task_mm vm_start0 length0
           (Z.lor MM_PRESENT (Z.lor MM_RW (Z.lor MM_COW MM_USER))) GFP_HIGHUSER
           k segment k0 mm Hmm eq_refl) in Hinv
    as (kx & Hupd & -> & -> & _).
  pose proof (mem_upd_vm_area_mms _ _ _ _ _ _ _ Hupd) as [Hm Hp].
  simpl in H. rewrite lookup_insert_eq in H. simpl in H.
  inversion H; subst; clear H.
  eexists. cbv zeta. split; [exact Hcreate |]. split.
  - destruct (negb (addr =? 0)
              && negb (is_valid_vm_area mm addr (u32 (addr + length0)) =? 0)).
    + inversion Hchoice. left. reflexivity.
    + right. exact Hchoice.
  - split; [apply lookup_insert_eq |]. split; [exact Hp | reflexivity].
Qed.

(** [sys_munmap] when the search finds an area. *)
Lemma sys_munmap_found task_mm addr length0 k mm i :
  (forall m p, orders_ok m -> orders_ok (__free_pages m p)) ->
  orders_ok (mem_map k) ->
  mms k !! task_mm = Some mm ->
  find_prev (fun segment => (addr =? vm_start segment)
                            && (length0 =? u32 (vm_end segment - vm_start segment)))
    (mmap_list mm) = Some i ->
  exists k', sys_munmap task_mm addr length0 k = Ok (0, k')
             /\ mms k' = <[task_mm := mm_after_destroy mm i]> (mms k).
Proof.
  intros Hfree Hok Hmm Hfind. unfold sys_munmap. rewrite Hmm. simpl. rewrite Hfind.
  pose proof (find_prev_Some _ _ _ Hfind) as (a & Hi & _).
  destruct (destroy_vm_area_total task_mm i k mm a Hfree Hok Hmm Hi) as (k' & Hd & Hm).
  rewrite Hd. simpl. exists k'. split; [reflexivity | exact Hm].
Qed.

(** X17.  [munmap] of what [mmap] returned, with the same length, finds
    an area and returns 0: the area removed starts at the address and has
    that size, no page frame was allocated in between, and the count of
    areas is what it was before the pair.  [total_vm] is not: it keeps
    the pages [create_vm_area] added for the area. *)
Theorem sys_mmap_munmap_round_trip task_mm addr length0 prot flags fd offset k mm v k1 :
  (forall m p, orders_ok m -> orders_ok (__free_pages m p)) ->
  orders_ok (mem_map k) ->
  mms k !! task_mm = Some mm -> 0 <= length0 < 2 ^ 32 ->
  sys_mmap task_mm addr length0 prot flags fd offset k = Ok (v, k1) -> v <> 0 ->
  mem_map k1 = mem_map k
  /\ exists i a k2 mm1 mm2,
       sys_munmap task_mm v length0 k1 = Ok (0, k2)
       /\ mms k1 !! task_mm = Some mm1 /\ mms k2 !! task_mm = Some mm2
       /\ mmap_list mm1 !! i = Some a
       /\ vm_start a = v /\ u32 (vm_end a - vm_start a) = length0
       /\ mmap_list mm2 = delete i (mmap_list mm1)
       /\ length (mmap_list mm2) = length (mmap_list mm)
       /\ map_count mm2 = map_count mm
       /\ total_vm mm2
          = u32 (total_vm mm + u32 (2 ^ find_nearest_order_greater v length0)).
Proof.
  intros Hfree Hok Hmm Hlen Hmmap Hv.
  destruct (sys_mmap_inv _ _ _ _ _ _ _ _ mm _ _ Hmm Hmmap Hv)
    as (k0 & Hcreate & _ & Hmm0 & Hmap & ->).
  cbv zeta in *.
  set (segment := mk_vma task_mm v (u32 (v + length0)) uninitialised) in *.
  set (mm0 := mm_after_create mm segment (find_nearest_order_greater v length0)) in *.
  set (pos := vm_area_position segment (mmap_list mm0)).
  set (mm1 := {| mmap_list := <[pos := set_vm_flags flags segment]> (mmap_list mm0);
                 mmap_cache := Some (set_vm_flags flags segment);
                 pgd := pgd mm0; map_count := map_count mm0;
                 total_vm := total_vm mm0; start_stack := start_stack mm0 |}).
  set (k1 := set_mms (<[task_mm := mm1]> (mms k0)) k0).
  split; [exact Hmap |].
  assert (Hpos : mmap_list mm0 !! pos = Some segment).
  { unfold pos, mm0. simpl. apply vm_area_position_insert. }
  assert (Hseg : mmap_list mm1 !! pos = Some (set_vm_flags flags segment)).
  { simpl. apply list_lookup_insert_eq. apply lookup_lt_Some in Hpos. exact Hpos. }
  assert (Hmm1 : mms k1 !! task_mm = Some mm1) by apply lookup_insert_eq.
  destruct (find_prev_exists
              (fun s0 => (v =? vm_start s0) && (length0 =? u32 (vm_end s0 - vm_start s0)))
              (mmap_list mm1) (set_vm_flags flags segment)) as [i Hfind].
  { apply list_elem_of_lookup. eauto. }
  { simpl. rewrite Z.eqb_refl, u32_sub_add by exact Hlen. rewrite Z.eqb_refl. reflexivity. }
  pose proof (find_prev_Some _ _ _ Hfind) as (a & Hi & Hp).
  apply andb_true_iff in Hp as [Hstart Hsize]. apply Z.eqb_eq in Hstart, Hsize.
  destruct (sys_munmap_found task_mm v length0 k1 mm1 i Hfree) as (k2 & Hd & Hm2);
    [unfold k1; simpl; rewrite Hmap; exact Hok | exact Hmm1 | exact Hfind |].
  exists i, a, k2, mm1, (mm_after_destroy mm1 i).
  split; [exact Hd |]. split; [exact Hmm1 |].
  split; [rewrite Hm2; apply lookup_insert_eq |]. split; [exact Hi |].
  split; [congruence |]. split; [congruence |]. split; [reflexivity |].
  split.
  - assert (Hl1 : length (mmap_list mm1) = S (length (mmap_list mm))).
    { unfold mm1, mm0. simpl. rewrite length_insert.
      rewrite vm_area_insert_length, list_head_sort_length. reflexivity. }
    change (mmap_list (mm_after_destroy mm1 i)) with (delete i (mmap_list mm1)).
    rewrite length_delete by eauto. lia.
  - split; [simpl; lia | reflexivity].
Qed.

(** ** Finding the area just created *)

(** X18.  After [create_vm_area], [find_vm_area] on the start address
    finds an area that starts there, the last such of the sorted list;
    when no area of the descriptor started at that address before, it is
    the segment created, which is also what [mmap_cache] points to. *)
Theorem create_vm_area_then_find mmp vm_start0 size pgflags gfpflags k segment k' :
  create_vm_area mmp vm_start0 size pgflags gfpflags k = Ok (segment, k') ->
  exists mm mm' i a,
    mms k !! mmp = Some mm /\ mms k' !! mmp = Some mm'
    /\ find_vm_area mm' vm_start0 = Some i /\ mmap_list mm' !! i = Some a
    /\ vm_start a = vm_start0
    /\ (forall j b, (i < j)%nat -> mmap_list mm' !! j = Some b -> vm_start b <> vm_start0)
    /\ (Forall (fun b => vm_start b <> vm_start0) (mmap_list mm) -> a = segment)
    /\ mmap_cache mm' = Some segment.
Proof.
  intros Hcreate.
  apply create_vm_area_inv in Hcreate as (mm & Hmm & _ & Hseg & Hmms).
  set (mm' := mm_after_create mm segment (find_nearest_order_greater vm_start0 size)) in *.
  assert (Hin : segment ∈ mmap_list mm').
  { unfold mm'. simpl. apply vm_area_insert_elem. left. reflexivity. }
  assert (Hstart : vm_start segment = vm_start0) by (rewrite Hseg; reflexivity).
  destruct (find_prev_exists (fun s0 => vm_start s0 =? vm_start0) (mmap_list mm') segment Hin)
    as [i Hfind]; [apply Z.eqb_eq; exact Hstart |].
  pose proof (find_prev_Some _ _ _ Hfind) as (a & Hi & Ha). apply Z.eqb_eq in Ha.
  exists mm, mm', i, a.
  split; [exact Hmm |]. split; [rewrite Hmms; apply lookup_insert_eq |].
  split; [exact Hfind |]. split; [exact Hi |]. split; [exact Ha |]. split.
  - intros j b Hj Hb. apply Z.eqb_neq. exact (find_prev_last _ _ _ Hfind j b Hj Hb).
  - split; [| reflexivity].
    intros Hnone.
    assert (Ha' : a ∈ mmap_list mm') by (apply list_elem_of_lookup; eauto).
    unfold mm' in Ha'. simpl in Ha'.
    apply vm_area_insert_elem in Ha' as [-> | Ha']; [reflexivity |].
    apply (proj1 (list_head_sort_elem _ _)) in Ha'. rewrite Forall_forall in Hnone.
    exfalso. exact (Hnone a Ha' Ha).
Qed.

(** ** Zero-fill on demand *)

(** The entry [__page_handle_cow] leaves when it backs a page. *)
Definition backed_entry (e : page_table_entry_t) (page : Z) : page_table_entry_t :=
  pte_set_present
    (pte_set_frame (pte_set_cow e false)
       (Z.shiftr (get_physical_address_from_page page) 12)) true.

(** The handler on a page that is marked COW and not present, outside the
    window of transient mappings. *)
Lemma page_fault_backs_page faulting_addr err_code cur_dir task k page mem_map' :
  let table := pde_frame (get_pde k cur_dir (faulting_addr / PAGE_SIZE / 1024)) in
  let index := (faulting_addr / PAGE_SIZE) mod 1024 in
  pde_present (get_pde k cur_dir (faulting_addr / PAGE_SIZE / 1024)) = true ->
  virtual_check_address faulting_addr = false ->
  kernel_cow (get_pte k table index) = true ->
  present (get_pte k table index) = false ->
  _alloc_pages (mem_map k) GFP_HIGHUSER 0 = Some (page, mem_map') ->
  page_fault_handler faulting_addr err_code cur_dir task k =
    Ok (Resolved
          (paging_flush_tlb_single faulting_addr
             (set_pte table index (backed_entry (get_pte k table index) page)
                (set_frames (<[page := zero_page]> (frames k))
                   (set_mem_map mem_map'
                      (set_pte table index (pte_set_cow (get_pte k table index) false) k)))))).
Proof.
  intros table index Hp Hwin Hcow Hnp Halloc.
  unfold page_fault_handler.
  replace (faulting_addr / (1024 * PAGE_SIZE)) with (faulting_addr / PAGE_SIZE / 1024)
    by (rewrite Z.div_div by (unfold PAGE_SIZE; lia); f_equal; unfold PAGE_SIZE; lia).
  rewrite Hp, Hwin. simpl. fold table index.
  unfold __page_handle_cow. rewrite Hcow. simpl. rewrite Hnp. simpl.
  rewrite Halloc. simpl. reflexivity.
Qed.

(** X19.  Zero-fill on demand.  After [create_vm_area] with [MM_COW] has
    returned, the first fault on any address of the area, whatever its
    error code and the mode it came from, is resolved without a signal: the
    handler takes one page from the allocator, clears it, stores its frame
    in the entry, sets present, clears the COW bit, keeps the rw and user
    bits asked for at creation, and flushes the TLB entry of the address. *)
Theorem demand_zero_after_create mmp vm_start0 size pgflags gfpflags k segment k1 mm
    faulting_addr err_code task page mem_map' :
  pgtbl_alloc_fresh ->
  mms k !! mmp = Some mm -> dir_wf k (pgd mm) ->
  0 <= vm_start0 -> 0 <= size -> vm_start0 + size + PAGE_SIZE - 1 < 2 ^ 32 ->
  flag pgflags MM_COW = true ->
  create_vm_area mmp vm_start0 size pgflags gfpflags k = Ok (segment, k1) ->
  vm_start0 <= faulting_addr < vm_start0 + size ->
  virtual_check_address faulting_addr = false ->
  _alloc_pages (mem_map k1) GFP_HIGHUSER 0 = Some (page, mem_map') ->
  exists k2,
    page_fault_handler faulting_addr err_code (pgd mm) task k1 = Ok (Resolved k2)
    /\ present (walk k2 (pgd mm) (faulting_addr / PAGE_SIZE)) = true
    /\ kernel_cow (walk k2 (pgd mm) (faulting_addr / PAGE_SIZE)) = false
    /\ frame (walk k2 (pgd mm) (faulting_addr / PAGE_SIZE)) = page mod 2 ^ 20
    /\ rw (walk k2 (pgd mm) (faulting_addr / PAGE_SIZE)) = flag pgflags MM_RW
    /\ user (walk k2 (pgd mm) (faulting_addr / PAGE_SIZE)) = flag pgflags MM_USER
    /\ frames k2 !! page = Some zero_page
    /\ mem_map k2 = mem_map'
    /\ tlb k2 = faulting_addr :: tlb k1
    /\ mms k2 = mms k1.
Proof.
  intros Hfresh Hmm Hwf Hstart Hsize Hfits Hcow Hcreate Hin Hwin Halloc.
  assert (HP : PAGE_SIZE = 4096) by reflexivity.
  destruct (create_vm_area_cow_inv _ _ _ _ _ _ _ _ mm Hmm Hcow Hcreate)
    as (k0 & Hupd & -> & _ & _).
  destruct (mem_upd_vm_area_spec _ _ _ _ _ _ _ Hfresh Hwf Hstart Hsize Hfits Hupd)
    as [_ Hmapped].
  assert (Hpage : vm_start0 / PAGE_SIZE <= faulting_addr / PAGE_SIZE
                  < (vm_start0 + size + PAGE_SIZE - 1) / PAGE_SIZE).
  { split; [apply Z.div_le_mono; lia |].
    apply Z.le_lt_trans with ((vm_start0 + size - 1) / PAGE_SIZE);
      [apply Z.div_le_mono; lia |].
    replace (vm_start0 + size + PAGE_SIZE - 1)
      with (vm_start0 + size - 1 + 1 * PAGE_SIZE) by lia.
    rewrite Z.div_add by lia. lia. }
  destruct (Hmapped _ Hpage) as (Hpde & Hpres & Hrw & Hkcow & _ & Huser & _).
  destruct (cow_flags pgflags Hcow) as (Hc & Hp & _). cbv zeta in Hc, Hp.
  rewrite Hp in Hpres. rewrite Hc in Hkcow.
  change MM_RW with (2 ^ 2) in Hrw. rewrite cow_flags_other in Hrw by lia.
  change MM_USER with (2 ^ 0) in Huser. rewrite cow_flags_other in Huser by lia.
  set (k1 := set_mms _ k0) in *.
  assert (Hpde1 : forall i, get_pde k1 (pgd mm) i = get_pde k0 (pgd mm) i)
    by (intros i; apply get_pde_ext; reflexivity).
  assert (Hpte1 : forall t i, get_pte k1 t i = get_pte k0 t i)
    by (intros t i; apply get_pte_ext; reflexivity).
  unfold walk in *.
  set (table := pde_frame (get_pde k1 (pgd mm) (faulting_addr / PAGE_SIZE / 1024))).
  set (index := (faulting_addr / PAGE_SIZE) mod 1024).
  set (e := get_pte k1 table index).
  set (k2 := paging_flush_tlb_single faulting_addr
               (set_pte table index (backed_entry e page)
                  (set_frames (<[page := zero_page]> (frames k1))
                     (set_mem_map mem_map'
                        (set_pte table index (pte_set_cow e false) k1))))).
  assert (Hentry : get_pte k2 table index = backed_entry e page).
  { unfold k2. rewrite (get_pte_ext (set_pte table index (backed_entry e page)
                                       (set_frames (<[page := zero_page]> (frames k1))
                                          (set_mem_map mem_map'
                                             (set_pte table index (pte_set_cow e false) k1)))))
      by reflexivity.
    apply get_set_pte_same. }
  exists k2. split.
  - apply (page_fault_backs_page _ _ _ _ _ page mem_map');
      rewrite ?Hpde1, ?Hpte1; assumption.
  - rewrite (get_pde_ext k1 k2) by reflexivity. fold table index. rewrite Hentry.
    unfold e, table, index. rewrite Hpte1, Hpde1. simpl.
    split; [reflexivity |]. split; [reflexivity |].
    split; [apply frame_of_page |]. split; [exact Hrw |]. split; [exact Huser |].
    split; [apply lookup_insert_eq |]. repeat split.
Qed.

(** ** What a lazily mapped page is backed by *)

(** The table [__mem_pg_entry_alloc] returns is the one the entry named,
    or a cleared new one. *)
Lemma mem_pg_entry_alloc_table dir i flags k t k1 :
  __mem_pg_entry_alloc dir i flags k = Ok (t, k1) ->
  (pde_present (get_pde k dir i) = true /\ t = pde_frame (get_pde k dir i))
  \/ (pde_present (get_pde k dir i) = false
      /\ forall ix, get_pte (__set_pg_entry_frame dir i t k1) t ix = pte_zero).
Proof.
  unfold __mem_pg_entry_alloc. intros H.
  destruct (pde_present (get_pde k dir i)) eqn:Hpres; simpl in H.
  - left. split; [reflexivity |].
    destruct (pde_global (get_pde k dir i) && negb (flag flags MM_GLOBAL));
      [discriminate |].
    inversion H; subst. reflexivity.
  - right. split; [reflexivity |].
    apply bind_Ok in H as (t' & Ht & H). inversion H; subst; clear H.
    intros ix. unfold get_pte, __set_pg_entry_frame. simpl.
    rewrite lookup_insert_eq. simpl. rewrite lookup_empty. reflexivity.
Qed.

Lemma pg_entry_install_backing dir i flags k t k1 :
  pgtbl_alloc_fresh -> dir_wf k dir ->
  __mem_pg_entry_alloc dir i flags k = Ok (t, k1) ->
  forall p, backing (__set_pg_entry_frame dir i t k1) dir p = backing k dir p.
Proof.
  intros Hfresh Hwf Halloc p.
  pose proof (pg_entry_install dir i flags k t k1 Hfresh Hwf Halloc)
    as (_ & Hp2 & Hf2 & Hother & Hpte & _).
  cbv zeta in Hp2, Hf2, Hother, Hpte.
  destruct Hwf as [Htables _].
  unfold backing, walk.
  destruct (Z.eq_dec (p / 1024) i) as [Heq | Hne].
  - rewrite Heq, Hp2, Hf2.
    destruct (mem_pg_entry_alloc_table _ _ _ _ _ _ Halloc) as [[Hpres ->] | [Hpres Hzero]].
    + rewrite Hpres. rewrite Hpte by (apply Htables; exact Hpres). reflexivity.
    + rewrite Hpres, Hzero. reflexivity.
  - rewrite Hother by exact Hne.
    destruct (pde_present (get_pde k dir (p / 1024))) eqn:Hpres; [| reflexivity].
    rewrite Hpte by (apply Htables; exact Hpres). reflexivity.
Qed.

Lemma pg_iter_next_backing iter k it iter1 k1 :
  pgtbl_alloc_fresh -> dir_wf k (it_dir iter) ->
  __pg_iter_next iter k = Ok (it, iter1, k1) ->
  forall p, backing k1 (it_dir iter) p = backing k (it_dir iter) p.
Proof.
  intros Hfresh Hwf H p. unfold __pg_iter_next in H.
  destruct (u32 (it_pfn iter + 1) mod 1024 =? 0);
    [destruct (negb (u32 (it_pfn iter + 1) =? it_last_pfn iter));
     [destruct (negb ((it_entry iter + 1) mod 1024 =? 0)) |] |].
  - apply bind_Ok in H as ([t k0] & Halloc & H). inversion H; subst; clear H.
    simpl. apply (pg_entry_install_backing _ _ _ _ _ _ Hfresh Hwf Halloc).
  - inversion H; subst. reflexivity.
  - inversion H; subst. reflexivity.
  - inversion H; subst. reflexivity.
Qed.

(** Without [MM_UPDADDR] the body of the loop writes flags only. *)
Lemma mem_upd_vm_area_body_backing flags it phy_pfn k dir p :
  flag flags MM_UPDADDR = false ->
  backing (snd (mem_upd_vm_area_body flags it phy_pfn k)) dir p = backing k dir p.
Proof.
  forget_unused.
  intros Hupd. unfold mem_upd_vm_area_body. rewrite Hupd. simpl.
  unfold backing, walk.
  rewrite !(get_pde_ext k (set_pte _ _ _ k)) by reflexivity.
  destruct (pde_present (get_pde k dir (p / 1024))); [| reflexivity].
  destruct (decide ((pde_frame (get_pde k dir (p / 1024)), p mod 1024)
                    = (ie_table it, ie_index it))) as [Heq | Hne].
  - inversion Heq as [[Ht Hi]]. rewrite get_set_pte_same. reflexivity.
  - rewrite get_set_pte_other by exact Hne. reflexivity.
Qed.

Lemma mem_upd_vm_area_loop_backing dir flags s e phy0 :
  pgtbl_alloc_fresh -> flag flags MM_UPDADDR = false ->
  forall n iter phy_pfn k iter' k',
    loop_inv dir flags s e phy0 iter phy_pfn k ->
    mem_upd_vm_area_loop n flags iter phy_pfn k = Ok (iter', k') ->
    forall p, backing k' dir p = backing k dir p.
Proof.
  intros Hfresh Hupd. induction n as [| n IH]; intros iter phy_pfn k iter' k' Hinv H p.
  - simpl in H. inversion H; subst. reflexivity.
  - simpl in H. unfold __pg_iter_has_next in H.
    pose proof Hinv as (Hdir & Hlast & _ & _ & _ & _ & Hwf & _).
    destruct (Z.ltb_spec (it_pfn iter) (it_last_pfn iter)) as [Hlt | Hge].
    + apply bind_Ok in H as ([[it iter1] k1] & Hnext & H). simpl in H.
      destruct (mem_upd_vm_area_round dir flags s e phy0 iter phy_pfn k it iter1 k1
                  Hfresh Hinv ltac:(lia) Hnext) as [Hinv1 _].
      cbv zeta in Hinv1.
      rewrite (IH _ _ _ _ _ Hinv1 H p).
      rewrite mem_upd_vm_area_body_backing by exact Hupd.
      rewrite <- Hdir in *.
      apply (pg_iter_next_backing iter k it iter1 k1 Hfresh Hwf Hnext).
    + inversion H; subst. reflexivity.
Qed.

(** [mem_upd_vm_area] without [MM_UPDADDR] leaves in every entry the frame
    number it held; the entries of a table it allocates hold 0. *)
Lemma mem_upd_vm_area_backing dir virt_start phy_start size flags k k' :
  pgtbl_alloc_fresh -> dir_wf k dir ->
  0 <= virt_start -> 0 <= size -> virt_start + size + PAGE_SIZE - 1 < 2 ^ 32 ->
  flag flags MM_UPDADDR = false ->
  mem_upd_vm_area dir virt_start phy_start size flags k = Ok k' ->
  forall p, backing k' dir p = backing k dir p.
Proof.
  intros Hfresh Hwf Hstart Hsize Hfits Hupd H p.
  assert (HP : PAGE_SIZE = 4096) by reflexivity.
  unfold mem_upd_vm_area in H.
  apply bind_Ok in H as ([iter k1] & Hinit & H).
  apply bind_Ok in H as ([iter' k2] & Hloop & H). inversion H; subst; clear H.
  unfold __pg_iter_init in Hinit.
  apply bind_Ok in Hinit as ([t k0] & Halloc & Hinit). inversion Hinit; subst; clear Hinit.
  simpl in Hloop.
  rewrite (u32_small (virt_start + size + PAGE_SIZE - 1)) in Hloop by lia.
  pose proof (pg_entry_install dir (virt_start / PAGE_SIZE / 1024) flags k t k0
                Hfresh Hwf Halloc) as (Hwf1 & Hp1 & Hf1 & _).
  cbv zeta in Hwf1, Hp1, Hf1.
  pose proof (pg_entry_install_backing dir _ flags k t k0 Hfresh Hwf Halloc p) as Hb0.
  set (s := virt_start / PAGE_SIZE) in *.
  set (e := (virt_start + size + PAGE_SIZE - 1) / PAGE_SIZE) in *.
  assert (Hse : 0 <= s <= e).
  { unfold s, e. split; [apply Z.div_pos; lia | apply Z.div_le_mono; lia]. }
  assert (He : e <= 2 ^ 20).
  { unfold e. change (2 ^ 20) with 1048576. change (2 ^ 32) with 4294967296 in Hfits.
    apply Z.lt_le_incl, Z.div_lt_upper_bound; lia. }
  assert (Hinv : loop_inv dir flags s e (phy_start / PAGE_SIZE)
                   (mk_iter dir (s / 1024) t s e flags) (phy_start / PAGE_SIZE)
                   (__set_pg_entry_frame dir (s / 1024) t k0)).
  { unfold loop_inv. simpl. split_all; auto; try lia.
    intros _. rewrite Z.sub_diag, Z.add_0_r. reflexivity. }
  rewrite (mem_upd_vm_area_loop_backing dir flags s e (phy_start / PAGE_SIZE) Hfresh Hupd
             _ _ _ _ _ _ Hinv Hloop p).
  exact Hb0.
Qed.

(** [destroy_vm_area] on an area that one block covers, the count of its
    first page being at most one: a single call of [__free_pages]. *)
Lemma destroy_vm_area_one_block mmp i k mm area :
  mms k !! mmp = Some mm -> mmap_list mm !! i = Some area ->
  let total := u32 (vm_end area - vm_start area) in
  let r := mem_virtual_to_page k (pgd mm) (vm_start area) total in
  0 < total -> snd r = total -> page_count k (fst r) <= 1 ->
  exists k2, destroy_vm_area mmp i k = Ok (0, k2)
             /\ mem_map k2 = __free_pages (mem_map k) (fst r).
Proof.
  intros Hmm Hi total r Hpos Hall Hcount.
  assert (HP : PAGE_SIZE = 4096) by reflexivity.
  unfold destroy_vm_area. rewrite Hmm. simpl. rewrite Hi. simpl. fold total.
  assert (Hfuel : exists n, Z.to_nat (total / PAGE_SIZE + 1) = S n).
  { assert (0 <= total / PAGE_SIZE) by (apply Z.div_pos; lia).
    exists (Z.to_nat (total / PAGE_SIZE)). lia. }
  destruct Hfuel as [n ->].
  rewrite destroy_vm_area_loop_S. cbv zeta. fold r.
  destruct (Z.ltb_spec 0 total) as [_ | Hle]; [| lia].
  destruct (Z.ltb_spec 1 (page_count k (fst r))) as [Hgt | _]; [lia |].
  rewrite Hall, Z.sub_diag. change (u32 0) with 0.
  assert (Hdone : forall start kx, destroy_vm_area_loop n (pgd mm) 0 start kx = Ok kx).
  { intros start kx. destruct n; reflexivity. }
  rewrite Hdone. simpl. eexists. split; reflexivity.
Qed.

(** X20.  [destroy_vm_area] takes the frame to release from the entry of
    the page, mapped or not.  For an area of at most a page created with
    [MM_COW] and destroyed before any access, no frame was ever allocated,
    and the entry holds what it held before the area existed, 0 when the
    table is new: it is this frame, one the area never owned, that is
    handed to [__free_pages]. *)
Theorem destroy_lazy_area_releases_stale_frame
    mmp vm_start0 size pgflags gfpflags k segment k1 mm mm1 i :
  pgtbl_alloc_fresh -> orders_ok (mem_map k) ->
  mms k !! mmp = Some mm -> dir_wf k (pgd mm) ->
  0 <= vm_start0 -> 0 < size <= PAGE_SIZE -> vm_start0 + size + PAGE_SIZE - 1 < 2 ^ 32 ->
  flag pgflags MM_COW = true ->
  create_vm_area mmp vm_start0 size pgflags gfpflags k = Ok (segment, k1) ->
  mms k1 !! mmp = Some mm1 -> mmap_list mm1 !! i = Some segment ->
  let page := backing k (pgd mm) (vm_start0 / PAGE_SIZE) in
  page_count k page <= 1 ->
  mem_map k1 = mem_map k
  /\ (pde_present (get_pde k (pgd mm) (vm_start0 / PAGE_SIZE / 1024)) = false -> page = 0)
  /\ exists k2, destroy_vm_area mmp i k1 = Ok (0, k2)
       /\ mem_map k2 = __free_pages (mem_map k) page.
Proof.
  intros Hfresh Hok Hmm Hwf Hstart Hsize Hfits Hcow Hcreate Hmm1 Hi page Hcount.
  assert (HP : PAGE_SIZE = 4096) by reflexivity.
  destruct (create_vm_area_cow_inv _ _ _ _ _ _ _ _ mm Hmm Hcow Hcreate)
    as (k0 & Hupd & -> & Hseg & Hvalid).
  destruct (cow_flags pgflags Hcow) as (_ & _ & Hnoupd). cbv zeta in Hnoupd.
  pose proof (mem_upd_vm_area_mms _ _ _ _ _ _ _ Hupd) as [_ Hmap].
  assert (Hsize0 : 0 <= size) by lia.
  destruct (mem_upd_vm_area_spec _ _ _ _ _ _ _ Hfresh Hwf Hstart Hsize0 Hfits Hupd)
    as [_ Hmapped].
  pose proof (mem_upd_vm_area_backing _ _ _ _ _ _ _ Hfresh Hwf Hstart Hsize0 Hfits
                Hnoupd Hupd (vm_start0 / PAGE_SIZE)) as Hback.
  assert (Hfirst : vm_start0 / PAGE_SIZE <= vm_start0 / PAGE_SIZE
                   < (vm_start0 + size + PAGE_SIZE - 1) / PAGE_SIZE).
  { split; [lia |].
    apply Z.lt_le_trans with ((vm_start0 + PAGE_SIZE) / PAGE_SIZE);
      [| apply Z.div_le_mono; lia].
    replace (vm_start0 + PAGE_SIZE) with (vm_start0 + 1 * PAGE_SIZE) by lia.
    rewrite Z.div_add by lia. lia. }
  destruct (Hmapped _ Hfirst) as (Hpde & _).
  unfold backing in Hback at 1. rewrite Hpde in Hback. fold page in Hback.
  split; [exact Hmap |]. split.
  { intros Hnp. unfold page, backing. rewrite Hnp. reflexivity. }
  simpl in Hmm1. rewrite lookup_insert_eq in Hmm1. inversion Hmm1; subst mm1; clear Hmm1.
  set (mm1 := mm_after_create mm segment (find_nearest_order_greater vm_start0 size)) in *.
  set (k1 := set_mms _ k0) in *.
  assert (Hmm1 : mms k1 !! mmp = Some mm1) by apply lookup_insert_eq.
  assert (Htotal : u32 (vm_end segment - vm_start segment) = size).
  { rewrite Hseg. simpl. apply u32_sub_add. change (2 ^ 32) with 4294967296. lia. }
  assert (Hpagek1 : fst (mem_virtual_to_page k1 (pgd mm1) (vm_start segment) size) = page).
  { rewrite Hseg. unfold mem_virtual_to_page. simpl fst. exact Hback. }
  assert (Hok1 : orders_ok (mem_map k1)) by (unfold k1; simpl; rewrite Hmap; exact Hok).
  assert (Hsizek1 : snd (mem_virtual_to_page k1 (pgd mm1) (vm_start segment) size) = size).
  { unfold mem_virtual_to_page. simpl snd.
    pose proof (block_bytes _ (page_order_range k1
                  (frame (get_pte k1
                     (pde_frame (get_pde k1 (pgd mm) (vm_start segment / PAGE_SIZE / 1024)))
                     ((vm_start segment / PAGE_SIZE) mod 1024))) Hok1)) as Hbytes.
    apply Z.min_l. lia. }
  destruct (destroy_vm_area_one_block mmp i k1 mm1 segment Hmm1 Hi) as (k2 & Hd & Hm2).
  - rewrite Htotal. lia.
  - rewrite Htotal. exact Hsizek1.
  - rewrite Htotal, Hpagek1. unfold page_count, k1. simpl. rewrite Hmap. exact Hcount.
  - exists k2. split; [exact Hd |].
    rewrite Hm2, Htotal, Hpagek1. unfold k1. simpl. rewrite Hmap. reflexivity.
Qed.

(** ** Process images *)

(** An area as [clone_vm_area] copies it into the descriptor [mmp]. *)
Definition retarget (mmp : Z) (a : vm_area_struct_t) : vm_area_struct_t :=
  mk_vma mmp (vm_start a) (vm_end a) (vm_flags a).

Lemma clone_areas_inv mmp l : forall k k' mm,
  clone_areas mmp l k = Ok k' -> mms k !! mmp = Some mm ->
  (forall q, q <> mmp -> mms k' !! q = mms k !! q)
  /\ exists mm', mms k' !! mmp = Some mm'
       /\ mmap_list mm' = rev (map (retarget mmp) l) ++ mmap_list mm
       /\ map_count mm' = map_count mm + Z.of_nat (length l)
       /\ pgd mm' = pgd mm /\ start_stack mm' = start_stack mm.
Proof.
  induction l as [| area l IH]; intros k k' mm H Hmm; simpl in H.
  - inversion H; subst. split; [reflexivity |].
    exists mm. split; [exact Hmm |]. simpl. repeat split. lia.
  - apply bind_Ok in H as ([r k1] & Hclone & H). simpl in H.
    apply clone_vm_area_inv in Hclone as (mm0 & Hmm0 & Hm1).
    rewrite Hmm in Hmm0. inversion Hmm0; subst mm0; clear Hmm0.
    destruct (IH k1 k' _ H ltac:(rewrite Hm1; apply lookup_insert_eq))
      as (Hothers & mm' & Hmm' & Hlist & Hcount & Hpgd & Hstack).
    split.
    + intros q Hq. rewrite (Hothers q Hq), Hm1. apply lookup_insert_ne. congruence.
    + exists mm'. split; [exact Hmm' |]. simpl in *.
      split; [rewrite Hlist, <- app_assoc; reflexivity |].
      split; [lia |]. split; assumption.
Qed.

(** X21.  [clone_process_image] leaves the descriptor of the parent as it
    is and gives the child, a new descriptor with a new directory, one
    copy of each area of the parent.  Each copy is put at the head of the
    list and the list is not sorted afterwards: the areas of the child
    are those of the parent in reverse order.  [map_count] is their
    number and [start_stack] that of the parent. *)
Theorem clone_process_image_reverses mmp k child k' src :
  (forall m p, mm_alloc m = Some p -> m !! p = None) ->
  mms k !! mmp = Some src ->
  clone_process_image mmp k = Ok (child, k') ->
  child <> mmp /\ mms k' !! mmp = Some src
  /\ (forall q, q <> child -> mms k' !! q = mms k !! q)
  /\ exists mm', mms k' !! child = Some mm'
       /\ mmap_list mm' = rev (map (retarget child) (mmap_list src))
       /\ map_count mm' = Z.of_nat (length (mmap_list src))
       /\ start_stack mm' = start_stack src
       /\ pgdir_alloc (pgdirs k) = Some (pgd mm').
Proof.
  intros Hfresh Hsrc H. unfold clone_process_image in H.
  apply bind_Ok in H as (mm_new & Hnew & H). apply deref_Ok in Hnew.
  rewrite Hsrc in H. simpl in H.
  apply bind_Ok in H as (pdir_cpy & Hdir & H). apply deref_Ok in Hdir.
  apply bind_Ok in H as (main_dir & _ & H).
  apply bind_Ok in H as (k1 & Hloop & H). injection H as -> ->.
  assert (Hne : child <> mmp).
  { intros ->. rewrite (Hfresh _ _ Hnew) in Hsrc. discriminate. }
  match type of Hloop with
  | clone_areas _ _ ?k0 = _ =>
      destruct (clone_areas_inv child (mmap_list src) k0 k' _ Hloop
                  ltac:(apply lookup_insert_eq))
        as (Hothers & mm' & Hmm' & Hlist & Hcount & Hpgd & Hstack)
  end.
  simpl in *.
  assert (Hkeep : forall q, q <> child -> mms k' !! q = mms k !! q).
  { intros q Hq. rewrite (Hothers q Hq). apply lookup_insert_ne. congruence. }
  split; [exact Hne |]. split; [rewrite Hkeep by congruence; exact Hsrc |].
  split; [exact Hkeep |].
  exists mm'. split; [exact Hmm' |].
  split; [rewrite Hlist; apply app_nil_r |]. split; [lia |].
  split; [exact Hstack | congruence].
Qed.

(** X22.  [create_blank_process_image] returns a new descriptor whose
    only area is the stack, [stack_size] bytes below [PROCAREA_END_ADDR]:
    the area is not empty, [map_count] is 1, [start_stack] and
    [mmap_cache] are those of the area, and no page frame has been
    allocated for it.  The other descriptors are untouched.  (For a size
    of 0 the area would be empty: the call does not return.) *)
Theorem create_blank_process_image_stack stack_size k mmp k' :
  create_blank_process_image stack_size k = Ok (mmp, k') ->
  let stack := mk_vma mmp (u32 (PROCAREA_END_ADDR - stack_size))
                 (u32 (u32 (PROCAREA_END_ADDR - stack_size) + stack_size))
                 uninitialised in
  mm_alloc (mms k) = Some mmp
  /\ vm_start stack < vm_end stack
  /\ mem_map k' = mem_map k
  /\ (forall q, q <> mmp -> mms k' !! q = mms k !! q)
  /\ exists mm, mms k' !! mmp = Some mm
       /\ mmap_list mm = [stack] /\ mmap_cache mm = Some stack
       /\ map_count mm = 1 /\ start_stack mm = vm_start stack
       /\ pgdir_alloc (pgdirs k) = Some (pgd mm).
Proof.
  intros H. cbv zeta. unfold create_blank_process_image in H.
  apply bind_Ok in H as (mm_new & Hnew & H). apply deref_Ok in Hnew.
  apply bind_Ok in H as (pdir_cpy & Hdir & H). apply deref_Ok in Hdir.
  apply bind_Ok in H as (main_dir & _ & H).
  apply bind_Ok in H as ([segment k1] & Hcreate & H). simpl in H.
  match type of Hcreate with
  | create_vm_area ?m ?s0 ?sz ?fl ?gf ?k0 = _ =>
      destruct (create_vm_area_cow_inv m s0 sz fl gf k0 segment k1
                  (mk_mm [] None pdir_cpy 0 0 0)
                  ltac:(apply lookup_insert_eq) eq_refl Hcreate)
        as (kx & Hupd & -> & -> & Hvalid)
  end.
  apply mem_upd_vm_area_mms in Hupd as [Hm Hp]. simpl in Hm, Hp.
  simpl in H. rewrite lookup_insert_eq in H. simpl in H.
  injection H as -> <-.
  split; [exact Hnew |].
  split; [simpl; apply (is_valid_vm_area_pos _ _ _ Hvalid) |].
  split; [simpl; exact Hp |]. split.
  - intros q Hq. simpl. rewrite !lookup_insert_ne by congruence.
    rewrite Hm. apply lookup_insert_ne. congruence.
  - eexists. split; [apply lookup_insert_eq |]. simpl.
    split; [reflexivity |]. split; [reflexivity |]. split; [reflexivity |].
    split; [reflexivity | exact Hdir].
Qed.

End Memory.

(** ** Instances to run the operations on *)

(** An allocator that takes the next unused block and sets the count of
    its first page to one; freeing drops the descriptor. *)
Definition bump_alloc_pages (m : gmap Z page_t) (gfp o : Z) : option (Z * gmap Z page_t) :=
  let p := 1024 * (1 + Z.of_nat (size m)) in
  Some (p, <[p := mk_page 1 o]> m).

Definition drop_pages (m : gmap Z page_t) (p : Z) : gmap Z page_t := delete p m.

(** A slab of page tables that hands out the next unused frame. *)
Definition next_pgtbl (t : gmap Z (gmap Z page_table_entry_t)) : option Z :=
  let f := 16 + Z.of_nat (size t) in
  match t !! f with
  | None => Some f
  | Some _ => None
  end.

Definition keep_frames (k : kernel) (dst_mm dst_start src_mm src_start size : Z)
    : gmap Z (list Z) := frames k.

Definition no_window (addr : Z) : bool := false.

Definition lowmem_pte_address (table i : Z) : Z := 3221225472 + table * PAGE_SIZE + 4 * i.

Definition no_pte_at (w : Z) : option (Z * Z) := None.

(** A process with no area yet: its descriptor at address 1, its page
    directory at address 100, nothing mapped. *)
Definition blank_mm : mm_struct_t := mk_mm [] None 100 0 0 0.

Definition blank_kernel : kernel := mk_kernel {[ 1 := blank_mm ]} ∅ ∅ ∅ ∅ [].

(** The flags [sys_mmap] and [create_blank_process_image] pass. *)
Definition cow_area_flags : Z := Z.lor MM_PRESENT (Z.lor MM_RW (Z.lor MM_COW MM_USER)).

Definition run (ops : list vm_op) (k : kernel) : result kernel :=
  run_ops bump_alloc_pages drop_pages next_pgtbl keep_frames lowmem_pte_address 0 ops k.

Definition kernel_of (r : result kernel) : kernel :=
  match r with
  | Ok k => k
  | _ => blank_kernel
  end.

Definition mm_of (r : result kernel) : mm_struct_t :=
  default blank_mm (mms (kernel_of r) !! 1).

(** The memory a call leaves when it returns. *)
Definition kernel_after {A} (r : result (A * kernel)) : kernel :=
  match r with
  | Ok p => snd p
  | _ => blank_kernel
  end.

(** A directory whose second entry names table 7; in the table, entry 3
    is a present page shared copy-on-write (frame 80, read-only), entry 4
    a page not yet backed, entry 0 is empty. *)
Definition shared_pte : page_table_entry_t :=
  mk_pte true false true false false false false false false 1 true 80.

Definition lazy_pte : page_table_entry_t :=
  mk_pte false true true false false false false false false 1 true 0.

Definition fault_kernel : kernel :=
  mk_kernel ∅
    {[ 100 := {[ 1 := mk_pde true true true false false 1 7 ]} ]}
    {[ 7 := {[ 3 := shared_pte; 4 := lazy_pte ]} ]}
    ∅ {[ 80 := mk_page 2 0 ]} [].

(** One area of two pages in the descriptor at address 1. *)
Definition two_page_area : vm_area_struct_t := mk_vma 1 1342177280 1342185472 0.

Lemma next_pgtbl_fresh : pgtbl_alloc_fresh next_pgtbl.
Proof.
  intros t f. unfold next_pgtbl.
  destruct (t !! (16 + Z.of_nat (size t))) eqn:Hlk; [discriminate |].
  intros Hf. inversion Hf; subst. exact Hlk.
Qed.

Lemma drop_pages_orders m p : orders_ok m -> orders_ok (drop_pages m p).
Proof. intros Hok. apply map_Forall_delete. exact Hok. Qed.

Lemma dir_wf_blank k dir : pgdirs k = ∅ -> dir_wf k dir.
Proof.
  intros Hempty.
  assert (Hzero : forall i, get_pde k dir i = pde_zero).
  { intros i. unfold get_pde. rewrite Hempty, lookup_empty. simpl.
    rewrite lookup_empty. reflexivity. }
  split.
  - intros i Hi. rewrite Hzero in Hi. discriminate.
  - intros i j Hi. rewrite Hzero in Hi. discriminate.
Qed.

(** Zero-fill on demand: the fault on the page that is not yet backed. *)
Lemma page_handle_cow_resolution_witness :
  exists k',
    __page_handle_cow bump_alloc_pages 0 7 4 fault_kernel = Ok (0, k')
    /\ kernel_cow (get_pte k' 7 4) = false
    /\ present (get_pte k' 7 4) = true
    /\ frame (get_pte k' 7 4)
       = Z.shiftr (get_physical_address_from_page 2048) 12 mod 2 ^ 20
    /\ rw (get_pte k' 7 4) = rw (get_pte fault_kernel 7 4)
    /\ frames k' !! 2048 = Some zero_page
    /\ mem_map k' = <[2048 := mk_page 1 0]> (mem_map fault_kernel).
Proof.
  apply (proj1 (page_handle_cow_resolution bump_alloc_pages 0 7 4 fault_kernel eq_refl)
           eq_refl 2048 (<[2048 := mk_page 1 0]> (mem_map fault_kernel))).
  reflexivity.
Defined.

(** C1 (counterexample).  A write fault on the present page
    shared copy-on-write is not resolved: the handler returns 1, the entry
    keeps frame 80 and stays read-only, no page is allocated or copied and
    the count of frame 80 is still 2. *)
Lemma page_handle_cow_shared_unresolved :
  exists k',
    __page_handle_cow bump_alloc_pages 0 7 3 fault_kernel = Ok (1, k')
    /\ frame (get_pte k' 7 3) = 80
    /\ rw (get_pte k' 7 3) = false
    /\ mem_map k' = mem_map fault_kernel
    /\ frames k' = frames fault_kernel
    /\ page_count k' 80 = 2.
Proof.
  eexists. split; [reflexivity |]. repeat split.
Qed.

(** A user process (pid 42) reads above the directory's mapped tables,
    then writes to the empty entry 0 of table 7 with a protection fault. *)
Lemma page_fault_terminal_witness :
  page_fault_handler bump_alloc_pages no_window no_pte_at 0 8388608 4 100 (Some 42)
    fault_kernel = Ok (Signalled 42 fault_kernel)
  /\ page_fault_handler bump_alloc_pages no_window no_pte_at 0 4194304 7 100 (Some 42)
       fault_kernel = Ok (Signalled 42 fault_kernel).
Proof.
  pose proof (page_fault_terminal bump_alloc_pages no_window no_pte_at 0
                8388608 4 100 (Some 42) fault_kernel) as [Hdir _].
  pose proof (page_fault_terminal bump_alloc_pages no_window no_pte_at 0
                4194304 7 100 (Some 42) fault_kernel) as (_ & Hpte & _).
  split.
  - apply Hdir. reflexivity.
  - apply Hpte; reflexivity.
Defined.

(** The page-table entry of address [0x400000] is not marked COW.  The
    process with pid 42 reads it from user mode (error code 4), and writes
    to it while it is not present (error code 6): both end in a panic.
    The same two accesses above the mapped tables, at [0x800000], end in
    [SIGSEGV]. *)
Lemma page_fault_user_mode_panics_witness :
  kernel_cow (get_pte fault_kernel 7 0) = false
  /\ (page_fault_handler bump_alloc_pages no_window no_pte_at 0 4194304 4 100 (Some 42)
        fault_kernel = Panic
      /\ page_fault_handler bump_alloc_pages no_window no_pte_at 0 4194304 6 100 (Some 42)
           fault_kernel = Panic)
  /\ (page_fault_handler bump_alloc_pages no_window no_pte_at 0 8388608 4 100 (Some 42)
        fault_kernel = Ok (Signalled 42 fault_kernel)
      /\ page_fault_handler bump_alloc_pages no_window no_pte_at 0 8388608 6 100 (Some 42)
           fault_kernel = Ok (Signalled 42 fault_kernel)).
Proof.
  split; [reflexivity |]. split; split.
  - apply (proj2 (page_fault_user_mode_panics bump_alloc_pages no_window no_pte_at 0
                    4194304 4 100 42 fault_kernel eq_refl eq_refl)); reflexivity.
  - apply (proj2 (page_fault_user_mode_panics bump_alloc_pages no_window no_pte_at 0
                    4194304 6 100 42 fault_kernel eq_refl eq_refl)); reflexivity.
  - apply (proj1 (page_fault_user_mode_panics bump_alloc_pages no_window no_pte_at 0
                    8388608 4 100 42 fault_kernel eq_refl eq_refl)); reflexivity.
  - apply (proj1 (page_fault_user_mode_panics bump_alloc_pages no_window no_pte_at 0
                    8388608 6 100 42 fault_kernel eq_refl eq_refl)); reflexivity.
Defined.

(** A three-page copy-on-write area at [0x50000000], then one of a page
    below it in the same descriptor, and the first destroyed. *)
Definition three_ops : list vm_op :=
  [ OpCreate 1 1342177280 12288 cow_area_flags 0;
    OpCreate 1 1342173184 4096 cow_area_flags 0;
    OpDestroy 1 1%nat ].

Lemma vm_area_ops_invariant_witness :
  run three_ops blank_kernel = Ok (kernel_of (run three_ops blank_kernel))
  /\ exists mm',
       mms (kernel_of (run three_ops blank_kernel)) !! 1 = Some mm'
       /\ map_count mm' = Z.of_nat (length (mmap_list mm'))
       /\ u32 (total_vm mm') = u32 (0 + pages_added 1 three_ops)
       /\ sorted_by_start (mmap_list mm')
       /\ Forall vma_wf (mmap_list mm') /\ pairwise_disjoint (mmap_list mm').
Proof.
  assert (Hrun : run three_ops blank_kernel = Ok (kernel_of (run three_ops blank_kernel)))
    by (vm_compute; reflexivity).
  split; [exact Hrun |].
  destruct (vm_area_ops_invariant bump_alloc_pages drop_pages next_pgtbl keep_frames
              lowmem_pte_address 0 1 three_ops blank_kernel _ blank_mm eq_refl Hrun)
    as (mm' & Hq & Hcount & Htotal & Hsorted & Hdisj).
  exists mm'. split; [exact Hq |].
  split; [apply Hcount; reflexivity |].
  split; [exact Htotal |].
  split; [apply (Hsorted true); [intros _; constructor | reflexivity] |].
  apply Hdisj.
  - simpl. repeat constructor; vm_compute; discriminate.
  - constructor.
  - exact I.
Defined.

(** The blank descriptor satisfies the invariant of the specification;
    after the operations below it does not.  A three-page area adds four
    pages to [total_vm]; destroying it leaves [total_vm] at four with no
    area left; a second area that starts where the first does passes
    [is_valid_vm_area] and overlaps it; cloning an area that lies above the
    one in the list puts it first and leaves the list unsorted. *)
Lemma vm_area_invariant_fails :
  mm_invariant blank_mm
  /\ (run [OpCreate 1 1342177280 12288 cow_area_flags 0] blank_kernel <> Panic
      /\ total_vm (mm_of (run [OpCreate 1 1342177280 12288 cow_area_flags 0] blank_kernel)) = 4
      /\ pages_of (mmap_list (mm_of (run [OpCreate 1 1342177280 12288 cow_area_flags 0]
                                        blank_kernel))) = 3)
  /\ (mmap_list (mm_of (run [OpCreate 1 1342177280 12288 cow_area_flags 0; OpDestroy 1 0%nat]
                           blank_kernel)) = []
      /\ total_vm (mm_of (run [OpCreate 1 1342177280 12288 cow_area_flags 0; OpDestroy 1 0%nat]
                             blank_kernel)) = 4)
  /\ (mmap_list (mm_of (run [OpCreate 1 1342177280 4096 cow_area_flags 0;
                             OpCreate 1 1342177280 8192 cow_area_flags 0] blank_kernel))
      = [mk_vma 1 1342177280 1342185472 0; mk_vma 1 1342177280 1342181376 0]
      /\ ~ vma_disjoint (mk_vma 1 1342177280 1342185472 0) (mk_vma 1 1342177280 1342181376 0))
  /\ (mmap_list (mm_of (run [OpCreate 1 1342177280 4096 cow_area_flags 0;
                             OpClone 1 (mk_vma 1 1342210048 1342214144 0) true 0] blank_kernel))
      = [mk_vma 1 1342210048 1342214144 0; mk_vma 1 1342177280 1342181376 0]
      /\ ~ sorted_by_start [mk_vma 1 1342210048 1342214144 0; mk_vma 1 1342177280 1342181376 0]).
Proof.
  split; [repeat split; constructor |].
  split; [split; [vm_compute; discriminate | split; vm_compute; reflexivity] |].
  split; [split; vm_compute; reflexivity |].
  split.
  - split; [vm_compute; reflexivity |].
    unfold vma_disjoint. simpl. lia.
  - split; [vm_compute; reflexivity |].
    intros Hs. apply StronglySorted_inv in Hs as [_ Hall].
    apply Forall_cons in Hall as [Hle _]. unfold vma_le in Hle. simpl in Hle. lia.
Qed.

(** One page created at [0x50000000] in the blank process, and destroyed
    again: no area is left, and [total_vm] is still 1. *)
Definition one_page_created : result kernel :=
  run [OpCreate 1 1342177280 4096 cow_area_flags 0] blank_kernel.

Lemma destroy_vm_area_keeps_total_vm_witness :
  mm_invariant (mm_of one_page_created)
  /\ exists k' mm',
       destroy_vm_area drop_pages 1 0%nat (kernel_of one_page_created) = Ok (0, k')
       /\ mms k' !! 1 = Some mm'
       /\ mmap_list mm' = [] /\ map_count mm' = 0 /\ total_vm mm' = 1
       /\ pages_of (mmap_list mm') = 0
       /\ ~ mm_invariant mm'.
Proof.
  assert (Hmm : mm_of one_page_created
                = mk_mm [mk_vma 1 1342177280 1342181376 0]
                    (Some (mk_vma 1 1342177280 1342181376 0)) 100 1 1 0)
    by (vm_compute; reflexivity).
  assert (Hinv : mm_invariant (mm_of one_page_created)).
  { rewrite Hmm. split; [split; [constructor | exact I] |].
    split; [repeat constructor |]. split; reflexivity. }
  split; [exact Hinv |].
  assert (Hmap : mem_map (kernel_of one_page_created) = ∅) by (vm_compute; reflexivity).
  destruct (destroy_vm_area_keeps_total_vm drop_pages 1 0%nat (kernel_of one_page_created)
              (mm_of one_page_created) (mk_vma 1 1342177280 1342181376 0)
              drop_pages_orders)
    as (k' & mm' & Hdestroy & Hlook & Hlist & Hcount & Htotal & Hpages & Hbroken).
  - unfold orders_ok. rewrite Hmap. apply map_Forall_empty.
  - vm_compute. reflexivity.
  - rewrite Hmm. reflexivity.
  - exact Hinv.
  - simpl. unfold PAGE_SIZE. lia.
  - exists k', mm'. rewrite Hmm in Hlist, Htotal. simpl in Hlist, Htotal.
    rewrite Hlist in Hcount, Hpages. simpl in Hcount, Hpages.
    split; [exact Hdestroy |]. split; [exact Hlook |]. split; [exact Hlist |].
    split; [exact Hcount |]. split; [exact Htotal |].
    split; [rewrite Hlist; reflexivity | exact Hbroken].
Defined.

(** Two pages mapped at [0x50000000] on the block of the frames 1024 and
    1025; [munmap] of the first page only, and of the whole area. *)
Definition backed_pages : result (vm_area_struct_t * kernel) :=
  create_vm_area bump_alloc_pages next_pgtbl 0 1 1342177280 8192
    (Z.lor MM_PRESENT (Z.lor MM_RW MM_USER)) 0 blank_kernel.

Lemma sys_munmap_exact_match_witness :
  mem_map (kernel_after backed_pages) = {[ 1024 := mk_page 1 1 ]}
  /\ frame (walk (kernel_after backed_pages) 100 (1342177280 / PAGE_SIZE)) = 1024
  /\ sys_munmap drop_pages 1 1342177280 4096 (kernel_after backed_pages)
     = Ok (1, kernel_after backed_pages)
  /\ exists k' mm',
       sys_munmap drop_pages 1 1342177280 8192 (kernel_after backed_pages) = Ok (0, k')
       /\ mms k' !! 1 = Some mm' /\ mmap_list mm' = [] /\ map_count mm' = 0
       /\ mem_map k' = ∅
       /\ pgtables k' = pgtables (kernel_after backed_pages).
Proof.
  set (k := kernel_after backed_pages).
  set (mm := mk_mm [two_page_area] (Some two_page_area) 100 1 2 0).
  assert (Hmap : mem_map k = {[ 1024 := mk_page 1 1 ]}) by (vm_compute; reflexivity).
  assert (Hmm : mms k !! 1 = Some mm) by (vm_compute; reflexivity).
  assert (Hok : orders_ok (mem_map k)).
  { unfold orders_ok. rewrite Hmap. apply map_Forall_singleton. simpl. lia. }
  assert (Hrange : Forall vma_in_range (mmap_list mm))
    by (repeat constructor; simpl; lia).
  pose proof (sys_munmap_exact_match drop_pages 1 1342177280 8192 k mm
                drop_pages_orders Hok Hmm Hrange) as [Hyes _].
  pose proof (sys_munmap_exact_match drop_pages 1 1342177280 4096 k mm
                drop_pages_orders Hok Hmm Hrange) as [_ Hno].
  split; [exact Hmap |]. split; [vm_compute; reflexivity |]. split.
  - apply Hno. intros (a & Ha & _ & Hlen).
    apply list_elem_of_singleton in Ha. subst a. simpl in Hlen. lia.
  - destruct Hyes as (i & a & k1 & k' & Hi & _ & _ & Hcall & Hlook & _ & _ & _ & Htables & _).
    { exists two_page_area. split; [apply list_elem_of_here | split; reflexivity]. }
    assert (Hrun : sys_munmap drop_pages 1 1342177280 8192 k
                   = Ok (0, kernel_after (sys_munmap drop_pages 1 1342177280 8192 k)))
      by (vm_compute; reflexivity).
    assert (Hk' : k' = kernel_after (sys_munmap drop_pages 1 1342177280 8192 k))
      by congruence.
    assert (Hi0 : i = 0%nat).
    { apply lookup_lt_Some in Hi. simpl in Hi. lia. }
    subst i. exists k', (mm_after_destroy mm 0).
    split; [exact Hcall |]. split; [exact Hlook |].
    split; [reflexivity |]. split; [reflexivity |].
    split; [rewrite Hk'; vm_compute; reflexivity | exact Htables].
Defined.

(** A copy-on-write area of three pages in the blank process. *)
Lemma create_vm_area_mapping_witness :
  mem_map (kernel_of (run [OpCreate 1 1342177280 12288 cow_area_flags 0] blank_kernel))
  = mem_map blank_kernel
  /\ forall a, 1342177280 <= a < 1342177280 + 12288 ->
       kernel_cow (walk (kernel_of (run [OpCreate 1 1342177280 12288 cow_area_flags 0]
                                      blank_kernel)) 100 (a / PAGE_SIZE)) = true
       /\ present (walk (kernel_of (run [OpCreate 1 1342177280 12288 cow_area_flags 0]
                                      blank_kernel)) 100 (a / PAGE_SIZE)) = false.
Proof.
  apply (proj1 (create_vm_area_mapping bump_alloc_pages next_pgtbl 0
                  1 1342177280 12288 cow_area_flags 0 blank_kernel
                  (mk_vma 1 1342177280 1342189568 0)
                  (kernel_of (run [OpCreate 1 1342177280 12288 cow_area_flags 0] blank_kernel))
                  blank_mm next_pgtbl_fresh eq_refl (dir_wf_blank blank_kernel 100 eq_refl)
                  ltac:(lia) ltac:(lia) ltac:(vm_compute; reflexivity)
                  ltac:(vm_compute; reflexivity))).
  reflexivity.
Defined.

(** C6 (counterexample).  Without [MM_COW] and without
    [MM_PRESENT] in [pgflags], the page is mapped to the allocated frame
    but not present. *)
Lemma create_vm_area_not_present :
  flag (Z.lor MM_RW MM_USER) MM_COW = false
  /\ run [OpCreate 1 1342177280 4096 (Z.lor MM_RW MM_USER) 0] blank_kernel <> Panic
  /\ present (walk (kernel_of (run [OpCreate 1 1342177280 4096 (Z.lor MM_RW MM_USER) 0]
                                 blank_kernel)) 100 (1342177280 / PAGE_SIZE)) = false
  /\ frame (walk (kernel_of (run [OpCreate 1 1342177280 4096 (Z.lor MM_RW MM_USER) 0]
                               blank_kernel)) 100 (1342177280 / PAGE_SIZE)) = 1024.
Proof.
  split; [reflexivity |].
  split; [vm_compute; discriminate |].
  split; vm_compute; reflexivity.
Qed.

(** *** Ranges *)

(** A descriptor with a page at [0x40000000] and two pages at
    [0x50000000]. *)
Definition low_area : vm_area_struct_t := mk_vma 1 1073741824 1073745920 0.

Definition two_areas_mm : mm_struct_t :=
  mk_mm [low_area; two_page_area] (Some two_page_area) 100 2 3 0.

Lemma two_areas_wf : Forall vma_wf (mmap_list two_areas_mm).
Proof. repeat constructor; unfold vma_wf; simpl; lia. Qed.

Lemma two_areas_in_range : Forall vma_in_range (mmap_list two_areas_mm).
Proof. repeat constructor; simpl; lia. Qed.

Lemma two_areas_sorted : sorted_by_start (mmap_list two_areas_mm).
Proof. repeat constructor. unfold vma_le. simpl. lia. Qed.

Lemma two_areas_disjoint : pairwise_disjoint (mmap_list two_areas_mm).
Proof.
  simpl. split; [| split; [constructor | exact I]].
  apply Forall_cons; split; [left; simpl; lia | constructor].
Qed.

(** The page at [0x45000000] is free. *)
Lemma is_valid_vm_area_accepts_free_witness :
  is_valid_vm_area two_areas_mm 1157627904 1157632000 = 1.
Proof.
  apply is_valid_vm_area_accepts_free; [lia | |].
  - apply Forall_cons; split; [simpl; lia |].
    apply Forall_cons; split; [simpl; lia | constructor].
  - apply Forall_cons; split; [right; simpl; lia |].
    apply Forall_cons; split; [left; simpl; lia | constructor].
Defined.

(** The range of the second area itself, and one that starts with it and
    ends a page later. *)
Lemma is_valid_vm_area_accepts_cover_witness :
  (is_valid_vm_area two_areas_mm 1342177280 1342185472 = 1
   /\ ~ vma_disjoint (mk_vma 1 1342177280 1342185472 0) two_page_area)
  /\ (is_valid_vm_area two_areas_mm 1342177280 1342189568 = 1
      /\ ~ vma_disjoint (mk_vma 1 1342177280 1342189568 0) two_page_area).
Proof.
  split.
  - apply (is_valid_vm_area_accepts_cover two_areas_mm [low_area] two_page_area []);
      [reflexivity | simpl; lia | simpl; lia | simpl; lia | left; reflexivity |].
    apply Forall_cons; split; [simpl; lia | constructor].
  - apply (is_valid_vm_area_accepts_cover two_areas_mm [low_area] two_page_area []);
      [reflexivity | simpl; lia | simpl; lia | simpl; lia | left; reflexivity |].
    apply Forall_cons; split; [simpl; lia | constructor].
Defined.

(** Room for two pages is found right below the second area. *)
Lemma find_free_vm_area_gap_witness :
  find_free_vm_area two_areas_mm 8192 = Some 1342169088
  /\ 0 <= 1342169088 /\ 1342169088 + 8192 < 2 ^ 32
  /\ (exists area, area ∈ mmap_list two_areas_mm /\ vm_start area = 1342169088 + 8192)
  /\ Forall (fun a => 1342169088 + 8192 <= vm_start a \/ vm_end a <= 1342169088)
       (mmap_list two_areas_mm)
  /\ (0 < 8192 -> is_valid_vm_area two_areas_mm 1342169088 (1342169088 + 8192) = 1).
Proof.
  split; [reflexivity |].
  apply (find_free_vm_area_gap two_areas_mm 8192 1342169088 two_areas_wf
           two_areas_in_range two_areas_sorted two_areas_disjoint);
    [lia | reflexivity].
Defined.

(** *** [mmap] and [munmap] in a process *)

Definition mmap (addr length0 flags : Z) (k : kernel) : result (Z * kernel) :=
  sys_mmap bump_alloc_pages next_pgtbl 0 0 1 addr length0 0 flags 0 0 k.

(** A process with the two areas above. *)
Definition two_areas_kernel : kernel :=
  mk_kernel {[ 1 := two_areas_mm ]} ∅ ∅ ∅ ∅ [].

(** [mmap(0x45000000, 0)] and [mmap(NULL, 0)] in that process. *)
Lemma sys_mmap_zero_length_witness :
  mmap 1157627904 0 0 two_areas_kernel = Panic
  /\ mmap 0 0 0 two_areas_kernel = Panic
  /\ mmap 0 0 0 blank_kernel = Ok (0, blank_kernel).
Proof.
  split; [| split].
  - apply (sys_mmap_zero_length bump_alloc_pages next_pgtbl 0 0 1 1157627904 0 0 0 0
             two_areas_kernel two_areas_mm eq_refl). lia.
  - apply (sys_mmap_zero_length bump_alloc_pages next_pgtbl 0 0 1 0 0 0 0 0
             two_areas_kernel two_areas_mm eq_refl). lia.
  - apply (sys_mmap_zero_length bump_alloc_pages next_pgtbl 0 0 1 0 0 0 0 0
             blank_kernel blank_mm eq_refl). lia.
Defined.

(** [mmap(NULL, 4096)] in a process that has no area yet. *)
Lemma sys_mmap_needs_two_areas_witness :
  mmap 0 4096 0 blank_kernel = Ok (0, blank_kernel).
Proof.
  apply (sys_mmap_needs_two_areas bump_alloc_pages next_pgtbl 0 0 1 0 4096 0 0 0 0
           blank_kernel blank_mm eq_refl); [simpl; lia | left; reflexivity].
Defined.

(** A process whose directory has the kernel's global table 5 at entry
    768, the entry of [0xC0000000]. *)
Definition kernel_mapped_kernel : kernel :=
  mk_kernel {[ 1 := blank_mm ]}
    {[ 100 := {[ 768 := mk_pde true true false false true 1 5 ]} ]}
    {[ 5 := ∅ ]} ∅ ∅ [].

Lemma sys_mmap_hint_in_global_table_panics_witness :
  mmap 3221225472 4096 0 kernel_mapped_kernel = Panic.
Proof.
  apply (sys_mmap_hint_in_global_table_panics bump_alloc_pages next_pgtbl 0 0
           1 3221225472 4096 0 0 0 0 kernel_mapped_kernel blank_mm eq_refl);
    [lia | vm_compute; reflexivity | reflexivity | reflexivity].
Defined.

(** [mmap(0x45000000, 8192)] in the blank process, then [munmap]. *)
Lemma sys_mmap_munmap_round_trip_witness :
  mmap 1157627904 8192 7 blank_kernel
  = Ok (1157627904, kernel_after (mmap 1157627904 8192 7 blank_kernel))
  /\ mem_map (kernel_after (mmap 1157627904 8192 7 blank_kernel)) = mem_map blank_kernel
  /\ exists i a k2 mm1 mm2,
       sys_munmap drop_pages 1 1157627904 8192
         (kernel_after (mmap 1157627904 8192 7 blank_kernel)) = Ok (0, k2)
       /\ mms (kernel_after (mmap 1157627904 8192 7 blank_kernel)) !! 1 = Some mm1
       /\ mms k2 !! 1 = Some mm2
       /\ mmap_list mm1 !! i = Some a
       /\ vm_start a = 1157627904 /\ u32 (vm_end a - vm_start a) = 8192
       /\ mmap_list mm2 = delete i (mmap_list mm1)
       /\ length (mmap_list mm2) = length (mmap_list blank_mm)
       /\ map_count mm2 = map_count blank_mm
       /\ total_vm mm2
          = u32 (total_vm blank_mm + u32 (2 ^ find_nearest_order_greater 1157627904 8192)).
Proof.
  assert (Hmmap : mmap 1157627904 8192 7 blank_kernel
                  = Ok (1157627904, kernel_after (mmap 1157627904 8192 7 blank_kernel)))
    by (vm_compute; reflexivity).
  split; [exact Hmmap |].
  apply (sys_mmap_munmap_round_trip bump_alloc_pages drop_pages next_pgtbl 0 0
           1 1157627904 8192 0 7 0 0 blank_kernel blank_mm 1157627904 _
           drop_pages_orders (map_Forall_empty _) eq_refl ltac:(lia) Hmmap ltac:(lia)).
Defined.

(** *** A lazily backed area in the blank process *)

Definition lazy_page : result (vm_area_struct_t * kernel) :=
  create_vm_area bump_alloc_pages next_pgtbl 0 1 1342177280 4096 cow_area_flags 0
    blank_kernel.

Lemma lazy_page_created :
  lazy_page = Ok (mk_vma 1 1342177280 1342181376 0, kernel_after lazy_page).
Proof. vm_compute. reflexivity. Qed.

Lemma create_vm_area_then_find_witness :
  exists mm mm' i a,
    mms blank_kernel !! 1 = Some mm /\ mms (kernel_after lazy_page) !! 1 = Some mm'
    /\ find_vm_area mm' 1342177280 = Some i /\ mmap_list mm' !! i = Some a
    /\ vm_start a = 1342177280
    /\ (forall j b, (i < j)%nat -> mmap_list mm' !! j = Some b -> vm_start b <> 1342177280)
    /\ (Forall (fun b => vm_start b <> 1342177280) (mmap_list mm)
        -> a = mk_vma 1 1342177280 1342181376 0)
    /\ mmap_cache mm' = Some (mk_vma 1 1342177280 1342181376 0).
Proof.
  apply (create_vm_area_then_find bump_alloc_pages next_pgtbl 0 1 1342177280 4096
           cow_area_flags 0 blank_kernel _ _ lazy_page_created).
Defined.

(** A kernel-mode read (error code 0) of [0x50000123], with no current
    process: the page is backed by the frame the allocator gives. *)
Lemma demand_zero_after_create_witness :
  exists k2,
    page_fault_handler bump_alloc_pages no_window no_pte_at 0 1342177571 0 100 None
      (kernel_after lazy_page) = Ok (Resolved k2)
    /\ present (walk k2 100 (1342177571 / PAGE_SIZE)) = true
    /\ kernel_cow (walk k2 100 (1342177571 / PAGE_SIZE)) = false
    /\ frame (walk k2 100 (1342177571 / PAGE_SIZE)) = 1024 mod 2 ^ 20
    /\ rw (walk k2 100 (1342177571 / PAGE_SIZE)) = flag cow_area_flags MM_RW
    /\ user (walk k2 100 (1342177571 / PAGE_SIZE)) = flag cow_area_flags MM_USER
    /\ frames k2 !! 1024 = Some zero_page
    /\ mem_map k2 = <[1024 := mk_page 1 0]> ∅
    /\ tlb k2 = 1342177571 :: tlb (kernel_after lazy_page)
    /\ mms k2 = mms (kernel_after lazy_page).
Proof.
  apply (demand_zero_after_create bump_alloc_pages next_pgtbl no_window no_pte_at 0 0
           1 1342177280 4096 cow_area_flags 0 blank_kernel _ _ blank_mm
           1342177571 0 None 1024 (<[1024 := mk_page 1 0]> ∅)
           next_pgtbl_fresh eq_refl (dir_wf_blank blank_kernel 100 eq_refl)
           ltac:(lia) ltac:(lia) ltac:(vm_compute; reflexivity) eq_refl
           lazy_page_created ltac:(lia) eq_refl).
  vm_compute. reflexivity.
Defined.

(** The page is never touched and the area destroyed: frame 0 is freed. *)
Lemma destroy_lazy_area_releases_stale_frame_witness :
  mem_map (kernel_after lazy_page) = mem_map blank_kernel
  /\ backing blank_kernel 100 (1342177280 / PAGE_SIZE) = 0
  /\ exists k2,
       destroy_vm_area drop_pages 1 0%nat (kernel_after lazy_page) = Ok (0, k2)
       /\ mem_map k2 = drop_pages (mem_map blank_kernel) 0.
Proof.
  destruct (destroy_lazy_area_releases_stale_frame bump_alloc_pages drop_pages next_pgtbl 0
              1 1342177280 4096 cow_area_flags 0 blank_kernel _ _ blank_mm
              (mm_of (Ok (kernel_after lazy_page))) 0%nat
              next_pgtbl_fresh (map_Forall_empty _) eq_refl
              (dir_wf_blank blank_kernel 100 eq_refl)
              ltac:(lia) ltac:(unfold PAGE_SIZE; lia) ltac:(vm_compute; reflexivity)
              eq_refl lazy_page_created ltac:(vm_compute; reflexivity)
              ltac:(vm_compute; reflexivity) ltac:(vm_compute; discriminate))
    as (Hmap & Hzero & Hdestroy).
  split; [exact Hmap |]. split; [apply Hzero; reflexivity | exact Hdestroy].
Defined.

(** *** Process images *)

(** Slabs of descriptors and directories that hand out the next unused
    address. *)
Definition next_mm (m : gmap Z mm_struct_t) : option Z :=
  let p := 1000 + Z.of_nat (size m) in
  match m !! p with
  | None => Some p
  | Some _ => None
  end.

Definition next_pgdir (d : gmap Z (gmap Z page_dir_entry_t)) : option Z :=
  let p := 2000 + Z.of_nat (size d) in
  match d !! p with
  | None => Some p
  | Some _ => None
  end.

Lemma next_mm_fresh m p : next_mm m = Some p -> m !! p = None.
Proof.
  unfold next_mm. destruct (m !! (1000 + Z.of_nat (size m))) eqn:Hlk; [discriminate |].
  intros Hp. inversion Hp; subst. exact Hlk.
Qed.

(** The kernel's descriptor at address 0 with the main directory at 50,
    and the process with two areas at address 1. *)
Definition process_kernel : kernel :=
  mk_kernel {[ 0 := mk_mm [] None 50 0 0 0; 1 := two_areas_mm ]} ∅ ∅ ∅ ∅ [].

Definition fork_image : result (Z * kernel) :=
  clone_process_image bump_alloc_pages next_pgtbl keep_frames lowmem_pte_address 0
    next_mm next_pgdir 0 1 process_kernel.

Lemma clone_process_image_reverses_witness :
  fork_image = Ok (1002, kernel_after fork_image)
  /\ mms (kernel_after fork_image) !! 1 = Some two_areas_mm
  /\ exists mm', mms (kernel_after fork_image) !! 1002 = Some mm'
       /\ mmap_list mm' = [retarget 1002 two_page_area; retarget 1002 low_area]
       /\ map_count mm' = 2
       /\ start_stack mm' = start_stack two_areas_mm
       /\ next_pgdir (pgdirs process_kernel) = Some (pgd mm').
Proof.
  assert (Hfork : fork_image = Ok (1002, kernel_after fork_image))
    by (vm_compute; reflexivity).
  split; [exact Hfork |].
  destruct (clone_process_image_reverses bump_alloc_pages next_pgtbl keep_frames
              lowmem_pte_address 0 next_mm next_pgdir 0 1 process_kernel 1002 _
              two_areas_mm next_mm_fresh eq_refl Hfork)
    as (_ & Hparent & _ & Hchild).
  split; [exact Hparent | exact Hchild].
Defined.

(** A stack of two pages below [0xC0000000]. *)
Definition blank_image : result (Z * kernel) :=
  create_blank_process_image bump_alloc_pages next_pgtbl 0 0 next_mm next_pgdir 0
    3221225472 8192 process_kernel.

Lemma create_blank_process_image_stack_witness :
  blank_image = Ok (1002, kernel_after blank_image)
  /\ mem_map (kernel_after blank_image) = mem_map process_kernel
  /\ exists mm, mms (kernel_after blank_image) !! 1002 = Some mm
       /\ mmap_list mm = [mk_vma 1002 3221217280 3221225472 0]
       /\ mmap_cache mm = Some (mk_vma 1002 3221217280 3221225472 0)
       /\ map_count mm = 1 /\ start_stack mm = 3221217280
       /\ next_pgdir (pgdirs process_kernel) = Some (pgd mm).
Proof.
  assert (Himage : blank_image = Ok (1002, kernel_after blank_image))
    by (vm_compute; reflexivity).
  split; [exact Himage |].
  destruct (create_blank_process_image_stack bump_alloc_pages next_pgtbl 0 0 next_mm
              next_pgdir 0 3221225472 8192 process_kernel 1002 _ Himage)
    as (_ & _ & Hmap & _ & Hmm).
  split; [exact Hmap | exact Hmm].
Defined.

End Paging.
